(** * nxtLvl workflow schema: a shallow embedding of [workflow_schema.sql]

    The repository's workflow core is the PostgreSQL schema that the
    pull-based stage workers share: the [automations] table with its
    triggers, the append-only [workflow_events] log, the per-day
    [workflow_stats] counters with the [update_workflow_stats] upsert, and
    the [recent_workflow_activity] view.  This file embeds those SQL
    objects as Rocq functions over tables ([automations] as a map from its
    primary key, the other two as lists of rows in heap order) and proves
    the properties the specification states about them.  The item-store
    primitives of the stage workers are not part of the SQL; where a
    property is about them they are modelled from the specification, on
    top of the embedded statements, and marked as such.

    The last part embeds the pure functions of the front end: the title
    of an uploaded file, the validation and the request body of the
    pipeline configuration form, the highlighted navigation items and the
    columns of the board, over JavaScript strings as sequences of UTF-16
    code units. *)

From Stdlib Require Import ZArith QArith Lia Lqa.
From stdpp Require Import base option list strings gmap sorting.

Open Scope Z_scope.

(** ** SQL values and errors *)

(** A statement either completes or raises; a raised error aborts the
    statement and nothing it wrote remains. *)
Inductive sql_error : Type :=
  | integer_out_of_range
  | numeric_field_overflow
  | division_by_zero
  | string_data_right_truncation
  | unique_violation
  | foreign_key_violation.

Inductive result (A : Type) : Type :=
  | Ok (a : A)
  | Raise (e : sql_error).
Arguments Ok {A} a.
Arguments Raise {A} e.

Definition bind {A B : Type} (r : result A) (k : A -> result B) : result B :=
  match r with
  | Ok a => k a
  | Raise e => Raise e
  end.

Notation "x <-- r ;; k" := (bind r (fun x => k))
  (at level 100, r at next level, right associativity).

(** What the store holds after a statement: the new state when it
    completed, the old one when it raised. *)
Definition commit {A : Type} (old : A) (r : result A) : A :=
  match r with
  | Ok new => new
  | Raise _ => old
  end.

(** A multi-row statement applies its row function to every row and
    raises as soon as one row does. *)
Fixpoint for_each_row {A : Type} (f : A -> result A) (tbl : list A) : result (list A) :=
  match tbl with
  | [] => Ok []
  | r :: rest =>
      r' <-- f r ;;
      rest' <-- for_each_row f rest ;;
      Ok (r' :: rest')
  end.

(** [INTEGER]: 32-bit signed; arithmetic outside the range raises. *)
Definition int4_min : Z := - 2 ^ 31.
Definition int4_max : Z := 2 ^ 31 - 1.

Definition int4 (z : Z) : result Z :=
  if (int4_min <=? z) && (z <=? int4_max) then Ok z else Raise integer_out_of_range.

(** [VARCHAR(n)]: storing a string of more than [n] characters raises,
    unless the characters in excess are all spaces, which are then cut
    off.  A character is an [ascii]. *)
Fixpoint only_spaces (s : string) : bool :=
  match s with
  | EmptyString => true
  | String c rest => bool_decide (c = Ascii.Space) && only_spaces rest
  end.

Definition varchar (n : nat) (s : string) : result string :=
  if (String.length s <=? n)%nat then Ok s
  else if only_spaces (String.substring n (String.length s - n) s)
       then Ok (String.substring 0 n s)
       else Raise string_data_right_truncation.

(** The same for a nullable column: NULL is stored as it is. *)
Definition varchar_null (n : nat) (s : option string) : result (option string) :=
  match s with
  | Some v => match varchar n v with
              | Ok v' => Ok (Some v')
              | Raise e => Raise e
              end
  | None => Ok None
  end.

(** [SET column = value] on a [VARCHAR(n)] column.  A column that the
    statement leaves as it is keeps what is stored, which fits the
    column; a new value is stored as [VARCHAR(n)] stores it. *)
Definition assign (n : nat) (old new : string) : result string :=
  if bool_decide (new = old) then Ok old else varchar n new.

Definition assign_null (n : nat) (old new : option string)
  : result (option string) :=
  if bool_decide (new = old) then Ok old else varchar_null n new.

(** A nullable [INTEGER] column. *)
Definition int4_null (z : option Z) : result (option Z) :=
  match z with
  | Some v => match int4 v with
              | Ok v' => Ok (Some v')
              | Raise e => Raise e
              end
  | None => Ok None
  end.

Definition assign_int4 (old new : option Z) : result (option Z) :=
  if bool_decide (new = old) then Ok old else int4_null new.

(** The value of a [DECIMAL]/[NUMERIC] is taken in [Q].  A [DECIMAL(10,2)]
    column keeps two decimal places and at most eight digits before the
    point: a stored value is represented by its number of hundredths.
    Assigning to the column rounds half away from zero and raises when
    the rounded value does not fit. *)
Definition round_half_away (q : Q) : Z :=
  let n := Qnum q in
  let d := Z.pos (Qden q) in
  Z.sgn n * ((2 * Z.abs n + d) / (2 * d)).

Definition decimal_10_2_limit : Z := 10 ^ 10.

Definition decimal_10_2 (q : Q) : result Z :=
  let h := round_half_away (q * 100) in
  if Z.abs h <? decimal_10_2_limit then Ok h else Raise numeric_field_overflow.

Definition hundredths (h : Z) : Q := h # 100.

(** A [NUMERIC] value: the finite decimal [unscaled / 10 ^ dscale], with
    [dscale] digits after the point.  The special values [NaN] and
    [Infinity] are left out. *)
Record numeric : Type := {
  unscaled : Z;
  dscale : nat
}.

Definition pow10 (k : nat) : Q := inject_Z (10 ^ Z.of_nat k).

Definition numeric_value (x : numeric) : Q := inject_Z (unscaled x) / pow10 (dscale x).

(** An [INTEGER] cast to [NUMERIC], and a stored [DECIMAL(10,2)]. *)
Definition numeric_of_int (z : Z) : numeric := {| unscaled := z; dscale := 0 |}.

Definition numeric_of_decimal_10_2 (h : Z) : numeric :=
  {| unscaled := h; dscale := 2 |}.

(** [*] and [+] on [NUMERIC] are exact: the scale of a product is the sum
    of the scales, the scale of a sum the larger one. *)
Definition numeric_mul (x y : numeric) : numeric :=
  {| unscaled := unscaled x * unscaled y; dscale := dscale x + dscale y |}.

Definition numeric_add (x y : numeric) : numeric :=
  let s := Nat.max (dscale x) (dscale y) in
  {| unscaled := unscaled x * 10 ^ Z.of_nat (s - dscale x)
                 + unscaled y * 10 ^ Z.of_nat (s - dscale y);
     dscale := s |}.

(** The number of decimal digits of a positive integer. *)
Fixpoint decimal_digits_upto (fuel : nat) (m : Z) : Z :=
  match fuel with
  | O => 1
  | S fuel' => if m <? 10 then 1 else 1 + decimal_digits_upto fuel' (m / 10)
  end.

Definition decimal_digits (m : Z) : Z :=
  decimal_digits_upto (Z.to_nat (Z.log2 m)) m.

(** PostgreSQL keeps a [NUMERIC] in base 10000.  The weight of a value is
    the position of its first non-zero base-10000 digit (0 for the units)
    and comes with that digit; both are 0 for the value zero. *)
Definition weight_and_first_digit (x : numeric) : Z * Z :=
  let m := Z.abs (unscaled x) in
  if m =? 0 then (0, 0)
  else
    let weight := (decimal_digits m - 1 - Z.of_nat (dscale x)) / 4 in
    let e := Z.of_nat (dscale x) + 4 * weight in
    (weight, if 0 <=? e then m / 10 ^ e else m * 10 ^ (- e)).

(** [select_div_scale]: the scale of a quotient gives at least 16
    significant digits and is not less than either operand's scale, at
    most 1000. *)
Definition select_div_scale (var1 var2 : numeric) : nat :=
  let (weight1, firstdigit1) := weight_and_first_digit var1 in
  let (weight2, firstdigit2) := weight_and_first_digit var2 in
  let qweight :=
    weight1 - weight2 - (if firstdigit1 <=? firstdigit2 then 1 else 0) in
  let rscale := 16 - qweight * 4 in
  Z.to_nat
    (Z.min (Z.max (Z.max (Z.max rscale (Z.of_nat (dscale var1)))
                     (Z.of_nat (dscale var2))) 0)
       1000).

(** [/] on [NUMERIC]: the quotient rounded, half away from zero, to the
    selected scale. *)
Definition numeric_div (var1 var2 : numeric) : result numeric :=
  if unscaled var2 =? 0 then Raise division_by_zero
  else
    let rscale := select_div_scale var1 var2 in
    Ok {| unscaled :=
            round_half_away
              (numeric_value var1 / numeric_value var2 * pow10 rscale);
          dscale := rscale |}.

Definition uuid : Type := N.
Definition timestamptz : Type := Z.
Definition date_t : Type := Z.

(** What a statement reads from the server while it runs. *)
Record server : Type := {
  CURRENT_DATE : date_t;
  NOW : timestamptz;
  gen_random_uuid : uuid
}.

(** ** [workflow_stats] and [update_workflow_stats] *)

Module workflow_stats.

(** One row of [workflow_stats].  The counters are the [INTEGER] columns
    (the function below is their only writer and never writes NULL);
    [avg_processing_time_seconds] is the nullable [DECIMAL(10,2)] column,
    in hundredths of a second. *)
Record row : Type := {
  id : uuid;
  stage : string;
  date : date_t;
  items_processed : Z;
  avg_processing_time_seconds : option Z;
  success_count : Z;
  error_count : Z;
  created_at : timestamptz;
  updated_at : timestamptz
}.

Definition key (r : row) : string * date_t := (stage r, date r).

(** [WHERE stage = p_stage AND date = today] *)
Definition selected (p_stage : string) (today : date_t) (r : row) : bool :=
  bool_decide (stage r = p_stage) && bool_decide (date r = today).

(** [INSERT INTO workflow_stats]: the primary key refuses an [id] that is
    taken, and the [UNIQUE(stage, date)] constraint a second row with the
    same stage and date. *)
Definition insert (r : row) (tbl : list row) : result (list row) :=
  if bool_decide (id r ∈ map id tbl) || bool_decide (key r ∈ map key tbl)
  then Raise unique_violation
  else Ok (tbl ++ [r]).

End workflow_stats.

(** [CASE WHEN p_success THEN 1 ELSE 0 END].  A NULL [p_success] takes
    the [ELSE] branch of both [CASE]s, as [FALSE] does. *)
Definition case_success (p_success : bool) (a b : Z) : Z :=
  if p_success then a else b.

(** The average in the [SET] list of the [UPDATE] branch.  Every
    right-hand side of a [SET] list reads the row as it was before the
    statement: the [items_processed] inside the average is the count
    before [items_processed + 1] takes effect.  The arithmetic operators
    are strict, NULL in gives NULL out. *)
Definition new_average (r : workflow_stats.row)
    (p_processing_time_seconds : option numeric) : result (option Z) :=
  match p_processing_time_seconds with
  | Some duration =>
      n1 <-- int4 (workflow_stats.items_processed r - 1) ;;
      match workflow_stats.avg_processing_time_seconds r with
      | Some avg =>
          quotient <-- numeric_div
                         (numeric_add
                            (numeric_mul (numeric_of_decimal_10_2 avg)
                               (numeric_of_int n1))
                            duration)
                         (numeric_of_int (workflow_stats.items_processed r)) ;;
          a <-- decimal_10_2 (numeric_value quotient) ;;
          Ok (Some a)
      | None => Ok None
      end
  | None =>
      match workflow_stats.avg_processing_time_seconds r with
      | Some avg => a <-- decimal_10_2 (hundredths avg) ;; Ok (Some a)
      | None => Ok None
      end
  end.

(** The [SET] list of the [UPDATE] branch on one selected row. *)
Definition update_row (srv : server) (p_processing_time_seconds : option numeric)
    (p_success : bool) (r : workflow_stats.row) : result workflow_stats.row :=
  ip <-- int4 (workflow_stats.items_processed r + 1) ;;
  sc <-- int4 (workflow_stats.success_count r + case_success p_success 1 0) ;;
  ec <-- int4 (workflow_stats.error_count r + case_success p_success 0 1) ;;
  avg <-- new_average r p_processing_time_seconds ;;
  Ok {| workflow_stats.id := workflow_stats.id r;
        workflow_stats.stage := workflow_stats.stage r;
        workflow_stats.date := workflow_stats.date r;
        workflow_stats.items_processed := ip;
        workflow_stats.avg_processing_time_seconds := avg;
        workflow_stats.success_count := sc;
        workflow_stats.error_count := ec;
        workflow_stats.created_at := workflow_stats.created_at r;
        workflow_stats.updated_at := NOW srv |}.

(** The [VALUES] list of the [INSERT] branch, each value stored under its
    column's type: [p_stage] in [VARCHAR(50)], the duration in
    [DECIMAL(10,2)]. *)
Definition first_row (srv : server) (p_stage : string)
    (p_processing_time_seconds : option numeric) (p_success : bool)
  : result workflow_stats.row :=
  stage <-- varchar 50 p_stage ;;
  avg <-- match p_processing_time_seconds with
          | Some duration =>
              a <-- decimal_10_2 (numeric_value duration) ;; Ok (Some a)
          | None => Ok None
          end ;;
  Ok {| workflow_stats.id := gen_random_uuid srv;
        workflow_stats.stage := stage;
        workflow_stats.date := CURRENT_DATE srv;
        workflow_stats.items_processed := 1;
        workflow_stats.avg_processing_time_seconds := avg;
        workflow_stats.success_count := case_success p_success 1 0;
        workflow_stats.error_count := case_success p_success 0 1;
        workflow_stats.created_at := NOW srv;
        workflow_stats.updated_at := NOW srv |}.

(** [update_workflow_stats(p_stage, p_processing_time_seconds, p_success)]:
    [SELECT ... INTO current_stats], then [UPDATE] when [FOUND] and
    [INSERT] otherwise. *)
Definition update_workflow_stats (srv : server) (p_stage : string)
    (p_processing_time_seconds : option numeric) (p_success : bool)
    (tbl : list workflow_stats.row) : result (list workflow_stats.row) :=
  let today := CURRENT_DATE srv in
  match find (workflow_stats.selected p_stage today) tbl with
  | Some current_stats =>
      for_each_row
        (fun r => if workflow_stats.selected p_stage today r
                  then update_row srv p_processing_time_seconds p_success r
                  else Ok r)
        tbl
  | None =>
      r <-- first_row srv p_stage p_processing_time_seconds p_success ;;
      workflow_stats.insert r tbl
  end.

(** Successive calls, each committed before the next starts. *)
Record stats_call : Type := {
  call_server : server;
  call_stage : string;
  call_seconds : option numeric;
  call_success : bool
}.

Definition record_stats (tbl : list workflow_stats.row) (c : stats_call)
  : list workflow_stats.row :=
  commit tbl
    (update_workflow_stats (call_server c) (call_stage c) (call_seconds c)
       (call_success c) tbl).

Definition record_all (calls : list stats_call) (tbl : list workflow_stats.row)
  : list workflow_stats.row :=
  fold_left record_stats calls tbl.

(** Today's row of a stage, as [SELECT * FROM workflow_stats WHERE stage =
    ... AND date = ...] finds it. *)
Definition stats_of (p_stage : string) (today : date_t)
    (tbl : list workflow_stats.row) : option workflow_stats.row :=
  find (workflow_stats.selected p_stage today) tbl.

(** ** [automations], [workflow_events] and the triggers *)

(** [JSONB] documents, as far as the schema builds them. *)
#[warnings="-register-all"]
Inductive jsonb : Type :=
  | json_null
  | json_string (s : string)
  | json_timestamp (t : timestamptz)
  | json_object (fields : list (string * jsonb)).

Definition jsonb_build_object (fields : list (string * jsonb)) : jsonb :=
  json_object fields.

(** A nullable timestamp as a field of [jsonb_build_object]: NULL becomes
    the JSON null. *)
Definition to_jsonb (t : option timestamptz) : jsonb :=
  match t with
  | Some v => json_timestamp v
  | None => json_null
  end.

Module automations.

(** One row of [automations] ([supabase_schema.sql] plus the columns
    [workflow_schema.sql] adds).  The primary key [id] is the key under
    which the table holds the row.  [title] and [stage] are [NOT NULL];
    every other column is nullable, also those with a [DEFAULT]
    ([created_at], [updated_at], [retry_count], [classification_status]). *)
Record row : Type := {
  title : string;
  stage : string;
  file_name : option string;
  file_url : option string;
  blob_name : option string;
  created_at : option timestamptz;
  updated_at : option timestamptz;
  processing_started_at : option timestamptz;
  processing_completed_at : option timestamptz;
  retry_count : option Z;
  last_error : option string;
  processing_metadata : option jsonb;
  assigned_worker : option string;
  lob : option string;
  process : option string;
  classification_status : option string;
  case_parameters : option jsonb
}.

Definition with_updated_at (t : timestamptz) (r : row) : row :=
  {| title := title r; stage := stage r; file_name := file_name r;
     file_url := file_url r; blob_name := blob_name r;
     created_at := created_at r; updated_at := Some t;
     processing_started_at := processing_started_at r;
     processing_completed_at := processing_completed_at r;
     retry_count := retry_count r; last_error := last_error r;
     processing_metadata := processing_metadata r;
     assigned_worker := assigned_worker r; lob := lob r;
     process := process r;
     classification_status := classification_status r;
     case_parameters := case_parameters r |}.

Definition with_stage (s : string) (r : row) : row :=
  {| title := title r; stage := s; file_name := file_name r;
     file_url := file_url r; blob_name := blob_name r;
     created_at := created_at r; updated_at := updated_at r;
     processing_started_at := processing_started_at r;
     processing_completed_at := processing_completed_at r;
     retry_count := retry_count r; last_error := last_error r;
     processing_metadata := processing_metadata r;
     assigned_worker := assigned_worker r; lob := lob r;
     process := process r;
     classification_status := classification_status r;
     case_parameters := case_parameters r |}.

(** The row an [INSERT] stores: every value as its column's type stores
    it, [VARCHAR(200)] for [title], [VARCHAR(50)] for [stage] and so on. *)
Definition inserted (r : row) : result row :=
  title' <-- varchar 200 (title r) ;;
  stage' <-- varchar 50 (stage r) ;;
  file_name' <-- varchar_null 255 (file_name r) ;;
  file_url' <-- varchar_null 1000 (file_url r) ;;
  blob_name' <-- varchar_null 255 (blob_name r) ;;
  retry_count' <-- int4_null (retry_count r) ;;
  assigned_worker' <-- varchar_null 100 (assigned_worker r) ;;
  lob' <-- varchar_null 255 (lob r) ;;
  process' <-- varchar_null 255 (process r) ;;
  classification_status' <-- varchar_null 50 (classification_status r) ;;
  Ok {| title := title'; stage := stage'; file_name := file_name';
        file_url := file_url'; blob_name := blob_name';
        created_at := created_at r; updated_at := updated_at r;
        processing_started_at := processing_started_at r;
        processing_completed_at := processing_completed_at r;
        retry_count := retry_count'; last_error := last_error r;
        processing_metadata := processing_metadata r;
        assigned_worker := assigned_worker'; lob := lob';
        process := process';
        classification_status := classification_status';
        case_parameters := case_parameters r |}.

(** The row an [UPDATE] stores in place of [OLD] when its [SET] list
    evaluates to [NEW]. *)
Definition updated (OLD NEW : row) : result row :=
  title' <-- assign 200 (title OLD) (title NEW) ;;
  stage' <-- assign 50 (stage OLD) (stage NEW) ;;
  file_name' <-- assign_null 255 (file_name OLD) (file_name NEW) ;;
  file_url' <-- assign_null 1000 (file_url OLD) (file_url NEW) ;;
  blob_name' <-- assign_null 255 (blob_name OLD) (blob_name NEW) ;;
  retry_count' <-- assign_int4 (retry_count OLD) (retry_count NEW) ;;
  assigned_worker' <-- assign_null 100 (assigned_worker OLD) (assigned_worker NEW) ;;
  lob' <-- assign_null 255 (lob OLD) (lob NEW) ;;
  process' <-- assign_null 255 (process OLD) (process NEW) ;;
  classification_status' <-- assign_null 50 (classification_status OLD)
                               (classification_status NEW) ;;
  Ok {| title := title'; stage := stage'; file_name := file_name';
        file_url := file_url'; blob_name := blob_name';
        created_at := created_at NEW; updated_at := updated_at NEW;
        processing_started_at := processing_started_at NEW;
        processing_completed_at := processing_completed_at NEW;
        retry_count := retry_count'; last_error := last_error NEW;
        processing_metadata := processing_metadata NEW;
        assigned_worker := assigned_worker'; lob := lob';
        process := process';
        classification_status := classification_status';
        case_parameters := case_parameters NEW |}.

End automations.

Module workflow_events.

(** One row of [workflow_events].  [created_at] is filled by its
    [DEFAULT NOW()]: no statement of the schema writes the column. *)
Record row : Type := {
  id : uuid;
  automation_id : uuid;
  event_type : string;
  from_stage : option string;
  to_stage : option string;
  worker_id : option string;
  metadata : option jsonb;
  error_message : option string;
  created_at : timestamptz
}.

End workflow_events.

Record database : Type := {
  automations_table : gmap uuid automations.row;
  workflow_events_table : list workflow_events.row;
  workflow_stats_table : list workflow_stats.row
}.

Definition with_automations (a : gmap uuid automations.row) (d : database)
  : database :=
  {| automations_table := a;
     workflow_events_table := workflow_events_table d;
     workflow_stats_table := workflow_stats_table d |}.

Definition with_workflow_events (e : list workflow_events.row) (d : database)
  : database :=
  {| automations_table := automations_table d;
     workflow_events_table := e;
     workflow_stats_table := workflow_stats_table d |}.

Definition with_workflow_stats (s : list workflow_stats.row) (d : database)
  : database :=
  {| automations_table := automations_table d;
     workflow_events_table := workflow_events_table d;
     workflow_stats_table := s |}.

(** [log_workflow_event]: one [INSERT INTO workflow_events ... RETURNING
    id].  The lengths in the parameter list ([VARCHAR(50)],
    [VARCHAR(100)]) bind nothing, a function's parameters carry no
    length; the columns do: the values are stored as [VARCHAR(50)] and
    [VARCHAR(100)] store them.  Then the primary key refuses a generated
    [id] that is taken, and the foreign key on [automation_id] refuses an
    event for an item that is not in [automations].  [p_automation_id]
    and [p_event_type] are the two arguments without a default, and their
    columns are [NOT NULL]: the callers modelled here pass a value. *)
Definition log_workflow_event (srv : server) (p_automation_id : uuid)
    (p_event_type : string) (p_from_stage p_to_stage p_worker_id : option string)
    (p_metadata : option jsonb) (p_error_message : option string)
    (d : database) : result (uuid * database) :=
  event_type <-- varchar 50 p_event_type ;;
  from_stage <-- varchar_null 50 p_from_stage ;;
  to_stage <-- varchar_null 50 p_to_stage ;;
  worker_id <-- varchar_null 100 p_worker_id ;;
  let event_id := gen_random_uuid srv in
  if bool_decide (event_id ∈ map workflow_events.id (workflow_events_table d))
  then Raise unique_violation
  else
    match automations_table d !! p_automation_id with
    | None => Raise foreign_key_violation
    | Some _ =>
        let e := {| workflow_events.id := event_id;
                    workflow_events.automation_id := p_automation_id;
                    workflow_events.event_type := event_type;
                    workflow_events.from_stage := from_stage;
                    workflow_events.to_stage := to_stage;
                    workflow_events.worker_id := worker_id;
                    workflow_events.metadata := p_metadata;
                    workflow_events.error_message := p_error_message;
                    workflow_events.created_at := NOW srv |} in
        Ok (event_id, with_workflow_events (workflow_events_table d ++ [e]) d)
    end.

(** [update_updated_at_column], the [BEFORE UPDATE] row trigger. *)
Definition update_updated_at_column (srv : server) (NEW : automations.row)
  : automations.row :=
  automations.with_updated_at (NOW srv) NEW.

(** [track_stage_changes], the [AFTER UPDATE] row trigger.  [stage] is
    [NOT NULL], so [IS DISTINCT FROM] is plain inequality. *)
Definition track_stage_changes (srv : server) (NEW_id : uuid)
    (OLD NEW : automations.row) (d : database) : result database :=
  if bool_decide (automations.stage OLD ≠ automations.stage NEW) then
    logged <-- log_workflow_event srv NEW_id "stage_changed"
                 (Some (automations.stage OLD)) (Some (automations.stage NEW))
                 (automations.assigned_worker NEW)
                 (Some (jsonb_build_object
                          [("previous_updated_at",
                            to_jsonb (automations.updated_at OLD));
                           ("new_updated_at",
                            to_jsonb (automations.updated_at NEW))]))
                 None d ;;
    Ok logged.2
  else Ok d.

(** [UPDATE automations SET ... WHERE id = p_id], the statement of the
    API's PATCH and of the workers, which address one item by its primary
    key: the [SET] list is a function of the old row and its values are
    brought to the columns' types; the [BEFORE] trigger stamps the new
    row, the row is written, then the [AFTER] trigger runs.  No row with
    that id: zero rows updated, no trigger fires. *)
Definition update_automations (srv : server) (p_id : uuid)
    (set : automations.row -> automations.row) (d : database)
  : result database :=
  match automations_table d !! p_id with
  | None => Ok d
  | Some OLD =>
      assigned <-- automations.updated OLD (set OLD) ;;
      let NEW := update_updated_at_column srv assigned in
      track_stage_changes srv p_id OLD NEW
        (with_automations (<[p_id := NEW]> (automations_table d)) d)
  end.

(** [DELETE FROM automations WHERE id = p_id], the CRUD deletion behind
    the card's delete button: [ON DELETE CASCADE] takes the item's events
    with it. *)
Definition delete_automations (p_id : uuid) (d : database) : database :=
  {| automations_table := delete p_id (automations_table d);
     workflow_events_table :=
       filter (fun e => workflow_events.automation_id e ≠ p_id)
         (workflow_events_table d);
     workflow_stats_table := workflow_stats_table d |}.

(** The position of a stage in the pipeline, as the [ORDER BY CASE] of
    [workflow_overview] numbers it. *)
Definition stage_order (stage : string) : Z :=
  if bool_decide (stage = "New") then 1
  else if bool_decide (stage = "Classification") then 2
  else if bool_decide (stage = "Data Extraction") then 3
  else if bool_decide (stage = "Processing") then 4
  else if bool_decide (stage = "Done") then 5
  else 6.

(** ** The view [recent_workflow_activity] *)

Module activity.

(** One row of the view, under its column names. *)
Record row : Type := {
  created_at : timestamptz;
  event_type : string;
  from_stage : option string;
  to_stage : option string;
  worker_id : option string;
  automation_title : string;
  automation_id : uuid;
  error_message : option string
}.

End activity.

(** [workflow_events we JOIN automations a ON we.automation_id = a.id] *)
Definition joined (d : database) : list activity.row :=
  omap (fun we =>
          a ← automations_table d !! workflow_events.automation_id we;
          Some {| activity.created_at := workflow_events.created_at we;
                  activity.event_type := workflow_events.event_type we;
                  activity.from_stage := workflow_events.from_stage we;
                  activity.to_stage := workflow_events.to_stage we;
                  activity.worker_id := workflow_events.worker_id we;
                  activity.automation_title := automations.title a;
                  activity.automation_id := workflow_events.automation_id we;
                  activity.error_message := workflow_events.error_message we |})
       (workflow_events_table d).

(** [ORDER BY we.created_at DESC]: newer before older.  SQL leaves the
    order of rows with equal [created_at] open; the sort below fixes one. *)
Definition newer_first (x y : activity.row) : Prop :=
  activity.created_at y ≤ activity.created_at x.

#[global] Instance newer_first_dec (x y : activity.row) : Decision (newer_first x y).
Proof. unfold newer_first. apply _. Defined.

(** [LIMIT 100] *)
Definition recent_limit : nat := 100.

Definition recent_workflow_activity (d : database) : list activity.row :=
  take recent_limit (merge_sort newer_first (joined d)).

(** ** The item store of the stage workers *)

Module ItemStore.

(** Modelled from the spec: the conditional update behind every item-store
    primitive of [workflow_engine.py], which is not among the sources: a
    compare-and-set, [UPDATE automations SET ... WHERE id = p_id AND
    <expected>], reporting whether it wrote the row. *)
Definition compare_and_set (srv : server) (p_id : uuid)
    (expected : automations.row -> bool)
    (set : automations.row -> automations.row) (d : database)
  : result (bool * database) :=
  match automations_table d !! p_id with
  | Some r =>
      if expected r then
        d' <-- update_automations srv p_id set d ;;
        Ok (true, d')
      else Ok (false, d)
  | None => Ok (false, d)
  end.

(** Modelled from the spec: an item is claimable in a stage when it is in
    that stage and no worker holds it ([assigned_worker] is NULL). *)
Definition unclaimed_in (stage : string) (r : automations.row) : bool :=
  bool_decide (automations.stage r = stage)
  && bool_decide (automations.assigned_worker r = None).

(** Modelled from the spec: creation-time order as [ORDER BY created_at]
    has it, ascending, an item without a creation time after those that
    have one. *)
Definition created_before (x y : option timestamptz) : Prop :=
  match x, y with
  | Some tx, Some ty => tx < ty
  | Some _, None => True
  | None, _ => False
  end.

#[global] Instance created_before_dec x y : Decision (created_before x y).
Proof. destruct x, y; simpl; apply _. Defined.

(** Modelled from the spec: strict creation-time FIFO, ties broken by id. *)
Definition older_first (x y : uuid * automations.row) : Prop :=
  created_before (automations.created_at x.2) (automations.created_at y.2)
  ∨ (automations.created_at x.2 = automations.created_at y.2 ∧ (x.1 ≤ y.1)%N).

#[global] Instance older_first_dec x y : Decision (older_first x y).
Proof. unfold older_first. apply _. Defined.

(** Modelled from the spec: the queue of a stage, its unclaimed items in
    claim order. *)
Definition queue (stage : string) (d : database) : list (uuid * automations.row) :=
  merge_sort older_first
    (filter (fun ir => unclaimed_in stage ir.2 = true)
       (map_to_list (automations_table d))).

(** Modelled from the spec: what a claim writes, [assigned_worker] and
    [processing_started_at] in one statement. *)
Definition claim_set (workerId : string) (now : timestamptz)
    (r : automations.row) : automations.row :=
  {| automations.title := automations.title r;
     automations.stage := automations.stage r;
     automations.file_name := automations.file_name r;
     automations.file_url := automations.file_url r;
     automations.blob_name := automations.blob_name r;
     automations.created_at := automations.created_at r;
     automations.updated_at := automations.updated_at r;
     automations.processing_started_at := Some now;
     automations.processing_completed_at := automations.processing_completed_at r;
     automations.retry_count := automations.retry_count r;
     automations.last_error := automations.last_error r;
     automations.processing_metadata := automations.processing_metadata r;
     automations.assigned_worker := Some workerId;
     automations.lob := automations.lob r;
     automations.process := automations.process r;
     automations.classification_status := automations.classification_status r;
     automations.case_parameters := automations.case_parameters r |}.

(** Modelled from the spec: [claimNext(stage, workerId)] of
    [workflow_engine.py] (absent): select the head of the stage's queue
    and claim it in the same atomic step; none on an empty queue. *)
Definition claimNext (srv : server) (stage workerId : string) (d : database)
  : result (option uuid * database) :=
  match queue stage d with
  | [] => Ok (None, d)
  | (i, _) :: _ =>
      claimed <-- compare_and_set srv i (unclaimed_in stage)
                    (claim_set workerId (NOW srv)) d ;;
      Ok (if claimed.1 then Some i else None, claimed.2)
  end.

(** Modelled from the spec: the partial field updates a stage handler
    returns, merged into the item on a transition. *)
Record resultFields : Type := {
  rf_lob : option string;
  rf_process : option string;
  rf_classification_status : option string;
  rf_case_parameters : option jsonb;
  rf_processing_metadata : option jsonb
}.

(** Modelled from the spec: merging one result field, a field the handler
    did not return keeps its value. *)
Definition merged {A : Type} (new old : option A) : option A :=
  match new with
  | Some v => Some v
  | None => old
  end.

(** Modelled from the spec: what a transition writes: the new stage, the
    merged result fields, [assigned_worker] and [processing_started_at]
    cleared, [processing_completed_at] set. *)
Definition transition_set (toStage : string) (fields : resultFields)
    (now : timestamptz) (r : automations.row) : automations.row :=
  {| automations.title := automations.title r;
     automations.stage := toStage;
     automations.file_name := automations.file_name r;
     automations.file_url := automations.file_url r;
     automations.blob_name := automations.blob_name r;
     automations.created_at := automations.created_at r;
     automations.updated_at := automations.updated_at r;
     automations.processing_started_at := None;
     automations.processing_completed_at := Some now;
     automations.retry_count := automations.retry_count r;
     automations.last_error := automations.last_error r;
     automations.processing_metadata :=
       merged (rf_processing_metadata fields) (automations.processing_metadata r);
     automations.assigned_worker := None;
     automations.lob := merged (rf_lob fields) (automations.lob r);
     automations.process := merged (rf_process fields) (automations.process r);
     automations.classification_status :=
       merged (rf_classification_status fields) (automations.classification_status r);
     automations.case_parameters :=
       merged (rf_case_parameters fields) (automations.case_parameters r) |}.

(** Modelled from the spec: what a failure record writes: [retry_count]
    incremented ([retry_count + 1], which is NULL for a NULL count),
    [last_error] set, [assigned_worker] cleared. *)
Definition failure_set (errorText : string) (retries : option Z)
    (r : automations.row) : automations.row :=
  {| automations.title := automations.title r;
     automations.stage := automations.stage r;
     automations.file_name := automations.file_name r;
     automations.file_url := automations.file_url r;
     automations.blob_name := automations.blob_name r;
     automations.created_at := automations.created_at r;
     automations.updated_at := automations.updated_at r;
     automations.processing_started_at := automations.processing_started_at r;
     automations.processing_completed_at := automations.processing_completed_at r;
     automations.retry_count := retries;
     automations.last_error := Some errorText;
     automations.processing_metadata := automations.processing_metadata r;
     automations.assigned_worker := None;
     automations.lob := automations.lob r;
     automations.process := automations.process r;
     automations.classification_status := automations.classification_status r;
     automations.case_parameters := automations.case_parameters r |}.

(** Modelled from the spec: the outcome of an optimistic primitive. *)
Inductive outcome : Type :=
  | Done
  | StaleStateError.

(** Modelled from the spec: the expectation of an optimistic primitive,
    the item is still in the stage and still held by the worker. *)
Definition held_by (stage workerId : string) (r : automations.row) : bool :=
  bool_decide (automations.stage r = stage)
  && bool_decide (automations.assigned_worker r = Some workerId).

(** Modelled from the spec: [transition(id, expectedFromStage, toStage,
    workerId, resultFields)] of [workflow_engine.py] (absent).  The
    [stage_changed] event is the one the [AFTER UPDATE] trigger appends. *)
Definition transition (srv : server) (p_id : uuid)
    (expectedFromStage toStage workerId : string) (fields : resultFields)
    (d : database) : result (outcome * database) :=
  written <-- compare_and_set srv p_id (held_by expectedFromStage workerId)
                (transition_set toStage fields (NOW srv)) d ;;
  Ok (if written.1 then Done else StaleStateError, written.2).

(** Modelled from the spec: [recordFailure(id, workerId, errorText)] of
    [workflow_engine.py] (absent): the item stays in its stage and an
    [error_occurred] event is appended. *)
Definition recordFailure (srv : server) (p_id : uuid)
    (workerId errorText : string) (d : database) : result (outcome * database) :=
  match automations_table d !! p_id with
  | Some r =>
      if bool_decide (automations.assigned_worker r = Some workerId) then
        retries <-- match automations.retry_count r with
                    | Some n => n1 <-- int4 (n + 1) ;; Ok (Some n1)
                    | None => Ok None
                    end ;;
        d1 <-- update_automations srv p_id (failure_set errorText retries) d ;;
        logged <-- log_workflow_event srv p_id "error_occurred" None None
                     (Some workerId) None (Some errorText) d1 ;;
        Ok (Done, logged.2)
      else Ok (StaleStateError, d)
  | None => Ok (StaleStateError, d)
  end.

(** Modelled from the spec: what the administrative override writes; the
    trigger logs the change with [worker_id = operatorTag]. *)
Definition override_set (toStage operatorTag : string)
    (r : automations.row) : automations.row :=
  {| automations.title := automations.title r;
     automations.stage := toStage;
     automations.file_name := automations.file_name r;
     automations.file_url := automations.file_url r;
     automations.blob_name := automations.blob_name r;
     automations.created_at := automations.created_at r;
     automations.updated_at := automations.updated_at r;
     automations.processing_started_at := automations.processing_started_at r;
     automations.processing_completed_at := automations.processing_completed_at r;
     automations.retry_count := automations.retry_count r;
     automations.last_error := automations.last_error r;
     automations.processing_metadata := automations.processing_metadata r;
     automations.assigned_worker := Some operatorTag;
     automations.lob := automations.lob r;
     automations.process := automations.process r;
     automations.classification_status := automations.classification_status r;
     automations.case_parameters := automations.case_parameters r |}.

(** Modelled from the spec: [manualTransition(id, toStage, operatorTag)]
    of [workflow_engine.py] (absent): the administrative override, still
    forward only. *)
Definition manualTransition (srv : server) (p_id : uuid)
    (toStage operatorTag : string) (d : database) : result (outcome * database) :=
  written <-- compare_and_set srv p_id
                (fun r => bool_decide
                            (stage_order (automations.stage r) < stage_order toStage))
                (override_set toStage operatorTag) d ;;
  Ok (if written.1 then Done else StaleStateError, written.2).

(** Modelled from the spec: the core operations on items, the four
    primitives above and the statistics record that follows a commit. *)
Inductive operation : Type :=
  | op_claimNext (stage workerId : string)
  | op_transition (p_id : uuid) (expectedFromStage toStage workerId : string)
      (fields : resultFields)
  | op_recordFailure (p_id : uuid) (workerId errorText : string)
  | op_manualTransition (p_id : uuid) (toStage operatorTag : string)
  | op_recordStats (stage : string) (seconds : option numeric) (success : bool).

(** Modelled from the spec: running one core operation as one transaction. *)
Definition run (srv : server) (op : operation) (d : database) : result database :=
  match op with
  | op_claimNext stage workerId =>
      r <-- claimNext srv stage workerId d ;; Ok r.2
  | op_transition p_id from to workerId fields =>
      r <-- transition srv p_id from to workerId fields d ;; Ok r.2
  | op_recordFailure p_id workerId errorText =>
      r <-- recordFailure srv p_id workerId errorText d ;; Ok r.2
  | op_manualTransition p_id to operatorTag =>
      r <-- manualTransition srv p_id to operatorTag d ;; Ok r.2
  | op_recordStats stage seconds success =>
      s <-- update_workflow_stats srv stage seconds success
              (workflow_stats_table d) ;;
      Ok (with_workflow_stats s d)
  end.

End ItemStore.

(** ** Concurrent claim attempts on one item *)

Module ClaimRace.

(** Modelled from the spec: where a worker's claim attempt on the item
    stands.  The spec allows the claim to be "a single underlying
    transaction or equivalent compare-and-set on stage+assigned_worker";
    the attempt here is the weaker of the two, a read of the item followed
    by a separate compare-and-set, so that other workers can run between
    the two. *)
Inductive attempt : Type :=
  | Selecting
  | Selected
  | Claimed
  | AlreadyClaimed.

#[global] Instance attempt_eq_dec : EqDecision attempt.
Proof. solve_decision. Defined.









End ClaimRace.

(** ** What the properties speak of *)

(** Every processed item is counted once, as a success or as an error. *)
Definition balanced (r : workflow_stats.row) : Prop :=
  workflow_stats.items_processed r
  = workflow_stats.success_count r + workflow_stats.error_count r.

(** At most one row for a stage and a date. *)
Definition one_row_per_day (tbl : list workflow_stats.row) : Prop :=
  NoDup (map workflow_stats.key tbl).

(** A row whose values fit the column types. *)
Definition well_typed (r : workflow_stats.row) : Prop :=
  int4_min <= workflow_stats.items_processed r <= int4_max
  /\ int4_min <= workflow_stats.success_count r <= int4_max
  /\ int4_min <= workflow_stats.error_count r <= int4_max
  /\ match workflow_stats.avg_processing_time_seconds r with
     | Some avg => Z.abs avg < decimal_10_2_limit
     | None => True
     end.

(** What the [UPDATE] branch writes for a failure without a duration. *)
Definition failure_counted (srv : server) (r : workflow_stats.row)
  : workflow_stats.row :=
  {| workflow_stats.id := workflow_stats.id r;
     workflow_stats.stage := workflow_stats.stage r;
     workflow_stats.date := workflow_stats.date r;
     workflow_stats.items_processed := workflow_stats.items_processed r + 1;
     workflow_stats.avg_processing_time_seconds :=
       workflow_stats.avg_processing_time_seconds r;
     workflow_stats.success_count := workflow_stats.success_count r;
     workflow_stats.error_count := workflow_stats.error_count r + 1;
     workflow_stats.created_at := workflow_stats.created_at r;
     workflow_stats.updated_at := NOW srv |}.

(** The stage an event moves an item to is later in the pipeline than the
    one it moves it from. *)
Definition forward_event (e : workflow_events.row) : Prop :=
  workflow_events.event_type e = "stage_changed" ->
  exists from to,
    workflow_events.from_stage e = Some from
    /\ workflow_events.to_stage e = Some to
    /\ stage_order from < stage_order to.

(** An update that moves an item forward or leaves its stage. *)
Definition forward_move (OLD NEW : automations.row) : Prop :=
  automations.stage NEW = automations.stage OLD
  \/ stage_order (automations.stage OLD) < stage_order (automations.stage NEW).

(** A nullable value that fits [VARCHAR(n)]. *)
Definition fits (n : nat) (s : option string) : Prop :=
  match s with
  | Some v => (String.length v <= n)%nat
  | None => True
  end.

(** A row as [automations] holds it: every value fits its column. *)
Definition stored (r : automations.row) : Prop :=
  (String.length (automations.title r) <= 200)%nat
  /\ (String.length (automations.stage r) <= 50)%nat
  /\ fits 255 (automations.file_name r)
  /\ fits 1000 (automations.file_url r)
  /\ fits 255 (automations.blob_name r)
  /\ match automations.retry_count r with
     | Some retries => int4_min <= retries <= int4_max
     | None => True
     end
  /\ fits 100 (automations.assigned_worker r)
  /\ fits 255 (automations.lob r)
  /\ fits 255 (automations.process r)
  /\ fits 50 (automations.classification_status r).

(** Every row of [automations] is one the table can hold. *)
Definition all_stored (d : database) : Prop :=
  forall i r, automations_table d !! i = Some r -> stored r.

(** From [d] to [d']: the events written so far are still there,
    unchanged and in place, and the same items exist. *)
Definition only_appends (d d' : database) : Prop :=
  workflow_events_table d `prefix_of` workflow_events_table d'
  /\ dom (automations_table d') = dom (automations_table d).

(** ** Scenarios *)

(** A server on day 20000, at time [t], about to hand out [u]. *)
Definition day1 (t : timestamptz) (u : uuid) : server :=
  {| CURRENT_DATE := 20000; NOW := t; gen_random_uuid := u |}.

(** One success of ten seconds recorded for Classification on day 20000. *)
Definition one_success : list workflow_stats.row :=
  [ {| workflow_stats.id := 1%N; workflow_stats.stage := "Classification";
       workflow_stats.date := 20000; workflow_stats.items_processed := 1;
       workflow_stats.avg_processing_time_seconds := Some 1000;
       workflow_stats.success_count := 1; workflow_stats.error_count := 0;
       workflow_stats.created_at := 100; workflow_stats.updated_at := 100 |} ].


(** Seven successes with an average of zero, and the table after an
    eighth success of 14000000.034999999999 seconds: the average stored
    is 2000000.01. *)
Definition seven_items : list workflow_stats.row :=
  [ {| workflow_stats.id := 1%N; workflow_stats.stage := "Classification";
       workflow_stats.date := 20000; workflow_stats.items_processed := 7;
       workflow_stats.avg_processing_time_seconds := Some 0;
       workflow_stats.success_count := 7; workflow_stats.error_count := 0;
       workflow_stats.created_at := 100; workflow_stats.updated_at := 100 |} ].

Definition seven_items_more : list workflow_stats.row :=
  [ {| workflow_stats.id := 1%N; workflow_stats.stage := "Classification";
       workflow_stats.date := 20000; workflow_stats.items_processed := 8;
       workflow_stats.avg_processing_time_seconds := Some 200000001;
       workflow_stats.success_count := 8; workflow_stats.error_count := 0;
       workflow_stats.created_at := 100; workflow_stats.updated_at := 200 |} ].



(** One failure without a measured duration, the first event of the day. *)
Definition one_failure : list workflow_stats.row :=
  [ {| workflow_stats.id := 1%N; workflow_stats.stage := "Classification";
       workflow_stats.date := 20000; workflow_stats.items_processed := 1;
       workflow_stats.avg_processing_time_seconds := None;
       workflow_stats.success_count := 0; workflow_stats.error_count := 1;
       workflow_stats.created_at := 100; workflow_stats.updated_at := 100 |} ].

(** The specification's scenario: two successful completions of the same
    stage on the same day, of 10 and of 20 seconds. *)
Definition two_successes : list stats_call :=
  [ {| call_server := day1 100 1%N; call_stage := "Classification";
       call_seconds := Some (numeric_of_int 10); call_success := true |};
    {| call_server := day1 200 2%N; call_stage := "Classification";
       call_seconds := Some (numeric_of_int 20); call_success := true |} ].

(** A finished item, held by no worker. *)
Definition invoice : automations.row :=
  {| automations.title := "Invoice-A";
     automations.stage := "Done";
     automations.file_name := Some "invoice-a.pdf";
     automations.file_url := None;
     automations.blob_name := None;
     automations.created_at := Some 50;
     automations.updated_at := Some 250;
     automations.processing_started_at := None;
     automations.processing_completed_at := Some 250;
     automations.retry_count := Some 0;
     automations.last_error := None;
     automations.processing_metadata := None;
     automations.assigned_worker := None;
     automations.lob := Some "Auto";
     automations.process := None;
     automations.classification_status := Some "classified";
     automations.case_parameters := None |}.

Definition done_db : database :=
  {| automations_table := {[ 7%N := invoice ]};
     workflow_events_table := [];
     workflow_stats_table := [] |}.

(** The finished item without its timestamps, as an [INSERT] that
    names [created_at] and [updated_at] with NULL stores it. *)
Definition undated_db : database :=
  with_automations
    {[ 7%N := {| automations.title := "Invoice-A";
                 automations.stage := "Done";
                 automations.file_name := Some "invoice-a.pdf";
                 automations.file_url := None;
                 automations.blob_name := None;
                 automations.created_at := None;
                 automations.updated_at := None;
                 automations.processing_started_at := None;
                 automations.processing_completed_at := Some 250;
                 automations.retry_count := None;
                 automations.last_error := None;
                 automations.processing_metadata := None;
                 automations.assigned_worker := None;
                 automations.lob := Some "Auto";
                 automations.process := None;
                 automations.classification_status := Some "classified";
                 automations.case_parameters := None |} ]}
    done_db.

(** The same item one stage earlier, in Processing. *)
Definition processing_db : database :=
  with_automations {[ 7%N := automations.with_stage "Processing" invoice ]} done_db.







(** ** Statements against the schema *)

(** The row of [INSERT INTO automations (title) VALUES (...)], every other
    column at its [DEFAULT]. *)
Definition new_automation (srv : server) (title : string) : automations.row :=
  {| automations.title := title;
     automations.stage := "New";
     automations.file_name := None;
     automations.file_url := None;
     automations.blob_name := None;
     automations.created_at := Some (NOW srv);
     automations.updated_at := Some (NOW srv);
     automations.processing_started_at := None;
     automations.processing_completed_at := None;
     automations.retry_count := Some 0;
     automations.last_error := None;
     automations.processing_metadata := None;
     automations.assigned_worker := None;
     automations.lob := None;
     automations.process := None;
     automations.classification_status := Some "pending";
     automations.case_parameters := None |}.

(** [INSERT INTO automations ... RETURNING id]: the row as the statement
    and the defaults fill it, its values brought to the columns' types,
    under the [gen_random_uuid()] of its [id] column; the primary key
    refuses an id that is taken.  The schema has no [INSERT] trigger. *)
Definition insert_automations (srv : server) (r : automations.row) (d : database)
  : result (uuid * database) :=
  stored <-- automations.inserted r ;;
  let new_id := gen_random_uuid srv in
  match automations_table d !! new_id with
  | Some _ => Raise unique_violation
  | None =>
      Ok (new_id, with_automations (<[new_id := stored]> (automations_table d)) d)
  end.

(** The statements a client of the schema issues. *)
Inductive statement : Type :=
  | INSERT_automations (r : automations.row)
  | UPDATE_automations (p_id : uuid) (set : automations.row -> automations.row)
  | DELETE_automations (p_id : uuid)
  | SELECT_log_workflow_event (p_automation_id : uuid) (p_event_type : string)
      (p_from_stage p_to_stage p_worker_id : option string)
      (p_metadata : option jsonb) (p_error_message : option string)
  | SELECT_update_workflow_stats (p_stage : string)
      (p_processing_time_seconds : option numeric) (p_success : bool).

Definition run_statement (srv : server) (stmt : statement) (d : database)
  : result database :=
  match stmt with
  | INSERT_automations r =>
      inserted <-- insert_automations srv r d ;; Ok inserted.2
  | UPDATE_automations p_id set => update_automations srv p_id set d
  | DELETE_automations p_id => Ok (delete_automations p_id d)
  | SELECT_log_workflow_event p_id type from to worker meta err =>
      logged <-- log_workflow_event srv p_id type from to worker meta err d ;;
      Ok logged.2
  | SELECT_update_workflow_stats p_stage seconds success =>
      s <-- update_workflow_stats srv p_stage seconds success
              (workflow_stats_table d) ;;
      Ok (with_workflow_stats s d)
  end.

(** One statement after the other, each its own transaction. *)
Definition execute (d : database) (x : server * statement) : database :=
  commit d (run_statement x.1 x.2 d).

Definition execute_all (history : list (server * statement)) (d : database)
  : database :=
  fold_left execute history d.

Definition empty_database : database :=
  {| automations_table := ∅;
     workflow_events_table := [];
     workflow_stats_table := [] |}.

(** The [stage_changed] events of an item, oldest first. *)
Definition stage_changes_of (i : uuid) (events : list workflow_events.row)
  : list workflow_events.row :=
  filter (fun e => workflow_events.automation_id e = i
                   /\ workflow_events.event_type e = "stage_changed")
    events.

(** Each event starts in the stage in which the one before it ended. *)
Fixpoint chained (events : list workflow_events.row) : Prop :=
  match events with
  | e1 :: (e2 :: _) as rest =>
      workflow_events.to_stage e1 = workflow_events.from_stage e2 /\ chained rest
  | _ => True
  end.

(** The log agrees with the table: every event refers to an item that
    exists; an item's stage changes chain, and the last one ends in the
    stage the item is in; no stage change goes from a stage to itself. *)
Definition log_consistent (d : database) : Prop :=
  (forall e, e ∈ workflow_events_table d ->
     is_Some (automations_table d !! workflow_events.automation_id e))
  /\ (forall i r e,
        automations_table d !! i = Some r ->
        last (stage_changes_of i (workflow_events_table d)) = Some e ->
        workflow_events.to_stage e = Some (automations.stage r))
  /\ (forall i, chained (stage_changes_of i (workflow_events_table d)))
  /\ (forall e, e ∈ workflow_events_table d ->
        workflow_events.event_type e = "stage_changed" ->
        workflow_events.from_stage e <> workflow_events.to_stage e).

(** Only the trigger writes [stage_changed] events: a direct call of
    [log_workflow_event] logs another event type. *)
Definition leaves_stage_changes_to_trigger (stmt : statement) : Prop :=
  match stmt with
  | SELECT_log_workflow_event _ type _ _ _ _ _ => type <> "stage_changed"
  | _ => True
  end.

(** Every update of the history finds its item in a stage and moves it
    forward, or leaves its stage. *)
Fixpoint moves_forward (history : list (server * statement)) (d : database)
  : Prop :=
  match history with
  | [] => True
  | x :: rest =>
      match x.2 with
      | UPDATE_automations p_id set =>
          match automations_table d !! p_id with
          | Some OLD => forward_move OLD (set OLD)
          | None => True
          end
      | _ => True
      end
      /\ moves_forward rest (execute d x)
  end.

(** ** The view [workflow_overview] *)

Module workflow_overview.

(** One row of the view, under its column names. *)
Record row : Type := {
  stage : string;
  total_items : Z;
  currently_processing : Z;
  items_with_retries : Z;
  avg_processing_time_seconds : option Q;
  oldest_item : option timestamptz;
  newest_item : option timestamptz
}.

End workflow_overview.

(** [COUNT(CASE WHEN <condition> THEN 1 END)]: the rows of the group that
    satisfy the condition. *)
Definition count_when (condition : automations.row -> bool)
    (group : list automations.row) : Z :=
  Z.of_nat (length (filter (fun r => condition r = true) group)).

(** [MIN], [MAX] and [AVG] skip NULLs and are NULL over no value. *)
Definition sql_min (values : list Z) : option Z :=
  match values with
  | [] => None
  | v :: rest => Some (foldr Z.min v rest)
  end.

Definition sql_max (values : list Z) : option Z :=
  match values with
  | [] => None
  | v :: rest => Some (foldr Z.max v rest)
  end.

Definition sql_avg (values : list Q) : option Q :=
  match values with
  | [] => None
  | _ => Some (foldr Qplus 0%Q values / inject_Z (Z.of_nat (length values)))%Q
  end.

(** [CASE WHEN processing_started_at IS NOT NULL AND
    processing_completed_at IS NOT NULL THEN EXTRACT(EPOCH FROM
    (processing_completed_at - processing_started_at)) END]: the seconds
    between two timestamps, which count microseconds. *)
Definition processing_seconds (r : automations.row) : option Q :=
  match automations.processing_started_at r,
        automations.processing_completed_at r with
  | Some started, Some completed => Some ((completed - started) # 1000000)
  | _, _ => None
  end.

(** The select list over one group of [GROUP BY stage]. *)
Definition overview_row (stage : string) (group : list automations.row)
  : workflow_overview.row :=
  {| workflow_overview.stage := stage;
     workflow_overview.total_items := Z.of_nat (length group);
     workflow_overview.currently_processing :=
       count_when
         (fun r => bool_decide (is_Some (automations.processing_started_at r))
                   && bool_decide (automations.processing_completed_at r = None))
         group;
     workflow_overview.items_with_retries :=
       count_when
         (fun r => match automations.retry_count r with
                   | Some retries => bool_decide (0 < retries)
                   | None => false
                   end)
         group;
     workflow_overview.avg_processing_time_seconds :=
       sql_avg (omap processing_seconds group);
     workflow_overview.oldest_item := sql_min (omap automations.created_at group);
     workflow_overview.newest_item := sql_max (omap automations.created_at group) |}.

(** [ORDER BY CASE stage WHEN 'New' THEN 1 ... ELSE 6 END] *)
Definition by_pipeline_position (x y : workflow_overview.row) : Prop :=
  stage_order (workflow_overview.stage x) ≤ stage_order (workflow_overview.stage y).

#[global] Instance by_pipeline_position_dec x y : Decision (by_pipeline_position x y).
Proof. unfold by_pipeline_position. apply _. Defined.

(** The rows of [automations], in the order the table hands them out. *)
Definition automations_rows (d : database) : list automations.row :=
  (map_to_list (automations_table d)).*2.

(** [workflow_overview]: one row per stage that holds an item. *)
Definition workflow_overview (d : database) : list workflow_overview.row :=
  merge_sort by_pipeline_position
    ((fun stage =>
        overview_row stage
          (filter (fun r => automations.stage r = stage) (automations_rows d)))
     <$> remove_dups (automations.stage <$> automations_rows d)).

(** The sum of a column. *)
Definition column_sum (values : list Z) : Z := foldr Z.add 0 values.

(** A short history of two items: both uploaded and moved to
    Classification, a worker's start logged by hand for the first, the
    second deleted. *)
Definition sample_history : list (server * statement) :=
  [ (day1 100 1%N, INSERT_automations (new_automation (day1 100 1%N) "Invoice-A"));
    (day1 200 2%N, UPDATE_automations 1%N (automations.with_stage "Classification"));
    (day1 300 3%N, INSERT_automations (new_automation (day1 300 3%N) "Invoice-B"));
    (day1 400 4%N, UPDATE_automations 3%N (automations.with_stage "Classification"));
    (day1 500 5%N,
     SELECT_log_workflow_event 1%N "processing_started" None None
       (Some "classifier-1") None None);
    (day1 600 6%N, DELETE_automations 3%N) ].

(** ** Counting the calls *)

(** The row a call of [update_workflow_stats] looks for. *)
Definition call_key (c : stats_call) : string * date_t :=
  (call_stage c, CURRENT_DATE (call_server c)).

Definition calls_for (k : string * date_t) (calls : list stats_call)
  : list stats_call :=
  filter (fun c => call_key c = k) calls.

(** A duration that a [DECIMAL(10,2)] column can hold: at most
    99,999,999.99 seconds in absolute value. *)
Definition representable (p_processing_time_seconds : option numeric) : Prop :=
  match p_processing_time_seconds with
  | Some duration =>
      (- hundredths (decimal_10_2_limit - 1) <= numeric_value duration)%Q
      /\ (numeric_value duration <= hundredths (decimal_10_2_limit - 1))%Q
  | None => True
  end.

(** A row whose counters are the numbers of calls made for its stage and
    day, of the successful ones and of the failed ones. *)
Definition counted (calls : list stats_call) (r : workflow_stats.row) : Prop :=
  let mine := calls_for (workflow_stats.key r) calls in
  workflow_stats.items_processed r = Z.of_nat (length mine)
  /\ workflow_stats.success_count r
     = Z.of_nat (length (filter (fun c => call_success c = true) mine))
  /\ workflow_stats.error_count r
     = Z.of_nat (length (filter (fun c => call_success c = false) mine))
  /\ mine <> []
  /\ match workflow_stats.avg_processing_time_seconds r with
     | Some avg => Z.abs avg < decimal_10_2_limit
     | None => True
     end.

(** The table after [calls]: one counted row for each stage and day that
    had a call. *)
Definition all_counted (calls : list stats_call)
    (tbl : list workflow_stats.row) : Prop :=
  one_row_per_day tbl
  /\ Forall (counted calls) tbl
  /\ (forall c, c ∈ calls -> call_key c ∈ map workflow_stats.key tbl)
  /\ forall r, r ∈ tbl ->
       exists c, c ∈ calls /\ workflow_stats.id r = gen_random_uuid (call_server c).

(** Calls that the columns can take: a stage of at most 50 characters, a
    duration the average can hold, and an id of its own for the row the
    call may insert. *)
Definition storable (calls : list stats_call) : Prop :=
  Forall (fun c => (String.length (call_stage c) <= 50)%nat
                   /\ representable (call_seconds c)) calls
  /\ NoDup ((fun c => gen_random_uuid (call_server c)) <$> calls).

(** ** The clock and the log *)

(** A clock that moves on from each statement of a history to the next:
    no two statements share their [NOW()]. *)
Definition clock_moves_on (history : list (server * statement)) : Prop :=
  StronglySorted (fun x y => NOW x.1 < NOW y.1) history.

Definition logged_before (e1 e2 : workflow_events.row) : Prop :=
  workflow_events.created_at e1 < workflow_events.created_at e2.



(** ** The front end: JavaScript strings *)

(** A JavaScript string is a sequence of UTF-16 code units; the regular
    expressions and string methods below (none has the [u] flag) work on
    code units. *)
Definition js_string : Type := list N.

(** The code units of an ASCII literal. *)
Definition code_units (s : string) : js_string :=
  Ascii.N_of_ascii <$> String.list_ascii_of_string s.

Definition full_stop : N := 46.
Definition solidus : N := 47.

(** ** [CreateAutomationDialog]: the title of an uploaded file *)

Module CreateAutomationDialog.

(** The class [[^/.]]. *)
Definition extension_char (c : N) : bool :=
  negb (c =? solidus)%N && negb (c =? full_stop)%N.

(** [/\.[^/.]+$/] matched at the start of [s]: a full stop, then one or
    more code units of the class, up to the end of the string. *)
Definition extension_at (s : js_string) : bool :=
  match s with
  | c :: rest => (c =? full_stop)%N && negb (bool_decide (rest = []))
                 && forallb extension_char rest
  | [] => false
  end.

(** [file.name.replace(/\.[^/.]+$/, "")] of [submit]: the leftmost match,
    which reaches the end of the name, is replaced by the empty string; a
    name without a match is returned as it is. *)
Fixpoint finalTitle (name : js_string) : js_string :=
  match name with
  | [] => []
  | c :: rest => if extension_at name then [] else c :: finalTitle rest
  end.

End CreateAutomationDialog.

(** ** [PipelineConfigPage]: the form and what it saves *)

(** A JavaScript number, as far as comparisons see it: [NaN], an infinity,
    or a finite value (a double is a rational; [-0] and [+0] compare
    alike). *)
Inductive number : Type :=
  | NaN
  | infinity (negative : bool)
  | finite (q : Q).

(** [a < b]; a comparison with [NaN] is false. *)
Definition number_lt (a b : number) : bool :=
  match a, b with
  | NaN, _ | _, NaN => false
  | infinity true, infinity true => false
  | infinity true, _ => true
  | _, infinity true => false
  | infinity false, _ => false
  | finite _, infinity false => true
  | finite p, finite q => if Qlt_le_dec p q then true else false
  end.

(** [a > b] *)
Definition number_gt (a b : number) : bool := number_lt b a.

(** WhiteSpace and LineTerminator, the code units [trim] removes. *)
Definition white_space (c : N) : bool :=
  bool_decide (c ∈ [9; 10; 11; 12; 13; 32; 160; 5760; 8232; 8233; 8239; 8287;
                    12288; 65279]%N)
  || ((8192 <=? c)%N && (c <=? 8202)%N).

Fixpoint trimStart (s : js_string) : js_string :=
  match s with
  | c :: rest => if white_space c then trimStart rest else s
  | [] => []
  end.

Definition trimEnd (s : js_string) : js_string :=
  reverse (trimStart (reverse s)).

Definition trim (s : js_string) : js_string := trimEnd (trimStart s).

(** A string in a condition: the empty string is falsy. *)
Definition truthy (s : js_string) : bool := negb (bool_decide (s = [])).

Module PipelineConfigPage.

Record LOBProcessPair : Type := {
  lob : js_string;
  process : js_string
}.

Record LLMParams : Type := {
  temperature : number;
  max_tokens : number
}.

(** The form state that [validateForm] and [handleSave] read. *)
Record form : Type := {
  lobPrompt : js_string;
  processPrompt : js_string;
  lobProcessPairs : list LOBProcessPair;
  llmParams : LLMParams
}.

(** The request body of [api.createOrUpdatePipelineConfig]. *)
Record PipelineConfigCreate : Type := {
  lob_prompt : js_string;
  process_prompt : js_string;
  lob_process_pairs : list LOBProcessPair;
  llm_params : LLMParams
}.

#[global] Instance LOBProcessPair_eq_dec : EqDecision LOBProcessPair.
Proof. solve_decision. Defined.

(** [lobProcessPairs.filter(pair => pair.lob.trim() && pair.process.trim())] *)
Definition validPairs (f : form) : list LOBProcessPair :=
  filter (fun pair => truthy (trim (lob pair)) && truthy (trim (process pair)) = true)
    (lobProcessPairs f).

(** The template literal [`${pair.lob.trim()}|${pair.process.trim()}`]. *)
Definition pairString (pair : LOBProcessPair) : js_string :=
  trim (lob pair) ++ code_units "|" ++ trim (process pair).

(** [validateForm]: the message of the first failed check, [None] for
    [null].  [new Set(pairStrings).size] is the number of distinct
    strings. *)
Definition validateForm (f : form) : option string :=
  if negb (truthy (trim (lobPrompt f))) then Some "LOB prompt is required"
  else if negb (truthy (trim (processPrompt f)))
  then Some "Process prompt is required"
  else
    if bool_decide (length (validPairs f) = 0%nat)
    then Some "At least one LOB-Process pair is required"
    else
      let pairStrings := pairString <$> validPairs f in
      if bool_decide (length (remove_dups pairStrings) ≠ length pairStrings)
      then Some "Duplicate LOB-Process pairs are not allowed"
      else if number_lt (temperature (llmParams f)) (finite 0)
              || number_gt (temperature (llmParams f)) (finite 1)
      then Some "Temperature must be between 0 and 1"
      else if number_lt (max_tokens (llmParams f)) (finite 1)
              || number_gt (max_tokens (llmParams f)) (finite (inject_Z 8000))
      then Some "Max tokens must be between 1 and 8000"
      else None.

(** [handleSave] up to the request: the validation message it shows
    instead of saving, or the body it sends. *)
Definition handleSave (f : form) : string + PipelineConfigCreate :=
  match validateForm f with
  | Some validationError => inl validationError
  | None =>
      inr {| lob_prompt := trim (lobPrompt f);
             process_prompt := trim (processPrompt f);
             lob_process_pairs :=
               (fun pair => {| lob := trim (lob pair);
                               process := trim (process pair) |})
                 <$> validPairs f;
             llm_params := llmParams f |}
  end.



End PipelineConfigPage.

(** A string without white space at either end. *)
Definition trimmed (s : js_string) : Prop :=
  (forall c, head s = Some c -> white_space c = false)
  /\ (forall c, last s = Some c -> white_space c = false).

(** A number that passes a range check of the form [x < lo || x > hi]:
    [NaN], or a finite value within the bounds. *)
Definition passes_range_check (lo hi : Q) (x : number) : Prop :=
  x = NaN \/ exists q, x = finite q /\ (lo <= q)%Q /\ (q <= hi)%Q.

(** A form with surrounding white space and an empty row, and the body
    [handleSave] sends for it. *)
Definition sample_form : PipelineConfigPage.form :=
  {| PipelineConfigPage.lobPrompt := code_units " Identify the line of business. ";
     PipelineConfigPage.processPrompt := code_units "Identify the process.";
     PipelineConfigPage.lobProcessPairs :=
       [ {| PipelineConfigPage.lob := code_units "Auto ";
            PipelineConfigPage.process := code_units " Claim Processing" |};
         {| PipelineConfigPage.lob := [];
            PipelineConfigPage.process := code_units "Underwriting" |} ];
     PipelineConfigPage.llmParams :=
       {| PipelineConfigPage.temperature := finite 0;
          PipelineConfigPage.max_tokens := finite (inject_Z 500) |} |}.

Definition sample_config : PipelineConfigPage.PipelineConfigCreate :=
  {| PipelineConfigPage.lob_prompt := code_units "Identify the line of business.";
     PipelineConfigPage.process_prompt := code_units "Identify the process.";
     PipelineConfigPage.lob_process_pairs :=
       [ {| PipelineConfigPage.lob := code_units "Auto";
            PipelineConfigPage.process := code_units "Claim Processing" |} ];
     PipelineConfigPage.llm_params :=
       {| PipelineConfigPage.temperature := finite 0;
          PipelineConfigPage.max_tokens := finite (inject_Z 500) |} |}.

(** ** [Sidebar]: the highlighted navigation items *)

(** [s.startsWith(prefix)] *)
Fixpoint startsWith (s prefix : js_string) {struct prefix} : bool :=
  match prefix, s with
  | [], _ => true
  | c :: prefix', c' :: s' => (c' =? c)%N && startsWith s' prefix'
  | _ :: _, [] => false
  end.

Module Sidebar.

(** A navigation item; its icon plays no part below and is left out. *)
Record NavItem : Type := {
  href : js_string;
  label : string
}.

Definition nav : list NavItem :=
  [ {| href := code_units "/"; label := "Dashboard" |};
    {| href := code_units "/pipeline"; label := "Automation Pipeline" |};
    {| href := code_units "/workflow-monitor"; label := "Workflow Monitor" |};
    {| href := code_units "/pipeline-config"; label := "Pipeline Config" |};
    {| href := code_units "/agentic-rules"; label := "Agentic Rules" |};
    {| href := code_units "/integration"; label := "Integration" |};
    {| href := code_units "/settings"; label := "Settings" |} ].

(** [pathname === item.href || (item.href !== "/" &&
    pathname.startsWith(item.href))] *)
Definition active (pathname : js_string) (item : NavItem) : bool :=
  bool_decide (pathname = href item)
  || (negb (bool_decide (href item = code_units "/"))
      && startsWith pathname (href item)).

(** The items that the sidebar highlights on a page. *)
Definition highlighted (pathname : js_string) : list NavItem :=
  filter (fun item => active pathname item = true) nav.

End Sidebar.

(** ** [PipelinePage]: the columns of the board *)

Module PipelinePage.

(** The keys of [byStage]. *)
Inductive Stage : Type :=
  | New
  | Classification
  | Data_Extraction
  | Processing
  | Done.

#[global] Instance Stage_eq_dec : EqDecision Stage.
Proof. solve_decision. Defined.

(** The property of [byStage] that a stage string names, if any. *)
Definition Stage_of (stage : js_string) : option Stage :=
  if bool_decide (stage = code_units "New") then Some New
  else if bool_decide (stage = code_units "Classification") then Some Classification
  else if bool_decide (stage = code_units "Data Extraction") then Some Data_Extraction
  else if bool_decide (stage = code_units "Processing") then Some Processing
  else if bool_decide (stage = code_units "Done") then Some Done
  else None.

(** What the page reads of an [Automation]. *)
Record Automation : Type := {
  id : js_string;
  stage : js_string;
  created_at : js_string
}.

Section grouped.

(** [new Date(s).getTime()]: the time value in milliseconds, or [None] for
    the [NaN] of an invalid date. *)
Variable Date_getTime : js_string -> option Z.

Definition time (item : Automation) : option Z := Date_getTime (created_at item).

(** Whether the comparator [(a, b) => new Date(b.created_at).getTime() -
    new Date(a.created_at).getTime()] returns at most zero: [a] need not
    come after [b].  A [NaN] result counts as zero. *)
Definition not_after (a b : Automation) : bool :=
  match time a, time b with
  | Some ta, Some tb => tb <=? ta
  | _, _ => true
  end.

(** [Array.prototype.sort] is stable.  When every date parses the
    comparator is consistent and every stable sort returns the list
    below; with an invalid date the order is implementation-defined, and
    this is one of the possible results. *)
Fixpoint sort_insert (a : Automation) (sorted : list Automation)
  : list Automation :=
  match sorted with
  | [] => [a]
  | b :: rest => if not_after a b then a :: b :: rest else b :: sort_insert a rest
  end.

Definition sort (items : list Automation) : list Automation :=
  foldr sort_insert [] items.

(** [byStage[stage].push(item)] *)
Definition push (byStage : Stage -> list Automation) (s : Stage)
    (item : Automation) : Stage -> list Automation :=
  fun s' => if decide (s' = s) then byStage s' ++ [item] else byStage s'.

(** The loop [for (const item of items) byStage[item.stage].push(item)].
    For a stage that is none of the five keys [byStage[item.stage]] has no
    [push] and the call throws a [TypeError]: [None]. *)
Fixpoint fill (items : list Automation) (byStage : Stage -> list Automation)
  : option (Stage -> list Automation) :=
  match items with
  | [] => Some byStage
  | item :: rest =>
      match Stage_of (stage item) with
      | Some s => fill rest (push byStage s item)
      | None => None
      end
  end.

(** The memoised [grouped]: the items by stage, each column sorted. *)
Definition grouped (items : list Automation) : option (Stage -> list Automation) :=
  byStage ← fill items (fun _ => []);
  Some (fun s => sort (byStage s)).

(** Newest first, both dates being valid. *)
Definition newest_first (a b : Automation) : Prop :=
  exists ta tb, time a = Some ta /\ time b = Some tb /\ tb <= ta.

End grouped.

End PipelinePage.

(** * Properties *)

(** ** Statements that complete *)

Lemma bind_Ok {A B : Type} (r : result A) (k : A -> result B) (b : B) :
  bind r k = Ok b <-> exists a, r = Ok a /\ k a = Ok b.
Proof.
  destruct r as [a|e]; simpl; split.
  - intros H. exists a. split; [reflexivity | exact H].
  - intros (a' & Ha & Hk). injection Ha as ->. exact Hk.
  - discriminate.
  - intros (a' & Ha & _). discriminate.
Qed.

Ltac bind_inv H :=
  let a := fresh "a" in
  let Ha := fresh "Ha" in
  apply bind_Ok in H; destruct H as (a & Ha & H).

Lemma int4_Ok (z z' : Z) :
  int4 z = Ok z' <-> z' = z /\ int4_min <= z <= int4_max.
Proof.
  unfold int4.
  destruct (int4_min <=? z) eqn:Hlo; destruct (z <=? int4_max) eqn:Hhi; simpl;
    (split; [intros H; try discriminate; injection H as <-
            | intros [-> [H1 H2]]]); try (split; [reflexivity | lia]);
    try reflexivity; lia.
Qed.

Lemma int4_in_range (z : Z) : int4_min <= z <= int4_max -> int4 z = Ok z.
Proof. intros H. apply int4_Ok. split; [reflexivity | exact H]. Qed.

Lemma for_each_row_Ok {A : Type} (f : A -> result A) (tbl tbl' : list A) :
  for_each_row f tbl = Ok tbl' <-> Forall2 (fun r r' => f r = Ok r') tbl tbl'.
Proof.
  revert tbl'. induction tbl as [|r rest IH]; intros tbl'; simpl.
  - split.
    + intros H. injection H as <-. constructor.
    + intros H. inversion H. reflexivity.
  - split.
    + intros H. bind_inv H. bind_inv H. injection H as <-.
      constructor; [assumption | apply IH; assumption].
    + intros H. inversion H as [|? r' ? rest' Hr Hrest]; subst.
      apply IH in Hrest. rewrite Hr, Hrest. reflexivity.
Qed.

(** Rounding a value that already has two decimal places changes nothing. *)
Lemma round_half_away_hundredths (h : Z) :
  round_half_away (hundredths h * 100) = h.
Proof.
  unfold round_half_away, hundredths, Qmult. cbn [Qnum Qden inject_Z].
  change (Z.pos (100 * 1)) with 100.
  assert (E : (2 * Z.abs (h * 100) + 100) / (2 * 100) = Z.abs h).
  { symmetry. apply (Z.div_unique _ _ _ 100); lia. }
  rewrite E. lia.
Qed.

Lemma decimal_10_2_stored (h : Z) :
  Z.abs h < decimal_10_2_limit -> decimal_10_2 (hundredths h) = Ok h.
Proof.
  intros H. unfold decimal_10_2. rewrite round_half_away_hundredths.
  destruct (Z.abs h <? decimal_10_2_limit) eqn:E; [reflexivity | lia].
Qed.

(** ** Values and their columns *)

Lemma varchar_fits (n : nat) (s : string) :
  (String.length s <= n)%nat -> varchar n s = Ok s.
Proof.
  intros H. unfold varchar.
  destruct (String.length s <=? n)%nat eqn:E; [reflexivity|].
  apply Nat.leb_gt in E. lia.
Qed.

Lemma substring_length (n : nat) (s : string) :
  (n <= String.length s)%nat -> String.length (String.substring 0 n s) = n.
Proof.
  revert s. induction n as [|n IH]; intros s H.
  - destruct s; reflexivity.
  - destruct s as [|c s]; simpl in *; [lia|]. rewrite IH by lia. reflexivity.
Qed.

(** What [VARCHAR(n)] stores has at most [n] characters, and exactly [n]
    when something was cut off. *)
Lemma varchar_Ok (n : nat) (s s' : string) :
  varchar n s = Ok s' ->
  (String.length s' <= n)%nat
  /\ ((String.length s <= n)%nat /\ s' = s
      \/ (n < String.length s)%nat /\ String.length s' = n).
Proof.
  unfold varchar. destruct (String.length s <=? n)%nat eqn:E.
  - apply Nat.leb_le in E. intros H. injection H as <-.
    split; [exact E | left; split; [exact E | reflexivity]].
  - apply Nat.leb_gt in E.
    destruct (only_spaces _); [|discriminate]. intros H. injection H as <-.
    rewrite substring_length by lia. split; [lia | right; split; [exact E | reflexivity]].
Qed.

Lemma varchar_stored (n : nat) (s s' : string) :
  varchar n s = Ok s' -> varchar n s' = Ok s'.
Proof. intros H. apply varchar_fits, (varchar_Ok n s s' H). Qed.

Lemma varchar_null_fits (n : nat) (s : option string) :
  fits n s -> varchar_null n s = Ok s.
Proof.
  destruct s as [v|]; simpl; [|reflexivity].
  intros H. rewrite (varchar_fits _ _ H). reflexivity.
Qed.

Lemma varchar_null_Ok (n : nat) (s s' : option string) :
  varchar_null n s = Ok s' ->
  fits n s'
  /\ match s with
     | Some v => exists v', s' = Some v' /\ varchar n v = Ok v'
     | None => s' = None
     end.
Proof.
  destruct s as [v|]; simpl.
  - destruct (varchar n v) as [v'|] eqn:E; [|discriminate].
    intros H. injection H as <-. split; [apply (varchar_Ok n v v' E)|].
    exists v'. split; reflexivity.
  - intros H. injection H as <-. split; [exact I | reflexivity].
Qed.

Lemma int4_null_Ok (z z' : option Z) :
  int4_null z = Ok z' ->
  z' = z /\ match z with
            | Some v => int4_min <= v <= int4_max
            | None => True
            end.
Proof.
  destruct z as [v|]; simpl.
  - destruct (int4 v) as [v'|] eqn:E; [|discriminate].
    apply int4_Ok in E as [-> E]. intros H. injection H as <-.
    split; [reflexivity | exact E].
  - intros H. injection H as <-. split; [reflexivity | exact I].
Qed.

(** An assignment stores the old value, or the new one as the column
    stores it. *)
Lemma assign_Ok (n : nat) (old new s : string) :
  assign n old new = Ok s ->
  (new = old /\ s = old) \/ (new <> old /\ varchar n new = Ok s).
Proof.
  unfold assign. destruct (decide (new = old)) as [E|E].
  - rewrite bool_decide_eq_true_2 by exact E. intros H. injection H as <-.
    left. split; [exact E | reflexivity].
  - rewrite bool_decide_eq_false_2 by exact E. intros H. right.
    split; [exact E | exact H].
Qed.

Lemma assign_null_Ok (n : nat) (old new s : option string) :
  assign_null n old new = Ok s ->
  (new = old /\ s = old) \/ (new <> old /\ varchar_null n new = Ok s).
Proof.
  unfold assign_null. destruct (decide (new = old)) as [E|E].
  - rewrite bool_decide_eq_true_2 by exact E. intros H. injection H as <-.
    left. split; [exact E | reflexivity].
  - rewrite bool_decide_eq_false_2 by exact E. intros H. right.
    split; [exact E | exact H].
Qed.

Lemma assign_same (n : nat) (s : string) : assign n s s = Ok s.
Proof. unfold assign. rewrite bool_decide_eq_true_2; reflexivity. Qed.

Lemma assign_null_same (n : nat) (s : option string) : assign_null n s s = Ok s.
Proof. unfold assign_null. rewrite bool_decide_eq_true_2; reflexivity. Qed.

Lemma assign_int4_same (z : option Z) : assign_int4 z z = Ok z.
Proof. unfold assign_int4. rewrite bool_decide_eq_true_2; reflexivity. Qed.

Lemma assign_fits (n : nat) (old new s : string) :
  (String.length old <= n)%nat -> assign n old new = Ok s ->
  (String.length s <= n)%nat.
Proof.
  intros Hold H. apply assign_Ok in H as [[_ ->]|[_ H]]; [exact Hold|].
  apply (varchar_Ok n new s H).
Qed.

Lemma assign_null_fits (n : nat) (old new s : option string) :
  fits n old -> assign_null n old new = Ok s -> fits n s.
Proof.
  intros Hold H. apply assign_null_Ok in H as [[_ ->]|[_ H]]; [exact Hold|].
  apply (varchar_null_Ok n new s H).
Qed.

Lemma assign_int4_fits (old new z : option Z) :
  match old with Some v => int4_min <= v <= int4_max | None => True end ->
  assign_int4 old new = Ok z ->
  match z with Some v => int4_min <= v <= int4_max | None => True end.
Proof.
  intros Hold. unfold assign_int4. destruct (bool_decide (new = old)).
  - intros H. injection H as <-. exact Hold.
  - intros H. apply int4_null_Ok in H as [-> H]. exact H.
Qed.

(** The columns of the row an [UPDATE] stores. *)
Lemma updated_Ok (OLD NEW r : automations.row) :
  automations.updated OLD NEW = Ok r ->
  assign 200 (automations.title OLD) (automations.title NEW)
  = Ok (automations.title r)
  /\ assign 50 (automations.stage OLD) (automations.stage NEW)
     = Ok (automations.stage r)
  /\ assign_null 100 (automations.assigned_worker OLD)
       (automations.assigned_worker NEW)
     = Ok (automations.assigned_worker r)
  /\ automations.created_at r = automations.created_at NEW
  /\ automations.updated_at r = automations.updated_at NEW
  /\ automations.processing_started_at r = automations.processing_started_at NEW
  /\ automations.processing_completed_at r
     = automations.processing_completed_at NEW
  /\ (stored OLD -> stored r).
Proof.
  unfold automations.updated. intros H.
  do 10 bind_inv H. injection H as <-. simpl.
  repeat (split; [first [assumption | reflexivity]|]).
  intros (H1 & H2 & H3 & H4 & H5 & H6 & H7 & H8 & H9 & H10).
  unfold stored. simpl.
  repeat split;
    first [ eapply assign_fits; [|eassumption]; assumption
          | eapply assign_null_fits; [|eassumption]; assumption
          | eapply assign_int4_fits; [|eassumption]; assumption ].
Qed.

(** ** The daily statistics *)

Lemma selected_key (p_stage : string) (today : date_t) (r : workflow_stats.row) :
  workflow_stats.selected p_stage today r = true
  <-> workflow_stats.key r = (p_stage, today).
Proof.
  unfold workflow_stats.selected, workflow_stats.key.
  rewrite andb_true_iff, !bool_decide_eq_true. split.
  - intros [-> ->]. reflexivity.
  - intros H. injection H as -> ->. split; reflexivity.
Qed.

Lemma update_row_Ok srv p_seconds p_success r r' :
  update_row srv p_seconds p_success r = Ok r' ->
  workflow_stats.key r' = workflow_stats.key r
  /\ workflow_stats.id r' = workflow_stats.id r
  /\ workflow_stats.items_processed r' = workflow_stats.items_processed r + 1
  /\ workflow_stats.success_count r'
     = workflow_stats.success_count r + case_success p_success 1 0
  /\ workflow_stats.error_count r'
     = workflow_stats.error_count r + case_success p_success 0 1
  /\ new_average r p_seconds = Ok (workflow_stats.avg_processing_time_seconds r').
Proof.
  unfold update_row. intros H.
  bind_inv H. bind_inv H. bind_inv H. bind_inv H. injection H as <-.
  apply int4_Ok in Ha as [-> _].
  apply int4_Ok in Ha0 as [-> _].
  apply int4_Ok in Ha1 as [-> _].
  repeat split; assumption.
Qed.

Lemma first_row_Ok srv p_stage p_seconds p_success r :
  first_row srv p_stage p_seconds p_success = Ok r ->
  varchar 50 p_stage = Ok (workflow_stats.stage r)
  /\ workflow_stats.date r = CURRENT_DATE srv
  /\ workflow_stats.id r = gen_random_uuid srv
  /\ workflow_stats.items_processed r = 1
  /\ workflow_stats.success_count r = case_success p_success 1 0
  /\ workflow_stats.error_count r = case_success p_success 0 1.
Proof.
  unfold first_row. intros H.
  apply bind_Ok in H as (stage & Hstage & H). bind_inv H. injection H as <-.
  repeat split; try reflexivity. exact Hstage.
Qed.

(** The two branches of the upsert, by what [SELECT ... INTO] found. *)
Lemma update_workflow_stats_found srv p_stage p_seconds p_success tbl tbl' r :
  stats_of p_stage (CURRENT_DATE srv) tbl = Some r ->
  update_workflow_stats srv p_stage p_seconds p_success tbl = Ok tbl' ->
  Forall2
    (fun r r' =>
       if workflow_stats.selected p_stage (CURRENT_DATE srv) r
       then update_row srv p_seconds p_success r = Ok r'
       else r' = r)
    tbl tbl'.
Proof.
  unfold stats_of, update_workflow_stats. intros -> H.
  apply for_each_row_Ok in H.
  eapply Forall2_impl; [exact H|]. simpl. intros x y Hxy.
  destruct (workflow_stats.selected p_stage (CURRENT_DATE srv) x).
  - exact Hxy.
  - injection Hxy as <-. reflexivity.
Qed.

Lemma find_none_not_selected p_stage today (tbl : list workflow_stats.row) :
  find (workflow_stats.selected p_stage today) tbl = None ->
  (p_stage, today) ∉ map workflow_stats.key tbl.
Proof.
  induction tbl as [|r rest IH]; simpl.
  - intros _ H. inversion H.
  - destruct (workflow_stats.selected p_stage today r) eqn:E; [discriminate|].
    intros Hf Hin. apply elem_of_cons in Hin as [Hin|Hin].
    + symmetry in Hin. apply selected_key in Hin. congruence.
    + apply IH; assumption.
Qed.

Lemma update_workflow_stats_not_found srv p_stage p_seconds p_success tbl tbl' :
  stats_of p_stage (CURRENT_DATE srv) tbl = None ->
  update_workflow_stats srv p_stage p_seconds p_success tbl = Ok tbl' ->
  exists r, first_row srv p_stage p_seconds p_success = Ok r /\ tbl' = tbl ++ [r]
            /\ (workflow_stats.id r ∉ map workflow_stats.id tbl)
            /\ (workflow_stats.key r ∉ map workflow_stats.key tbl).
Proof.
  unfold stats_of, update_workflow_stats. intros Hnone H. cbv zeta in H.
  rewrite Hnone in H. bind_inv H. exists a. split; [assumption|].
  unfold workflow_stats.insert in H.
  destruct (bool_decide (workflow_stats.id a ∈ map workflow_stats.id tbl)) eqn:E1;
    [discriminate|].
  destruct (bool_decide (workflow_stats.key a ∈ map workflow_stats.key tbl)) eqn:E2;
    [discriminate|].
  apply bool_decide_eq_false in E1, E2. injection H as <-.
  repeat split; assumption.
Qed.

Lemma update_row_balanced srv p_seconds p_success r r' :
  balanced r -> update_row srv p_seconds p_success r = Ok r' -> balanced r'.
Proof.
  unfold balanced. intros Hb H.
  apply update_row_Ok in H as (_ & _ & -> & -> & -> & _).
  destruct p_success; simpl; lia.
Qed.

Lemma first_row_balanced srv p_stage p_seconds p_success r :
  first_row srv p_stage p_seconds p_success = Ok r -> balanced r.
Proof.
  unfold balanced. intros H.
  apply first_row_Ok in H as (_ & _ & _ & -> & -> & ->).
  destruct p_success; reflexivity.
Qed.

Lemma update_keeps_balanced srv p_stage p_seconds p_success tbl tbl' :
  Forall balanced tbl ->
  update_workflow_stats srv p_stage p_seconds p_success tbl = Ok tbl' ->
  Forall balanced tbl'.
Proof.
  intros Hb Hup.
  destruct (stats_of p_stage (CURRENT_DATE srv) tbl) as [r|] eqn:Hfind.
  - pose proof (update_workflow_stats_found _ _ _ _ _ _ _ Hfind Hup) as H2.
    clear Hup Hfind. induction H2 as [|x y l l' Hxy _ IH]; [constructor|].
    apply Forall_cons in Hb as [Hx Hl]. constructor; [|apply IH; exact Hl].
    destruct (workflow_stats.selected p_stage (CURRENT_DATE srv) x).
    + eapply update_row_balanced; eassumption.
    + subst y. exact Hx.
  - destruct (update_workflow_stats_not_found _ _ _ _ _ _ Hfind Hup)
      as (r & Hr & -> & _).
    apply Forall_app. split; [exact Hb|].
    constructor; [|constructor]. eapply first_row_balanced; eassumption.
Qed.

(** C10. Every [workflow_stats] row satisfies [items_processed =
    success_count + error_count]: the row the upsert inserts satisfies it,
    and a table whose rows satisfy it still does after any call of
    [update_workflow_stats], success or failure, completed or raised. *)
Theorem stats_rows_stay_balanced srv p_stage p_seconds p_success tbl :
  Forall balanced tbl ->
  Forall balanced
    (commit tbl (update_workflow_stats srv p_stage p_seconds p_success tbl))
  /\ (forall r, first_row srv p_stage p_seconds p_success = Ok r -> balanced r).
Proof.
  intros Hb. split; [|intros r; apply first_row_balanced].
  destruct (update_workflow_stats srv p_stage p_seconds p_success tbl)
    as [tbl'|e] eqn:Hup; simpl; [|exact Hb].
  eapply update_keeps_balanced; eassumption.
Qed.

Lemma update_pairs_keys srv p_stage p_seconds p_success tbl tbl' :
  Forall2
    (fun r r' =>
       if workflow_stats.selected p_stage (CURRENT_DATE srv) r
       then update_row srv p_seconds p_success r = Ok r'
       else r' = r)
    tbl tbl' ->
  map workflow_stats.key tbl' = map workflow_stats.key tbl
  /\ map workflow_stats.id tbl' = map workflow_stats.id tbl.
Proof.
  induction 1 as [|x y l l' Hxy _ [IHk IHi]]; [split; reflexivity|].
  simpl. rewrite IHk, IHi.
  destruct (workflow_stats.selected p_stage (CURRENT_DATE srv) x).
  - apply update_row_Ok in Hxy as (-> & -> & _). split; reflexivity.
  - subst y. split; reflexivity.
Qed.

Lemma update_pairs_find srv p_stage p_seconds p_success tbl tbl' r :
  Forall2
    (fun r r' =>
       if workflow_stats.selected p_stage (CURRENT_DATE srv) r
       then update_row srv p_seconds p_success r = Ok r'
       else r' = r)
    tbl tbl' ->
  stats_of p_stage (CURRENT_DATE srv) tbl = Some r ->
  exists r', stats_of p_stage (CURRENT_DATE srv) tbl' = Some r'
             /\ update_row srv p_seconds p_success r = Ok r'.
Proof.
  unfold stats_of.
  induction 1 as [|x y l l' Hxy _ IH]; simpl; [discriminate|].
  destruct (workflow_stats.selected p_stage (CURRENT_DATE srv) x) eqn:Ex.
  - intros Hr. injection Hr as <-. exists y. split; [|exact Hxy].
    assert (Ey : workflow_stats.selected p_stage (CURRENT_DATE srv) y = true).
    { apply selected_key. apply update_row_Ok in Hxy as (-> & _).
      apply selected_key. exact Ex. }
    rewrite Ey. reflexivity.
  - subst y. rewrite Ex. exact IH.
Qed.

Lemma update_keeps_one_row_per_day srv p_stage p_seconds p_success tbl tbl' :
  one_row_per_day tbl ->
  update_workflow_stats srv p_stage p_seconds p_success tbl = Ok tbl' ->
  one_row_per_day tbl'.
Proof.
  unfold one_row_per_day. intros Hnd Hup.
  destruct (stats_of p_stage (CURRENT_DATE srv) tbl) as [r|] eqn:Hfind.
  - pose proof (update_workflow_stats_found _ _ _ _ _ _ _ Hfind Hup) as H2.
    destruct (update_pairs_keys _ _ _ _ _ _ H2) as [-> _]. exact Hnd.
  - destruct (update_workflow_stats_not_found _ _ _ _ _ _ Hfind Hup)
      as (r & Hr & -> & _ & Hfresh).
    rewrite map_app. simpl. apply NoDup_app. split; [exact Hnd|].
    split; [|apply NoDup_singleton].
    intros k Hk Hk'. apply list_elem_of_singleton in Hk'. subst k.
    exact (Hfresh Hk).
Qed.



Lemma same_key_same_row (tbl : list workflow_stats.row) x y :
  one_row_per_day tbl -> x ∈ tbl -> y ∈ tbl ->
  workflow_stats.key x = workflow_stats.key y -> x = y.
Proof.
  unfold one_row_per_day. induction tbl as [|z l IH]; simpl.
  - intros _ H. inversion H.
  - intros Hnd Hx Hy Hk. apply NoDup_cons in Hnd as [Hz Hnd].
    apply elem_of_cons in Hx as [->|Hx]; apply elem_of_cons in Hy as [->|Hy].
    + reflexivity.
    + exfalso. apply Hz. rewrite Hk. apply list_elem_of_fmap_2. exact Hy.
    + exfalso. apply Hz. rewrite <- Hk. apply list_elem_of_fmap_2. exact Hx.
    + apply IH; assumption.
Qed.

Lemma find_selected (p_stage : string) (today : date_t)
    (tbl : list workflow_stats.row) r :
  find (workflow_stats.selected p_stage today) tbl = Some r ->
  r ∈ tbl /\ workflow_stats.selected p_stage today r = true.
Proof.
  induction tbl as [|x l IH]; simpl; [discriminate|].
  destruct (workflow_stats.selected p_stage today x) eqn:Ex.
  - intros H. injection H as <-. split; [left | exact Ex].
  - intros H. apply IH in H as [Hin Hs]. split; [right; exact Hin | exact Hs].
Qed.

Lemma update_row_failure srv r :
  well_typed r ->
  workflow_stats.items_processed r < int4_max ->
  workflow_stats.error_count r < int4_max ->
  update_row srv None false r = Ok (failure_counted srv r).
Proof.
  intros (Hn & Hs & He & Havg) Hn' He'. unfold update_row, new_average.
  rewrite (int4_in_range (workflow_stats.items_processed r + 1)) by lia.
  simpl. rewrite Z.add_0_r, (int4_in_range _ Hs). simpl.
  rewrite (int4_in_range (workflow_stats.error_count r + 1)) by lia. simpl.
  unfold failure_counted.
  destruct (workflow_stats.avg_processing_time_seconds r) as [avg|]; simpl.
  - rewrite (decimal_10_2_stored _ Havg). reflexivity.
  - reflexivity.
Qed.

(** C7. A failure recorded without a measured duration leaves
    [avg_processing_time_seconds] of the stage's daily row as it was and
    still increments [items_processed] and [error_count]; [success_count]
    and every other row stay unchanged.  (The row's values fit their
    columns and the two counters are below the [INTEGER] maximum, so the
    increments are representable.) *)
Theorem failure_without_duration_keeps_average srv p_stage tbl r :
  one_row_per_day tbl ->
  stats_of p_stage (CURRENT_DATE srv) tbl = Some r ->
  well_typed r ->
  workflow_stats.items_processed r < int4_max ->
  workflow_stats.error_count r < int4_max ->
  exists tbl' r',
    update_workflow_stats srv p_stage None false tbl = Ok tbl'
    /\ stats_of p_stage (CURRENT_DATE srv) tbl' = Some r'
    /\ workflow_stats.avg_processing_time_seconds r'
       = workflow_stats.avg_processing_time_seconds r
    /\ workflow_stats.items_processed r' = workflow_stats.items_processed r + 1
    /\ workflow_stats.error_count r' = workflow_stats.error_count r + 1
    /\ workflow_stats.success_count r' = workflow_stats.success_count r
    /\ Forall2
         (fun x y => workflow_stats.key x <> (p_stage, CURRENT_DATE srv) -> y = x)
         tbl tbl'.
Proof.
  intros Hnd Hfind Hwt Hn He.
  set (g := fun x => if workflow_stats.selected p_stage (CURRENT_DATE srv) x
                     then failure_counted srv x else x).
  destruct (find_selected _ _ _ _ Hfind) as [Hin Hsel].
  assert (Hup : update_workflow_stats srv p_stage None false tbl = Ok (map g tbl)).
  { unfold update_workflow_stats. cbv zeta.
    unfold stats_of in Hfind. rewrite Hfind.
    apply for_each_row_Ok, Forall2_fmap_r, Forall_Forall2_diag, Forall_forall.
    intros x Hx. unfold g, compose. cbv beta.
    destruct (workflow_stats.selected p_stage (CURRENT_DATE srv) x) eqn:Ex;
      [|reflexivity].
    assert (x = r) as ->.
    { apply (same_key_same_row tbl); try assumption.
      apply selected_key in Ex. apply selected_key in Hsel. congruence. }
    apply update_row_failure; assumption. }
  pose proof (update_workflow_stats_found _ _ _ _ _ _ _ Hfind Hup) as H2.
  destruct (update_pairs_find _ _ _ _ _ _ _ H2 Hfind) as (r' & Hr' & Hrow).
  rewrite (update_row_failure srv r Hwt Hn He) in Hrow. injection Hrow as <-.
  exists (map g tbl), (failure_counted srv r).
  repeat split; try assumption; try reflexivity.
  apply Forall2_fmap_r, Forall_Forall2_diag, Forall_forall.
  intros x _ Hk. unfold g, compose. cbv beta.
  destruct (workflow_stats.selected p_stage (CURRENT_DATE srv) x) eqn:Ex;
    [|reflexivity].
  apply selected_key in Ex. contradiction.
Qed.

Example one_success_recorded :
  update_workflow_stats (day1 100 1%N) "Classification" (Some (numeric_of_int 10)) true []
  = Ok one_success.
Proof. vm_compute. reflexivity. Qed.

Lemma one_success_one_row : one_row_per_day one_success.
Proof. unfold one_row_per_day. simpl. apply NoDup_singleton. Qed.

Lemma failure_without_duration_witness :
  exists tbl' r',
    update_workflow_stats (day1 200 2%N) "Classification" None false one_success
    = Ok tbl'
    /\ stats_of "Classification" 20000 tbl' = Some r'
    /\ workflow_stats.avg_processing_time_seconds r' = Some 1000
    /\ workflow_stats.items_processed r' = 2
    /\ workflow_stats.error_count r' = 1
    /\ workflow_stats.success_count r' = 1.
Proof.
  destruct (failure_without_duration_keeps_average (day1 200 2%N)
              "Classification" one_success
              {| workflow_stats.id := 1%N; workflow_stats.stage := "Classification";
                 workflow_stats.date := 20000; workflow_stats.items_processed := 1;
                 workflow_stats.avg_processing_time_seconds := Some 1000;
                 workflow_stats.success_count := 1; workflow_stats.error_count := 0;
                 workflow_stats.created_at := 100; workflow_stats.updated_at := 100 |})
    as (tbl' & r' & H1 & H2 & H3 & H4 & H5 & H6 & _).
  - exact one_success_one_row.
  - reflexivity.
  - unfold well_typed, int4_min, int4_max, decimal_10_2_limit. simpl. lia.
  - unfold int4_max. simpl. lia.
  - unfold int4_max. simpl. lia.
  - exists tbl', r'. repeat split; assumption.
Defined.

Lemma one_success_balanced : Forall balanced one_success.
Proof. repeat constructor. Qed.

Lemma stats_rows_stay_balanced_witness :
  Forall balanced
    (commit one_success
       (update_workflow_stats (day1 200 2%N) "Classification" None false
          one_success)).
Proof.
  exact (proj1 (stats_rows_stay_balanced (day1 200 2%N) "Classification"
                  None false one_success one_success_balanced)).
Defined.




(** C1. After two successes of 10 and 20 seconds the stored average is
    20.00, the last duration, and not their mean 15: the [SET] list reads
    [items_processed] as it was before the increment, so the second call
    computes [(10 * (1 - 1) + 20) / 1]. *)
Theorem two_successes_average_is_last_duration :
  exists r,
    stats_of "Classification" 20000 (record_all two_successes []) = Some r
    /\ workflow_stats.items_processed r = 2
    /\ workflow_stats.success_count r = 2
    /\ workflow_stats.avg_processing_time_seconds r = Some 2000
    /\ (hundredths 2000 == 20)%Q
    /\ ~ (hundredths 2000 == 15)%Q.
Proof.
  eexists. split; [vm_compute; reflexivity|].
  repeat split; try reflexivity.
  unfold hundredths, Qeq. simpl. lia.
Qed.

(** *** Beyond the single call *)

Lemma decimal_10_2_Ok (q : Q) (h : Z) :
  decimal_10_2 q = Ok h -> Z.abs h < decimal_10_2_limit.
Proof.
  unfold decimal_10_2.
  destruct (Z.abs (round_half_away (q * 100)) <? decimal_10_2_limit) eqn:E;
    [|discriminate].
  intros H. injection H as <-. lia.
Qed.

Lemma update_row_well_typed srv p_seconds p_success r r' :
  update_row srv p_seconds p_success r = Ok r' -> well_typed r'.
Proof.
  unfold update_row, well_typed. intros H.
  bind_inv H. bind_inv H. bind_inv H. bind_inv H. injection H as <-. simpl.
  apply int4_Ok in Ha as [-> Hn].
  apply int4_Ok in Ha0 as [-> Hs].
  apply int4_Ok in Ha1 as [-> He].
  repeat split; try lia.
  unfold new_average in Ha2.
  destruct p_seconds as [duration|].
  - bind_inv Ha2.
    destruct (workflow_stats.avg_processing_time_seconds r) as [avg|].
    + bind_inv Ha2. bind_inv Ha2. injection Ha2 as <-.
      eapply decimal_10_2_Ok. eassumption.
    + injection Ha2 as <-. exact I.
  - destruct (workflow_stats.avg_processing_time_seconds r) as [avg|].
    + bind_inv Ha2. injection Ha2 as <-. eapply decimal_10_2_Ok. eassumption.
    + injection Ha2 as <-. exact I.
Qed.

Lemma first_row_well_typed srv p_stage p_seconds p_success r :
  first_row srv p_stage p_seconds p_success = Ok r -> well_typed r.
Proof.
  unfold first_row, well_typed. intros H.
  apply bind_Ok in H as (stage & _ & H). bind_inv H. injection H as <-. simpl.
  unfold int4_min, int4_max.
  repeat split; try (destruct p_success; simpl; lia).
  destruct p_seconds as [duration|].
  - bind_inv Ha. injection Ha as <-. eapply decimal_10_2_Ok. eassumption.
  - injection Ha as <-. exact I.
Qed.

Lemma update_keeps_well_typed srv p_stage p_seconds p_success tbl tbl' :
  Forall well_typed tbl ->
  update_workflow_stats srv p_stage p_seconds p_success tbl = Ok tbl' ->
  Forall well_typed tbl'.
Proof.
  intros Hwt Hup.
  destruct (stats_of p_stage (CURRENT_DATE srv) tbl) as [r|] eqn:Hfind.
  - pose proof (update_workflow_stats_found _ _ _ _ _ _ _ Hfind Hup) as H2.
    clear Hup Hfind. induction H2 as [|x y l l' Hxy _ IH]; [constructor|].
    apply Forall_cons in Hwt as [Hx Hl]. constructor; [|apply IH; exact Hl].
    destruct (workflow_stats.selected p_stage (CURRENT_DATE srv) x).
    + eapply update_row_well_typed; eassumption.
    + subst y. exact Hx.
  - destruct (update_workflow_stats_not_found _ _ _ _ _ _ Hfind Hup)
      as (r & Hr & -> & _).
    apply Forall_app. split; [exact Hwt|].
    constructor; [|constructor]. eapply first_row_well_typed; eassumption.
Qed.

Lemma update_keeps_stage_fits srv p_stage p_seconds p_success tbl tbl' :
  Forall (fun r => (String.length (workflow_stats.stage r) <= 50)%nat) tbl ->
  update_workflow_stats srv p_stage p_seconds p_success tbl = Ok tbl' ->
  Forall (fun r => (String.length (workflow_stats.stage r) <= 50)%nat) tbl'.
Proof.
  intros Hfit Hup.
  destruct (stats_of p_stage (CURRENT_DATE srv) tbl) as [r|] eqn:Hfind.
  - pose proof (update_workflow_stats_found _ _ _ _ _ _ _ Hfind Hup) as H2.
    destruct (update_pairs_keys _ _ _ _ _ _ H2) as [Hk _].
    assert (Hs : map workflow_stats.stage tbl' = map workflow_stats.stage tbl).
    { apply (f_equal (map fst)) in Hk. rewrite !map_map in Hk. exact Hk. }
    rewrite Forall_forall in Hfit. apply Forall_forall. intros x Hx.
    assert (Hin : workflow_stats.stage x ∈ map workflow_stats.stage tbl).
    { rewrite <- Hs. apply list_elem_of_fmap. exists x. split; [reflexivity | exact Hx]. }
    apply list_elem_of_fmap in Hin as (y & -> & Hy). apply Hfit, Hy.
  - destruct (update_workflow_stats_not_found _ _ _ _ _ _ Hfind Hup)
      as (r & Hr & -> & _).
    apply Forall_app. split; [exact Hfit|].
    constructor; [|constructor].
    apply first_row_Ok in Hr as (Hstage & _).
    apply (varchar_Ok _ _ _ Hstage).
Qed.

(** X1. Whatever calls were made since the table was empty, it has at most
    one row for a stage and a date, every row counts each item once, and
    every value fits its column. *)
Theorem recorded_stats_invariants (calls : list stats_call) :
  one_row_per_day (record_all calls [])
  /\ Forall balanced (record_all calls [])
  /\ Forall well_typed (record_all calls [])
  /\ Forall (fun r => (String.length (workflow_stats.stage r) <= 50)%nat)
       (record_all calls []).
Proof.
  unfold record_all.
  assert (H : one_row_per_day [] /\ Forall balanced [] /\ Forall well_typed []
              /\ Forall (fun r => (String.length (workflow_stats.stage r)
                                   <= 50)%nat) []).
  { repeat split; constructor. }
  revert H. generalize (@nil workflow_stats.row) as tbl.
  induction calls as [|c calls IH]; intros tbl H; [exact H|].
  simpl. apply IH. unfold record_stats.
  destruct (update_workflow_stats (call_server c) (call_stage c) (call_seconds c)
              (call_success c) tbl) as [tbl'|e] eqn:Hup; simpl; [|exact H].
  destruct H as (H1 & H2 & H3 & H4). repeat split.
  - eapply update_keeps_one_row_per_day; eassumption.
  - eapply update_keeps_balanced; eassumption.
  - eapply update_keeps_well_typed; eassumption.
  - eapply update_keeps_stage_fits; eassumption.
Qed.

(** X2. The average the [UPDATE] branch stores is computed with the count of
    items before the call: [((avg * (n - 1)) + p) / n] with [n] the old
    [items_processed], while the stored count becomes [n + 1].  The
    quotient is rounded twice: by the division to its result scale, then
    by the column to two places. *)
Theorem average_reads_count_before_increment
    srv p_stage duration p_success tbl tbl' r avg :
  stats_of p_stage (CURRENT_DATE srv) tbl = Some r ->
  workflow_stats.avg_processing_time_seconds r = Some avg ->
  update_workflow_stats srv p_stage (Some duration) p_success tbl = Ok tbl' ->
  let dividend :=
    numeric_add
      (numeric_mul (numeric_of_decimal_10_2 avg)
         (numeric_of_int (workflow_stats.items_processed r - 1)))
      duration in
  let divisor := numeric_of_int (workflow_stats.items_processed r) in
  exists r' quotient h,
    stats_of p_stage (CURRENT_DATE srv) tbl' = Some r'
    /\ workflow_stats.items_processed r' = workflow_stats.items_processed r + 1
    /\ workflow_stats.avg_processing_time_seconds r' = Some h
    /\ workflow_stats.items_processed r <> 0
    /\ dscale quotient = select_div_scale dividend divisor
    /\ unscaled quotient
       = round_half_away
           (numeric_value dividend / numeric_value divisor
            * pow10 (dscale quotient))
    /\ h = round_half_away (numeric_value quotient * 100)
    /\ Z.abs h < decimal_10_2_limit.
Proof.
  intros Hfind Havg Hup dividend divisor.
  pose proof (update_workflow_stats_found _ _ _ _ _ _ _ Hfind Hup) as H2.
  destruct (update_pairs_find _ _ _ _ _ _ _ H2 Hfind) as (r' & Hr' & Hrow).
  apply update_row_Ok in Hrow as (_ & _ & Hn & _ & _ & Hnew).
  unfold new_average in Hnew. rewrite Havg in Hnew.
  apply bind_Ok in Hnew as (n1 & Hn1 & Hnew). apply int4_Ok in Hn1 as [-> _].
  apply bind_Ok in Hnew as (quotient & Hdiv & Hnew).
  apply bind_Ok in Hnew as (h & Hdec & Hnew). injection Hnew as Hh.
  fold dividend divisor in Hdiv. unfold numeric_div in Hdiv.
  destruct (unscaled divisor =? 0) eqn:Hzero; [discriminate|].
  apply Z.eqb_neq in Hzero. injection Hdiv as <-.
  pose proof (decimal_10_2_Ok _ _ Hdec) as Hfit.
  unfold decimal_10_2 in Hdec.
  destruct (Z.abs _ <? decimal_10_2_limit); [|discriminate].
  injection Hdec as Hdec.
  exists r',
    {| unscaled :=
         round_half_away
           (numeric_value dividend / numeric_value divisor
            * pow10 (select_div_scale dividend divisor));
       dscale := select_div_scale dividend divisor |}, h.
  split; [exact Hr'|]. split; [exact Hn|].
  split; [symmetry; exact Hh|]. split; [exact Hzero|].
  split; [reflexivity|]. split; [reflexivity|].
  split; [symmetry; exact Hdec | exact Hfit].
Qed.

(** A week's row with seven items and an average of zero, and the table
    after a success of 14000000.034999999999 seconds: a seventh of it is
    2000000.00499999999985..., which the division rounds to
    2000000.005000000000 and the column to 2000000.01. *)
Example rounded_twice_recorded :
  update_workflow_stats (day1 200 2%N) "Classification"
    (Some {| unscaled := 14000000034999999999; dscale := 12 |}) true seven_items
  = Ok seven_items_more.
Proof. vm_compute. reflexivity. Qed.

Lemma average_reads_count_before_witness :
  exists r' quotient h,
    stats_of "Classification" 20000 seven_items_more = Some r'
    /\ workflow_stats.items_processed r' = 7 + 1
    /\ workflow_stats.avg_processing_time_seconds r' = Some h
    /\ 7 <> 0
    /\ dscale quotient
       = select_div_scale
           (numeric_add
              (numeric_mul (numeric_of_decimal_10_2 0) (numeric_of_int (7 - 1)))
              {| unscaled := 14000000034999999999; dscale := 12 |})
           (numeric_of_int 7)
    /\ unscaled quotient
       = round_half_away
           (numeric_value
              (numeric_add
                 (numeric_mul (numeric_of_decimal_10_2 0) (numeric_of_int (7 - 1)))
                 {| unscaled := 14000000034999999999; dscale := 12 |})
            / numeric_value (numeric_of_int 7)
            * pow10 (dscale quotient))
    /\ h = round_half_away (numeric_value quotient * 100)
    /\ Z.abs h < decimal_10_2_limit.
Proof.
  exact (average_reads_count_before_increment (day1 200 2%N) "Classification"
           {| unscaled := 14000000034999999999; dscale := 12 |} true
           seven_items seven_items_more
           {| workflow_stats.id := 1%N; workflow_stats.stage := "Classification";
              workflow_stats.date := 20000; workflow_stats.items_processed := 7;
              workflow_stats.avg_processing_time_seconds := Some 0;
              workflow_stats.success_count := 7; workflow_stats.error_count := 0;
              workflow_stats.created_at := 100; workflow_stats.updated_at := 100 |}
           0 eq_refl eq_refl rounded_twice_recorded).
Defined.

(** X3. A day that starts with a failure without a duration has a NULL
    average, and the [UPDATE] branch keeps it NULL whatever is recorded
    afterwards: NULL times the count is NULL. *)
Theorem null_average_stays_null srv p_stage p_seconds p_success tbl tbl' r :
  stats_of p_stage (CURRENT_DATE srv) tbl = Some r ->
  workflow_stats.avg_processing_time_seconds r = None ->
  update_workflow_stats srv p_stage p_seconds p_success tbl = Ok tbl' ->
  exists r',
    stats_of p_stage (CURRENT_DATE srv) tbl' = Some r'
    /\ workflow_stats.items_processed r' = workflow_stats.items_processed r + 1
    /\ workflow_stats.avg_processing_time_seconds r' = None.
Proof.
  intros Hfind Havg Hup.
  pose proof (update_workflow_stats_found _ _ _ _ _ _ _ Hfind Hup) as H2.
  destruct (update_pairs_find _ _ _ _ _ _ _ H2 Hfind) as (r' & Hr' & Hrow).
  apply update_row_Ok in Hrow as (_ & _ & Hn & _ & _ & Hnew).
  exists r'. repeat split; [exact Hr' | exact Hn |].
  unfold new_average in Hnew. rewrite Havg in Hnew.
  destruct p_seconds as [duration|].
  - bind_inv Hnew. injection Hnew as <-. reflexivity.
  - injection Hnew as <-. reflexivity.
Qed.

Example success_after_failure_recorded :
  update_workflow_stats (day1 200 2%N) "Classification" (Some (numeric_of_int 10)) true
    one_failure
  = Ok [ {| workflow_stats.id := 1%N; workflow_stats.stage := "Classification";
            workflow_stats.date := 20000; workflow_stats.items_processed := 2;
            workflow_stats.avg_processing_time_seconds := None;
            workflow_stats.success_count := 1; workflow_stats.error_count := 1;
            workflow_stats.created_at := 100; workflow_stats.updated_at := 200 |} ].
Proof. vm_compute. reflexivity. Qed.

Lemma null_average_stays_null_witness :
  exists r',
    stats_of "Classification" 20000
      [ {| workflow_stats.id := 1%N; workflow_stats.stage := "Classification";
           workflow_stats.date := 20000; workflow_stats.items_processed := 2;
           workflow_stats.avg_processing_time_seconds := None;
           workflow_stats.success_count := 1; workflow_stats.error_count := 1;
           workflow_stats.created_at := 100; workflow_stats.updated_at := 200 |} ]
    = Some r'
    /\ workflow_stats.items_processed r' = 1 + 1
    /\ workflow_stats.avg_processing_time_seconds r' = None.
Proof.
  exact (null_average_stays_null (day1 200 2%N) "Classification"
           (Some (numeric_of_int 10)) true one_failure _
           {| workflow_stats.id := 1%N; workflow_stats.stage := "Classification";
              workflow_stats.date := 20000; workflow_stats.items_processed := 1;
              workflow_stats.avg_processing_time_seconds := None;
              workflow_stats.success_count := 0; workflow_stats.error_count := 1;
              workflow_stats.created_at := 100; workflow_stats.updated_at := 100 |}
           eq_refl eq_refl success_after_failure_recorded).
Defined.

(** X4. The first event of a stage's day, when it is a failure without a
    duration, inserts the row with one item, one error, no success and a
    NULL average, under the stage as [VARCHAR(50)] stores it, provided
    that stored stage has no row for the day and the generated id is
    free.  A stage that does not fit the column raises instead. *)
Theorem first_failure_inserts_row srv p_stage stage tbl :
  stats_of p_stage (CURRENT_DATE srv) tbl = None ->
  varchar 50 p_stage = Ok stage ->
  (stage, CURRENT_DATE srv) ∉ map workflow_stats.key tbl ->
  gen_random_uuid srv ∉ map workflow_stats.id tbl ->
  (exists r,
     update_workflow_stats srv p_stage None false tbl = Ok (tbl ++ [r])
     /\ workflow_stats.key r = (stage, CURRENT_DATE srv)
     /\ workflow_stats.items_processed r = 1
     /\ workflow_stats.success_count r = 0
     /\ workflow_stats.error_count r = 1
     /\ workflow_stats.avg_processing_time_seconds r = None)
  /\ forall long,
       stats_of long (CURRENT_DATE srv) tbl = None ->
       varchar 50 long = Raise string_data_right_truncation ->
       update_workflow_stats srv long None false tbl
       = Raise string_data_right_truncation.
Proof.
  intros Hfind Hstage Hkey Hid. split.
  - unfold update_workflow_stats. cbv zeta.
    unfold stats_of in Hfind. rewrite Hfind.
    unfold first_row. rewrite Hstage. simpl.
    unfold workflow_stats.insert.
    cbn [workflow_stats.id].
    rewrite (bool_decide_eq_false_2 _ Hid).
    rewrite (bool_decide_eq_false_2
               ((stage, CURRENT_DATE srv) ∈ map workflow_stats.key tbl) Hkey).
    simpl. eexists. repeat split; reflexivity.
  - intros long Hnone Hlong. unfold update_workflow_stats. cbv zeta.
    unfold stats_of in Hnone. rewrite Hnone.
    unfold first_row. rewrite Hlong. reflexivity.
Qed.

Lemma first_failure_inserts_witness :
  (exists r,
     update_workflow_stats (day1 100 1%N) "Classification" None false []
     = Ok ([] ++ [r])
     /\ workflow_stats.key r = ("Classification", 20000)
     /\ workflow_stats.items_processed r = 1
     /\ workflow_stats.success_count r = 0
     /\ workflow_stats.error_count r = 1
     /\ workflow_stats.avg_processing_time_seconds r = None)
  /\ forall long,
       stats_of long 20000 [] = None ->
       varchar 50 long = Raise string_data_right_truncation ->
       update_workflow_stats (day1 100 1%N) long None false []
       = Raise string_data_right_truncation.
Proof.
  apply (first_failure_inserts_row (day1 100 1%N) "Classification"
           "Classification" [] eq_refl eq_refl).
  - apply not_elem_of_nil.
  - apply not_elem_of_nil.
Defined.

Lemma inserted_Ok (r r' : automations.row) :
  automations.inserted r = Ok r' ->
  stored r'
  /\ varchar 200 (automations.title r) = Ok (automations.title r')
  /\ varchar 50 (automations.stage r) = Ok (automations.stage r')
  /\ automations.created_at r' = automations.created_at r
  /\ automations.updated_at r' = automations.updated_at r.
Proof.
  unfold automations.inserted. intros H.
  do 10 bind_inv H. injection H as <-. simpl.
  split; [|repeat split; assumption].
  unfold stored. simpl.
  repeat match goal with
         | H : varchar _ _ = Ok _ |- _ => apply varchar_Ok in H as [H _]
         | H : varchar_null _ _ = Ok _ |- _ => apply varchar_null_Ok in H as [H _]
         | H : int4_null _ = Ok _ |- _ => apply int4_null_Ok in H as [-> H]
         end.
  repeat split; assumption.
Qed.

(** ** Stage changes and the event log *)

(** What a call of [log_workflow_event] that completes has done. *)
Lemma log_workflow_event_Ok srv p_id type from to worker meta err d logged :
  log_workflow_event srv p_id type from to worker meta err d = Ok logged <->
  exists type' from' to' worker',
    varchar 50 type = Ok type'
    /\ varchar_null 50 from = Ok from'
    /\ varchar_null 50 to = Ok to'
    /\ varchar_null 100 worker = Ok worker'
    /\ (gen_random_uuid srv ∉ map workflow_events.id (workflow_events_table d))
    /\ is_Some (automations_table d !! p_id)
    /\ logged
       = (gen_random_uuid srv,
          with_workflow_events
            (workflow_events_table d
             ++ [ {| workflow_events.id := gen_random_uuid srv;
                     workflow_events.automation_id := p_id;
                     workflow_events.event_type := type';
                     workflow_events.from_stage := from';
                     workflow_events.to_stage := to';
                     workflow_events.worker_id := worker';
                     workflow_events.metadata := meta;
                     workflow_events.error_message := err;
                     workflow_events.created_at := NOW srv |} ]) d).
Proof.
  unfold log_workflow_event. split.
  - intros H. do 4 bind_inv H. cbv zeta in H.
    destruct (decide (gen_random_uuid srv
                      ∈ map workflow_events.id (workflow_events_table d)))
      as [Hid|Hid].
    + rewrite bool_decide_eq_true_2 in H by exact Hid. discriminate.
    + rewrite bool_decide_eq_false_2 in H by exact Hid.
      destruct (automations_table d !! p_id) as [r|] eqn:Hr; [|discriminate].
      injection H as <-. exists a, a0, a1, a2.
      repeat split; try assumption. eexists. reflexivity.
  - intros (type' & from' & to' & worker' & -> & -> & -> & -> & Hid & [r Hr] & ->).
    cbn [bind]. cbv zeta. rewrite bool_decide_eq_false_2 by exact Hid.
    rewrite Hr. reflexivity.
Qed.

(** The event type [stage_changed] is stored as it is, and nothing else
    is stored as [stage_changed]. *)
Lemma varchar_stage_changed (type type' : string) :
  varchar 50 type = Ok type' ->
  type' = "stage_changed" <-> type = "stage_changed".
Proof.
  intros H. apply varchar_Ok in H as [_ [[_ ->]|[Hlong Hlen]]]; [reflexivity|].
  split; intros ->; simpl in *; lia.
Qed.

(** A stage keeps its place in the pipeline when [VARCHAR(50)] stores it:
    the five stages of the pipeline are short, and what is cut is long. *)
Lemma stage_order_varchar (stage stage' : string) :
  varchar 50 stage = Ok stage' -> stage_order stage' = stage_order stage.
Proof.
  intros H. apply varchar_Ok in H as [_ [[_ ->]|[Hlong Hlen]]]; [reflexivity|].
  unfold stage_order.
  repeat match goal with
         | |- context [bool_decide (?s = ?c)] =>
             rewrite (bool_decide_eq_false_2 (s = c))
               by (intros ->; simpl in *; lia)
         end.
  reflexivity.
Qed.

(** What [UPDATE automations ... WHERE id = p_id] that completes has left
    behind when the row exists: the stamped new row in place of the old
    one, and the log as the trigger left it. *)
Lemma update_automations_Ok srv p_id set d d' OLD :
  automations_table d !! p_id = Some OLD ->
  update_automations srv p_id set d = Ok d' ->
  exists assigned,
    automations.updated OLD (set OLD) = Ok assigned
    /\ automations_table d'
       = <[p_id := update_updated_at_column srv assigned]> (automations_table d)
    /\ workflow_stats_table d' = workflow_stats_table d
    /\ if bool_decide (automations.stage OLD = automations.stage assigned)
       then workflow_events_table d' = workflow_events_table d
       else exists e,
           workflow_events_table d' = workflow_events_table d ++ [e]
           /\ (gen_random_uuid srv
               ∉ map workflow_events.id (workflow_events_table d))
           /\ workflow_events.id e = gen_random_uuid srv
           /\ workflow_events.automation_id e = p_id
           /\ workflow_events.event_type e = "stage_changed"
           /\ varchar_null 50 (Some (automations.stage OLD))
              = Ok (workflow_events.from_stage e)
           /\ workflow_events.to_stage e = Some (automations.stage assigned)
           /\ varchar_null 100 (automations.assigned_worker assigned)
              = Ok (workflow_events.worker_id e)
           /\ workflow_events.metadata e
              = Some (jsonb_build_object
                        [("previous_updated_at",
                          to_jsonb (automations.updated_at OLD));
                         ("new_updated_at", json_timestamp (NOW srv))])
           /\ workflow_events.error_message e = None
           /\ workflow_events.created_at e = NOW srv.
Proof.
  intros Hold. unfold update_automations. rewrite Hold. intros H.
  bind_inv H. rename a into assigned. exists assigned.
  split; [exact Ha|]. cbv zeta in H. unfold track_stage_changes in H.
  change (automations.stage (update_updated_at_column srv assigned))
    with (automations.stage assigned) in H.
  destruct (decide (automations.stage OLD = automations.stage assigned)) as [E|E].
  - rewrite (bool_decide_eq_false_2 (_ ≠ _)) in H by (intros H'; exact (H' E)).
    rewrite (bool_decide_eq_true_2 (_ = _)) by exact E.
    injection H as <-. repeat split; reflexivity.
  - rewrite (bool_decide_eq_true_2 (_ ≠ _)) in H by exact E.
    rewrite (bool_decide_eq_false_2 (_ = _)) by exact E.
    bind_inv H. injection H as <-.
    apply log_workflow_event_Ok in Ha0
      as (type' & from' & to' & worker' & Hty & Hfrom & Hto & Hw & Hid & _ & ->).
    injection Hty as <-. simpl.
    split; [reflexivity|]. split; [reflexivity|].
    eexists. split; [reflexivity|]. simpl.
    split; [exact Hid|]. repeat (split; [first [reflexivity | assumption]|]).
    split; [|split; [exact Hw | repeat split]].
    apply updated_Ok in Ha as (_ & Hstage & _).
    apply assign_Ok in Hstage as [[_ Hs]|[_ Hs]]; [congruence|].
    simpl in Hto. rewrite (varchar_stored _ _ _ Hs) in Hto.
    injection Hto as <-. reflexivity.
Qed.

(** When that statement completes. *)
Lemma update_automations_completes srv p_id set d OLD assigned :
  automations_table d !! p_id = Some OLD ->
  automations.updated OLD (set OLD) = Ok assigned ->
  (automations.stage OLD = automations.stage assigned
   \/ ((String.length (automations.stage OLD) <= 50)%nat
       /\ fits 100 (automations.assigned_worker assigned)
       /\ gen_random_uuid srv
          ∉ map workflow_events.id (workflow_events_table d))) ->
  exists d', update_automations srv p_id set d = Ok d'.
Proof.
  intros Hold Hup Hlog. unfold update_automations. rewrite Hold, Hup.
  cbn [bind]. cbv zeta. unfold track_stage_changes.
  change (automations.stage (update_updated_at_column srv assigned))
    with (automations.stage assigned).
  destruct (decide (automations.stage OLD = automations.stage assigned)) as [E|E].
  - rewrite (bool_decide_eq_false_2 (_ ≠ _)) by (intros H'; exact (H' E)).
    eexists. reflexivity.
  - rewrite (bool_decide_eq_true_2 (_ ≠ _)) by exact E.
    destruct Hlog as [Hlog|(Hfrom & Hw & Hid)]; [contradiction|].
    assert (Hto : (String.length (automations.stage assigned) <= 50)%nat).
    { apply updated_Ok in Hup as (_ & Hstage & _).
      eapply assign_fits; eassumption. }
    unfold log_workflow_event.
    change (varchar 50 "stage_changed") with (Ok (A:=string) "stage_changed").
    cbn [bind varchar_null].
    rewrite (varchar_fits _ _ Hfrom), (varchar_fits _ _ Hto).
    change (automations.assigned_worker (update_updated_at_column srv assigned))
      with (automations.assigned_worker assigned).
    rewrite (varchar_null_fits _ _ Hw). cbn [bind]. cbv zeta.
    cbn [workflow_events_table with_automations automations_table].
    rewrite (bool_decide_eq_false_2 _ Hid).
    rewrite lookup_insert_eq. cbn [bind]. eexists. reflexivity.
Qed.

Lemma update_automations_raises srv p_id set d OLD e :
  automations_table d !! p_id = Some OLD ->
  automations.updated OLD (set OLD) = Raise e ->
  update_automations srv p_id set d = Raise e.
Proof.
  intros Hold Hup. unfold update_automations. rewrite Hold, Hup. reflexivity.
Qed.

Lemma update_automations_missing srv p_id set d :
  automations_table d !! p_id = None -> update_automations srv p_id set d = Ok d.
Proof. intros H. unfold update_automations. rewrite H. reflexivity. Qed.

(** C3. An update of an item whose [SET] list holds a value that does not
    fit its column raises.  Otherwise, when the stage it stores is the
    stage the item was in, the update replaces the row and appends no
    event; when the stage changes, it replaces the row and appends
    exactly one [stage_changed] event for the item, with [from_stage] the
    stage before and [to_stage] the stage after the update (unless the id
    generated for the event is taken, which raises).  The stage after the
    update is the one of the [SET] list, as [VARCHAR(50)] stores it. *)
Theorem stage_change_logged_once srv p_id set d OLD :
  automations_table d !! p_id = Some OLD ->
  stored OLD ->
  match automations.updated OLD (set OLD) with
  | Raise e => update_automations srv p_id set d = Raise e
  | Ok assigned =>
      let NEW := update_updated_at_column srv assigned in
      let written := with_automations (<[p_id := NEW]> (automations_table d)) d in
      varchar 50 (automations.stage (set OLD)) = Ok (automations.stage NEW)
      /\ if bool_decide (automations.stage OLD = automations.stage NEW)
         then update_automations srv p_id set d = Ok written
         else if bool_decide (gen_random_uuid srv
                              ∈ map workflow_events.id (workflow_events_table d))
         then update_automations srv p_id set d = Raise unique_violation
         else exists e,
             update_automations srv p_id set d
             = Ok (with_workflow_events (workflow_events_table d ++ [e]) written)
             /\ workflow_events.automation_id e = p_id
             /\ workflow_events.event_type e = "stage_changed"
             /\ workflow_events.from_stage e = Some (automations.stage OLD)
             /\ workflow_events.to_stage e = Some (automations.stage NEW)
  end.
Proof.
  intros Hold Hstored.
  destruct (automations.updated OLD (set OLD)) as [assigned|err] eqn:Hup;
    [|apply (update_automations_raises _ _ _ _ OLD); assumption].
  cbv zeta.
  change (automations.stage (update_updated_at_column srv assigned))
    with (automations.stage assigned).
  pose proof (updated_Ok _ _ _ Hup) as (_ & Hstage & Hworker & _ & _ & _ & _ & Hst).
  specialize (Hst Hstored).
  destruct Hstored as (_ & Hfrom & _ & _ & _ & _ & Hw & _).
  destruct Hst as (_ & Hto & _ & _ & _ & _ & Hw' & _).
  split.
  { apply assign_Ok in Hstage as [[-> ->]|[_ Hs]]; [|exact Hs].
    apply varchar_fits, Hfrom. }
  unfold update_automations. rewrite Hold, Hup. cbn [bind]. cbv zeta.
  unfold track_stage_changes.
  change (automations.stage (update_updated_at_column srv assigned))
    with (automations.stage assigned).
  destruct (decide (automations.stage OLD = automations.stage assigned)) as [E|E].
  - rewrite (bool_decide_eq_false_2 (_ ≠ _)) by (intros H'; exact (H' E)).
    rewrite (bool_decide_eq_true_2 (_ = _)) by exact E. reflexivity.
  - rewrite (bool_decide_eq_true_2 (_ ≠ _)) by exact E.
    rewrite (bool_decide_eq_false_2 (_ = _)) by exact E.
    unfold log_workflow_event.
    change (varchar 50 "stage_changed") with (Ok (A:=string) "stage_changed").
    cbn [bind varchar_null].
    rewrite (varchar_fits _ _ Hfrom), (varchar_fits _ _ Hto).
    change (automations.assigned_worker (update_updated_at_column srv assigned))
      with (automations.assigned_worker assigned).
    rewrite (varchar_null_fits _ _ Hw'). cbn [bind]. cbv zeta.
    cbn [workflow_events_table with_automations automations_table].
    destruct (bool_decide (gen_random_uuid srv
                           ∈ map workflow_events.id (workflow_events_table d)));
      [reflexivity|].
    rewrite lookup_insert_eq. cbn [bind]. eexists.
    split; [reflexivity|]. repeat split.
Qed.

Lemma invoice_stored : stored invoice.
Proof. unfold stored, invoice, fits. simpl. unfold int4_min, int4_max. lia. Qed.

Lemma stage_change_logged_once_witness :
  exists e,
    update_automations (day1 300 9%N) 7%N (automations.with_stage "New") done_db
    = Ok (with_workflow_events [e]
            (with_automations
               {[ 7%N := update_updated_at_column (day1 300 9%N)
                           (automations.with_stage "New" invoice) ]} done_db))
    /\ workflow_events.automation_id e = 7%N
    /\ workflow_events.event_type e = "stage_changed"
    /\ workflow_events.from_stage e = Some "Done"
    /\ workflow_events.to_stage e = Some "New".
Proof.
  pose proof (stage_change_logged_once (day1 300 9%N) 7%N
                (automations.with_stage "New") done_db invoice
                (lookup_singleton_eq 7%N invoice) invoice_stored) as H.
  change (automations.updated invoice (automations.with_stage "New" invoice))
    with (Ok (automations.with_stage "New" invoice)) in H.
  cbv zeta in H. destruct H as [_ H].
  rewrite bool_decide_eq_false_2 in H by discriminate.
  rewrite bool_decide_eq_false_2 in H by (simpl; apply not_elem_of_nil).
  destruct H as (e & Hup & H). exists e. split; [|exact H].
  rewrite Hup. unfold done_db at 2. simpl. rewrite insert_singleton_eq.
  reflexivity.
Defined.

(** The trigger logs a move back from Done to New like any other stage
    change, with the row's (empty) [assigned_worker] as its [worker_id]:
    what the kanban page's [onChangeStage(id, "New")] asks of a finished
    item. *)
Lemma backward_stage_change_recorded :
  exists d' e,
    update_automations (day1 300 9%N) 7%N (automations.with_stage "New") done_db
    = Ok d'
    /\ workflow_events_table d' = [e]
    /\ workflow_events.event_type e = "stage_changed"
    /\ workflow_events.from_stage e = Some "Done"
    /\ workflow_events.to_stage e = Some "New"
    /\ workflow_events.worker_id e = None
    /\ stage_order "New" < stage_order "Done".
Proof.
  eexists. eexists. split; [vm_compute; reflexivity|].
  repeat split.
Qed.

(** *** One statement at a time *)

Lemma execute_INSERT d srv r :
  execute d (srv, INSERT_automations r) = d
  \/ exists row,
       automations.inserted r = Ok row
       /\ automations_table d !! gen_random_uuid srv = None
       /\ execute d (srv, INSERT_automations r)
          = with_automations (<[gen_random_uuid srv := row]> (automations_table d)) d.
Proof.
  unfold execute, run_statement, insert_automations. cbn [fst snd].
  destruct (automations.inserted r) as [row|]; [|left; reflexivity].
  cbn [bind]. cbv zeta.
  destruct (automations_table d !! gen_random_uuid srv) eqn:E;
    [left; reflexivity|].
  right. exists row. repeat split.
Qed.

Lemma execute_UPDATE d srv p_id set :
  execute d (srv, UPDATE_automations p_id set) = d
  \/ exists OLD d',
       automations_table d !! p_id = Some OLD
       /\ update_automations srv p_id set d = Ok d'
       /\ execute d (srv, UPDATE_automations p_id set) = d'.
Proof.
  unfold execute, run_statement. cbn [fst snd].
  destruct (automations_table d !! p_id) as [OLD|] eqn:Hold.
  - destruct (update_automations srv p_id set d) as [d'|] eqn:Hup;
      [|left; reflexivity].
    right. exists OLD, d'. repeat split.
  - rewrite (update_automations_missing _ _ _ _ Hold). left. reflexivity.
Qed.

Lemma execute_log d srv p_id type from to worker meta err :
  let x := (srv, SELECT_log_workflow_event p_id type from to worker meta err) in
  execute d x = d
  \/ exists e,
       execute d x = with_workflow_events (workflow_events_table d ++ [e]) d
       /\ is_Some (automations_table d !! p_id)
       /\ (gen_random_uuid srv ∉ map workflow_events.id (workflow_events_table d))
       /\ workflow_events.id e = gen_random_uuid srv
       /\ workflow_events.automation_id e = p_id
       /\ varchar 50 type = Ok (workflow_events.event_type e)
       /\ workflow_events.created_at e = NOW srv.
Proof.
  cbv zeta. unfold execute, run_statement. cbn [fst snd].
  destruct (log_workflow_event srv p_id type from to worker meta err d)
    as [logged|] eqn:Hlog; [|left; reflexivity].
  apply log_workflow_event_Ok in Hlog
    as (type' & from' & to' & worker' & Hty & _ & _ & _ & Hid & Hitem & ->).
  right. eexists. split; [reflexivity|]. repeat split; assumption.
Qed.

Lemma execute_stats d srv p_stage seconds success :
  let x := (srv, SELECT_update_workflow_stats p_stage seconds success) in
  automations_table (execute d x) = automations_table d
  /\ workflow_events_table (execute d x) = workflow_events_table d.
Proof.
  cbv zeta. unfold execute, run_statement. cbn [fst snd].
  destruct (update_workflow_stats srv p_stage seconds success
              (workflow_stats_table d)); split; reflexivity.
Qed.

(** *** Forward updates *)

Lemma execute_keeps_log_forward d x :
  leaves_stage_changes_to_trigger x.2 ->
  match x.2 with
  | UPDATE_automations p_id set =>
      match automations_table d !! p_id with
      | Some OLD => forward_move OLD (set OLD)
      | None => True
      end
  | _ => True
  end ->
  Forall forward_event (workflow_events_table d) ->
  Forall forward_event (workflow_events_table (execute d x)).
Proof.
  destruct x as [srv [r|p_id set|p_id|p_id type from to worker meta err|p s b]];
    cbn [fst snd leaves_stage_changes_to_trigger]; intros Hty Hmove Hlog.
  - destruct (execute_INSERT d srv r) as [-> | (row & _ & _ & ->)]; exact Hlog.
  - destruct (execute_UPDATE d srv p_id set) as [-> | (OLD & d' & Hold & Hup & ->)];
      [exact Hlog|].
    rewrite Hold in Hmove.
    destruct (update_automations_Ok _ _ _ _ _ _ Hold Hup)
      as (assigned & Hassigned & _ & _ & Hev).
    destruct (decide (automations.stage OLD = automations.stage assigned)) as [E|E].
    + rewrite (bool_decide_eq_true_2 _ E) in Hev. rewrite Hev. exact Hlog.
    + rewrite (bool_decide_eq_false_2 _ E) in Hev.
      destruct Hev as (e & -> & _ & _ & _ & _ & Hfrom & Hto & _).
      apply Forall_app. split; [exact Hlog|].
      constructor; [|constructor]. intros _.
      apply varchar_null_Ok in Hfrom as [_ (from' & Hfrom & Hf)].
      exists from', (automations.stage assigned).
      split; [exact Hfrom|]. split; [exact Hto|].
      rewrite (stage_order_varchar _ _ Hf).
      apply updated_Ok in Hassigned as (_ & Hstage & _).
      apply assign_Ok in Hstage as [[_ Hs]|[Hne Hs]]; [congruence|].
      rewrite (stage_order_varchar _ _ Hs).
      destruct Hmove as [Hsame|Hlt]; [contradiction | exact Hlt].
  - unfold execute. simpl. apply Forall_forall. intros e He.
    apply list_elem_of_filter in He as [_ He].
    rewrite Forall_forall in Hlog. apply Hlog, He.
  - destruct (execute_log d srv p_id type from to worker meta err)
      as [-> | (e & -> & _ & _ & _ & _ & Hty' & _)]; [exact Hlog|].
    apply Forall_app. split; [exact Hlog|].
    constructor; [|constructor]. intros Hsc. exfalso. apply Hty.
    apply (varchar_stage_changed _ _ Hty'), Hsc.
  - rewrite (proj2 (execute_stats d srv p s b)). exact Hlog.
Qed.

Lemma execute_never_moves_back d x i r r' :
  match x.2 with
  | UPDATE_automations p_id set =>
      match automations_table d !! p_id with
      | Some OLD => forward_move OLD (set OLD)
      | None => True
      end
  | _ => True
  end ->
  automations_table d !! i = Some r ->
  automations_table (execute d x) !! i = Some r' ->
  stage_order (automations.stage r) <= stage_order (automations.stage r').
Proof.
  assert (Hsame : automations_table d !! i = Some r ->
                  automations_table d !! i = Some r' ->
                  stage_order (automations.stage r)
                  <= stage_order (automations.stage r')).
  { intros H1 H2. rewrite H1 in H2. injection H2 as <-. apply Z.le_refl. }
  destruct x as [srv [r0|p_id set|p_id|p_id type from to worker meta err|p s b]];
    cbn [fst snd]; intros Hmove Hr Hr'.
  - destruct (execute_INSERT d srv r0) as [E | (row & _ & Hfresh & E)];
      rewrite E in Hr'; [exact (Hsame Hr Hr')|].
    simpl in Hr'. rewrite lookup_insert_ne in Hr' by congruence.
    exact (Hsame Hr Hr').
  - destruct (execute_UPDATE d srv p_id set) as [E | (OLD & d' & Hold & Hup & E)];
      rewrite E in Hr'; [exact (Hsame Hr Hr')|].
    rewrite Hold in Hmove.
    destruct (update_automations_Ok _ _ _ _ _ _ Hold Hup)
      as (assigned & Hassigned & Htbl & _).
    rewrite Htbl in Hr'. destruct (decide (p_id = i)) as [<-|Hne].
    + rewrite lookup_insert_eq in Hr'. injection Hr' as <-.
      rewrite Hold in Hr. injection Hr as <-.
      change (automations.stage (update_updated_at_column srv assigned))
        with (automations.stage assigned).
      apply updated_Ok in Hassigned as (_ & Hstage & _).
      apply assign_Ok in Hstage as [[_ ->]|[_ Hs]]; [apply Z.le_refl|].
      rewrite (stage_order_varchar _ _ Hs).
      destruct Hmove as [->|Hlt]; [apply Z.le_refl | apply Z.lt_le_incl, Hlt].
    + rewrite lookup_insert_ne in Hr' by exact Hne. exact (Hsame Hr Hr').
  - unfold execute in Hr'. simpl in Hr'.
    apply lookup_delete_Some in Hr' as [_ Hr']. exact (Hsame Hr Hr').
  - destruct (execute_log d srv p_id type from to worker meta err)
      as [E | (e & E & _)]; rewrite E in Hr'; exact (Hsame Hr Hr').
  - rewrite (proj1 (execute_stats d srv p s b)) in Hr'. exact (Hsame Hr Hr').
Qed.

Lemma execute_all_snoc history x d :
  execute_all (history ++ [x]) d = execute (execute_all history d) x.
Proof. unfold execute_all. rewrite fold_left_app. reflexivity. Qed.

Lemma forward_history history d :
  Forall forward_event (workflow_events_table d) ->
  Forall (fun x => leaves_stage_changes_to_trigger x.2) history ->
  moves_forward history d ->
  Forall forward_event (workflow_events_table (execute_all history d))
  /\ forall done x rest i r r',
       history = done ++ x :: rest ->
       automations_table (execute_all done d) !! i = Some r ->
       automations_table (execute_all (done ++ [x]) d) !! i = Some r' ->
       stage_order (automations.stage r) <= stage_order (automations.stage r').
Proof.
  revert d. induction history as [|y history IH]; intros d Hlog Hty Hmove.
  - split; [exact Hlog|]. intros done x rest i r r' E.
    destruct done; discriminate.
  - apply Forall_cons in Hty as [Hy Hty]. destruct Hmove as [Hmy Hmove].
    destruct (IH (execute d y)) as [IH1 IH2];
      [apply execute_keeps_log_forward; assumption | exact Hty | exact Hmove |].
    split; [exact IH1|].
    intros done x rest i r r' E. destruct done as [|z done].
    + injection E as <- <-. apply execute_never_moves_back. exact Hmy.
    + injection E as <- ->. apply (IH2 done x rest i r r'). reflexivity.
Qed.

(** C2, as the schema has it.  Nothing in the schema orders the stages:
    the trigger records a stage change in whichever direction an update
    moves the item.  In a history of statements on an empty database that
    leaves the [stage_changed] events to the trigger and in which every
    update moves its item forward along New, Classification, Data
    Extraction, Processing, Done (any other stage counts as last) or
    leaves its stage, every [stage_changed] event of the log goes
    forward, and no statement moves an item to an earlier stage. *)
Theorem forward_updates_keep_log_forward (history : list (server * statement)) :
  Forall (fun x => leaves_stage_changes_to_trigger x.2) history ->
  moves_forward history empty_database ->
  Forall forward_event
    (workflow_events_table (execute_all history empty_database))
  /\ forall done x rest i r r',
       history = done ++ x :: rest ->
       automations_table (execute_all done empty_database) !! i = Some r ->
       automations_table (execute_all (done ++ [x]) empty_database) !! i
       = Some r' ->
       stage_order (automations.stage r) <= stage_order (automations.stage r').
Proof.
  intros Hty Hmove. apply forward_history; [constructor | exact Hty | exact Hmove].
Qed.

Lemma sample_history_moves_forward : moves_forward sample_history empty_database.
Proof.
  unfold sample_history. simpl. repeat split.
  - vm_compute. right. reflexivity.
  - vm_compute. right. reflexivity.
Qed.

Lemma forward_updates_witness :
  Forall forward_event
    (workflow_events_table (execute_all sample_history empty_database)).
Proof.
  refine (proj1 (forward_updates_keep_log_forward sample_history _
                   sample_history_moves_forward)).
  repeat constructor. simpl. discriminate.
Defined.

(** ** The recent activity view *)

#[global] Instance newer_first_total : Total newer_first.
Proof. intros x y. unfold newer_first. lia. Qed.

#[global] Instance newer_first_trans : Transitive newer_first.
Proof. intros x y z. unfold newer_first. lia. Qed.



(** With the foreign key in force, every event is a joined row. *)
Lemma joined_all_events d :
  Forall (fun we => is_Some (automations_table d !! workflow_events.automation_id we))
    (workflow_events_table d) ->
  length (joined d) = length (workflow_events_table d).
Proof.
  unfold joined. induction 1 as [|we l [item Hitem] _ IH]; [reflexivity|].
  simpl. rewrite Hitem. simpl. f_equal. exact IH.
Qed.


(** ** Claiming the next item *)

#[global] Instance older_first_total : Total ItemStore.older_first.
Proof.
  intros [i x] [j y]. unfold ItemStore.older_first, ItemStore.created_before.
  simpl. destruct (automations.created_at x) as [tx|],
           (automations.created_at y) as [ty|].
  - destruct (Z.lt_total tx ty) as [H|[->|H]]; [left; left; exact H| |right; left; exact H].
    destruct (N.le_ge_cases i j) as [H|H];
      [left | right]; right; (split; [reflexivity | exact H]).
  - left. left. exact I.
  - right. left. exact I.
  - destruct (N.le_ge_cases i j) as [H|H];
      [left | right]; right; (split; [reflexivity | exact H]).
Qed.

#[global] Instance older_first_trans : Transitive ItemStore.older_first.
Proof.
  intros [i x] [j y] [k z]. unfold ItemStore.older_first, ItemStore.created_before.
  simpl. destruct (automations.created_at x) as [tx|],
           (automations.created_at y) as [ty|],
           (automations.created_at z) as [tz|];
    intros [H1|[H1 H1']] [H2|[H2 H2']];
    try contradiction; try discriminate;
    try (left; first [exact I | lia]);
    try (injection H1 as ->); try (injection H2 as ->);
    try (left; assumption);
    right; (split; [reflexivity | lia]).
Qed.

Lemma queue_items stage d i r :
  (i, r) ∈ ItemStore.queue stage d <->
  automations_table d !! i = Some r /\ ItemStore.unclaimed_in stage r = true.
Proof.
  unfold ItemStore.queue. rewrite merge_sort_Permutation.
  rewrite list_elem_of_filter, elem_of_map_to_list. simpl. tauto.
Qed.

Lemma queue_sorted stage d :
  StronglySorted ItemStore.older_first (ItemStore.queue stage d).
Proof. apply StronglySorted_merge_sort; apply _. Qed.

(** An update that leaves every column but [assigned_worker] and the
    timestamps stores the [SET] list's row with the worker as
    [VARCHAR(100)] stores it. *)
Lemma updated_claim (workerId : string) (now : timestamptz) (r : automations.row) :
  automations.assigned_worker r <> Some workerId ->
  automations.updated r (ItemStore.claim_set workerId now r)
  = (worker <-- varchar 100 workerId ;; Ok (ItemStore.claim_set worker now r)).
Proof.
  intros Hw. unfold automations.updated. destruct r. simpl in *.
  rewrite !assign_same, !assign_null_same, assign_int4_same. cbn [bind].
  unfold assign_null. rewrite bool_decide_eq_false_2 by congruence.
  simpl. destruct (varchar 100 workerId); reflexivity.
Qed.

(** An update that keeps the stage writes the stamped row and logs
    nothing. *)
Lemma update_automations_same_stage srv p_id set d OLD assigned :
  automations_table d !! p_id = Some OLD ->
  automations.updated OLD (set OLD) = Ok assigned ->
  automations.stage assigned = automations.stage OLD ->
  update_automations srv p_id set d
  = Ok (with_automations
          (<[p_id := update_updated_at_column srv assigned]> (automations_table d))
          d).
Proof.
  intros Hold Hup Hstage. unfold update_automations, track_stage_changes.
  rewrite Hold, Hup. cbn [bind]. cbv zeta.
  change (automations.stage (update_updated_at_column srv assigned))
    with (automations.stage assigned).
  rewrite bool_decide_eq_false_2; [reflexivity|].
  intros H. apply H. symmetry. exact Hstage.
Qed.

Lemma unclaimed_not_held stage r (workerId : string) :
  ItemStore.unclaimed_in stage r = true ->
  automations.assigned_worker r <> Some workerId.
Proof.
  unfold ItemStore.unclaimed_in. intros H.
  apply andb_true_iff in H as [_ H]. apply bool_decide_eq_true in H.
  rewrite H. discriminate.
Qed.

Lemma claim_written srv stage workerId worker i r d :
  automations_table d !! i = Some r ->
  ItemStore.unclaimed_in stage r = true ->
  varchar 100 workerId = Ok worker ->
  ItemStore.compare_and_set srv i (ItemStore.unclaimed_in stage)
    (ItemStore.claim_set workerId (NOW srv)) d
  = Ok (true,
        with_automations
          (<[i := update_updated_at_column srv
                    (ItemStore.claim_set worker (NOW srv) r)]>
             (automations_table d))
          d).
Proof.
  intros Hr Hun Hw. unfold ItemStore.compare_and_set. rewrite Hr, Hun.
  rewrite (update_automations_same_stage _ _ _ _ r
             (ItemStore.claim_set worker (NOW srv) r) Hr).
  - reflexivity.
  - rewrite updated_claim by (eapply unclaimed_not_held; exact Hun).
    rewrite Hw. reflexivity.
  - reflexivity.
Qed.

Lemma claim_raises srv stage workerId e i r d :
  automations_table d !! i = Some r ->
  ItemStore.unclaimed_in stage r = true ->
  varchar 100 workerId = Raise e ->
  ItemStore.compare_and_set srv i (ItemStore.unclaimed_in stage)
    (ItemStore.claim_set workerId (NOW srv)) d
  = Raise e.
Proof.
  intros Hr Hun Hw. unfold ItemStore.compare_and_set. rewrite Hr, Hun.
  rewrite (update_automations_raises _ _ _ _ r e Hr); [reflexivity|].
  rewrite updated_claim by (eapply unclaimed_not_held; exact Hun).
  rewrite Hw. reflexivity.
Qed.


(** C6. When [claimNext(stage, workerId)] returns an item, that item was
    unclaimed in the stage and is the oldest such item by creation time
    (an item without a creation time after those that have one), ties
    broken by id, and the claim wrote only that row, with the worker's id
    as [VARCHAR(100)] stores it; when the stage has no unclaimed item it
    returns none and leaves the state as it was.  It raises only when
    there is an item to claim and the worker's id does not fit
    [VARCHAR(100)]. *)
Theorem claimNext_oldest_first srv stage workerId d :
  match ItemStore.claimNext srv stage workerId d with
  | Ok (Some i, d') =>
      exists r worker,
        automations_table d !! i = Some r
        /\ ItemStore.unclaimed_in stage r = true
        /\ (forall j rj,
              automations_table d !! j = Some rj ->
              ItemStore.unclaimed_in stage rj = true ->
              ItemStore.created_before (automations.created_at r)
                (automations.created_at rj)
              \/ (automations.created_at r = automations.created_at rj
                  /\ (i <= j)%N))
        /\ varchar 100 workerId = Ok worker
        /\ d' = with_automations
                  (<[i := update_updated_at_column srv
                            (ItemStore.claim_set worker (NOW srv) r)]>
                     (automations_table d))
                  d
  | Ok (None, d') =>
      d' = d
      /\ forall j rj,
           automations_table d !! j = Some rj ->
           ItemStore.unclaimed_in stage rj = false
  | Raise e =>
      varchar 100 workerId = Raise e
      /\ exists i r,
           automations_table d !! i = Some r
           /\ ItemStore.unclaimed_in stage r = true
  end.
Proof.
  unfold ItemStore.claimNext.
  pose proof (queue_sorted stage d) as Hsorted.
  pose proof (queue_items stage d) as Hitems.
  destruct (ItemStore.queue stage d) as [|[i r] rest].
  - split; [reflexivity|]. intros j rj Hj.
    destruct (ItemStore.unclaimed_in stage rj) eqn:E; [|reflexivity].
    exfalso. assert (H : (j, rj) ∈ @nil (uuid * automations.row)).
    { apply Hitems. split; assumption. }
    inversion H.
  - destruct (proj1 (Hitems i r) (list_elem_of_here _ _)) as [Hr Hun].
    destruct (varchar 100 workerId) as [worker|e] eqn:Hw.
    + rewrite (claim_written srv stage workerId worker i r d Hr Hun Hw). simpl.
      exists r, worker. repeat split; try assumption.
      intros j rj Hj Hunj.
      assert (Hin : (j, rj) ∈ (i, r) :: rest) by (apply Hitems; split; assumption).
      apply elem_of_cons in Hin as [Heq|Hin].
      * injection Heq as -> ->. right. split; [reflexivity | lia].
      * apply StronglySorted_inv in Hsorted as [_ Hhd].
        rewrite Forall_forall in Hhd. exact (Hhd _ Hin).
    + rewrite (claim_raises srv stage workerId e i r d Hr Hun Hw). simpl.
      split; [reflexivity|]. exists i, r. split; assumption.
Qed.

(** ** The log only grows *)

Lemma only_appends_refl d : only_appends d d.
Proof. split; reflexivity. Qed.

Lemma only_appends_trans d1 d2 d3 :
  only_appends d1 d2 -> only_appends d2 d3 -> only_appends d1 d3.
Proof.
  intros [Hp1 Hd1] [Hp2 Hd2]. split.
  - etransitivity; eassumption.
  - rewrite Hd2. exact Hd1.
Qed.

Lemma update_automations_only_appends srv p_id set d d' :
  update_automations srv p_id set d = Ok d' -> only_appends d d'.
Proof.
  intros Hup.
  destruct (automations_table d !! p_id) as [OLD|] eqn:Hold.
  - destruct (update_automations_Ok srv p_id set d d' OLD Hold Hup)
      as (assigned & _ & Htbl & _ & Hev).
    split.
    + destruct (bool_decide _).
      * rewrite Hev. reflexivity.
      * destruct Hev as (e & -> & _). apply prefix_app_r. reflexivity.
    + rewrite Htbl. apply dom_insert_lookup_L. eexists. exact Hold.
  - rewrite (update_automations_missing _ _ _ _ Hold) in Hup.
    injection Hup as <-. apply only_appends_refl.
Qed.

Lemma log_workflow_event_only_appends srv p_id type from to worker meta err d r :
  log_workflow_event srv p_id type from to worker meta err d = Ok r ->
  only_appends d r.2.
Proof.
  intros H. apply log_workflow_event_Ok in H
    as (type' & from' & to' & worker' & _ & _ & _ & _ & _ & _ & ->).
  split; simpl.
  - apply prefix_app_r. reflexivity.
  - reflexivity.
Qed.

Lemma compare_and_set_only_appends srv p_id expected set d r :
  ItemStore.compare_and_set srv p_id expected set d = Ok r ->
  only_appends d r.2.
Proof.
  unfold ItemStore.compare_and_set.
  destruct (automations_table d !! p_id) as [x|].
  - destruct (expected x).
    + intros H. bind_inv H. injection H as <-. simpl.
      eapply update_automations_only_appends. eassumption.
    + intros H. injection H as <-. apply only_appends_refl.
  - intros H. injection H as <-. apply only_appends_refl.
Qed.

Lemma run_only_appends srv op d d' :
  ItemStore.run srv op d = Ok d' -> only_appends d d'.
Proof.
  destruct op; simpl; intros H; bind_inv H; injection H as <-.
  - unfold ItemStore.claimNext in Ha.
    destruct (ItemStore.queue stage d) as [|[i x] rest].
    + injection Ha as <-. apply only_appends_refl.
    + bind_inv Ha. injection Ha as <-. simpl.
      eapply compare_and_set_only_appends. eassumption.
  - unfold ItemStore.transition in Ha. bind_inv Ha. injection Ha as <-. simpl.
    eapply compare_and_set_only_appends. eassumption.
  - unfold ItemStore.recordFailure in Ha.
    destruct (automations_table d !! p_id) as [x|].
    + destruct (bool_decide _).
      * bind_inv Ha. bind_inv Ha. bind_inv Ha. injection Ha as <-. simpl.
        eapply only_appends_trans.
        -- eapply update_automations_only_appends. eassumption.
        -- eapply log_workflow_event_only_appends. eassumption.
      * injection Ha as <-. apply only_appends_refl.
    + injection Ha as <-. apply only_appends_refl.
  - unfold ItemStore.manualTransition in Ha. bind_inv Ha. injection Ha as <-.
    simpl. eapply compare_and_set_only_appends. eassumption.
  - split; reflexivity.
Qed.

(** C5. No core operation (claim, transition, failure record, manual
    override, statistics record) removes or changes an event that was
    written, and none deletes an item: after the operation the earlier
    log is a prefix of the log and the same items exist. *)
Theorem core_operations_only_append srv op d :
  workflow_events_table d
    `prefix_of` workflow_events_table (commit d (ItemStore.run srv op d))
  /\ dom (automations_table (commit d (ItemStore.run srv op d)))
     = dom (automations_table d).
Proof.
  destruct (ItemStore.run srv op d) as [d'|e] eqn:Hrun; simpl.
  - exact (run_only_appends srv op d d' Hrun).
  - apply only_appends_refl.
Qed.

(** X5. Deleting an item is CRUD outside the core: [ON DELETE CASCADE]
    then removes the item's events from the log. *)
Theorem delete_automations_cascades p_id d :
  automations_table (delete_automations p_id d) !! p_id = None
  /\ Forall (fun e => workflow_events.automation_id e <> p_id)
       (workflow_events_table (delete_automations p_id d)).
Proof.
  split; simpl.
  - apply lookup_delete_eq.
  - apply Forall_forall. intros e He.
    apply list_elem_of_filter in He as [Hne _]. exact Hne.
Qed.

(** ** One winner per item *)

Section claim_race.

Import ClaimRace.

Variable stage : string.
Variable i : uuid.
Variable workers : gset string.
Hypothesis workers_fit : forall w, w ∈ workers -> (String.length w <= 100)%nat.







End claim_race.




(** * Beyond the claims *)

(** ** The log agrees with the table *)

Lemma stage_changes_of_snoc i events e :
  stage_changes_of i (events ++ [e])
  = stage_changes_of i events
    ++ (if decide (workflow_events.automation_id e = i
                   /\ workflow_events.event_type e = "stage_changed")
        then [e] else []).
Proof. unfold stage_changes_of. rewrite filter_app. reflexivity. Qed.

Lemma stage_changes_of_elem i events e :
  e ∈ stage_changes_of i events ->
  e ∈ events /\ workflow_events.automation_id e = i
  /\ workflow_events.event_type e = "stage_changed".
Proof.
  unfold stage_changes_of. intros H.
  apply list_elem_of_filter in H as [[H1 H2] H3]. repeat split; assumption.
Qed.

Lemma stage_changes_of_deleted p_id i events :
  i <> p_id ->
  stage_changes_of i
    (filter (fun e => workflow_events.automation_id e <> p_id) events)
  = stage_changes_of i events.
Proof.
  intros Hne. unfold stage_changes_of. rewrite list_filter_filter.
  apply list_filter_iff. intros e. split.
  - intros [H _]. exact H.
  - intros [H1 H2]. repeat split; [assumption..|]. congruence.
Qed.

Lemma chained_snoc events e :
  chained events ->
  (forall e', last events = Some e' ->
     workflow_events.to_stage e' = workflow_events.from_stage e) ->
  chained (events ++ [e]).
Proof.
  induction events as [|a [|b rest] IH]; intros Hc Hlast.
  - exact I.
  - simpl. split; [|exact I]. apply Hlast. reflexivity.
  - destruct Hc as [Hab Hc].
    change (workflow_events.to_stage a = workflow_events.from_stage b
            /\ chained ((b :: rest) ++ [e])).
    split; [exact Hab|]. apply IH; [exact Hc|]. exact Hlast.
Qed.

Lemma log_consistent_automations d a :
  log_consistent d ->
  (forall i, is_Some (automations_table d !! i) -> is_Some (a !! i)) ->
  (forall i r, a !! i = Some r ->
     forall e, last (stage_changes_of i (workflow_events_table d)) = Some e ->
               workflow_events.to_stage e = Some (automations.stage r)) ->
  log_consistent (with_automations a d).
Proof.
  intros (H1 & _ & H3 & H4) Hkeys Hlast. repeat split; simpl.
  - intros e He. apply Hkeys, H1, He.
  - intros i r e Hi He. eapply Hlast; eassumption.
  - exact H3.
  - exact H4.
Qed.

(** The rows of [automations] stay rows the table can hold. *)
Lemma execute_keeps_stored d x : all_stored d -> all_stored (execute d x).
Proof.
  intros Hd.
  destruct x as [srv [r|p_id set|p_id|p_id type from to worker meta err|p s b]].
  - destruct (execute_INSERT d srv r) as [-> | (row & Hrow & _ & ->)]; [exact Hd|].
    intros i r0 Hi. simpl in Hi.
    destruct (decide (gen_random_uuid srv = i)) as [<-|Hne].
    + rewrite lookup_insert_eq in Hi. injection Hi as <-.
      apply (inserted_Ok _ _ Hrow).
    + rewrite lookup_insert_ne in Hi by exact Hne. exact (Hd _ _ Hi).
  - destruct (execute_UPDATE d srv p_id set) as [-> | (OLD & d' & Hold & Hup & ->)];
      [exact Hd|].
    destruct (update_automations_Ok _ _ _ _ _ _ Hold Hup)
      as (assigned & Hassigned & Htbl & _).
    intros i r0 Hi. rewrite Htbl in Hi.
    destruct (decide (p_id = i)) as [<-|Hne].
    + rewrite lookup_insert_eq in Hi. injection Hi as <-.
      apply updated_Ok in Hassigned as (_ & _ & _ & _ & _ & _ & _ & Hst).
      exact (Hst (Hd _ _ Hold)).
    + rewrite lookup_insert_ne in Hi by exact Hne. exact (Hd _ _ Hi).
  - intros i r0 Hi. unfold execute in Hi. simpl in Hi.
    apply lookup_delete_Some in Hi as [_ Hi]. exact (Hd _ _ Hi).
  - destruct (execute_log d srv p_id type from to worker meta err)
      as [-> | (e & -> & _)]; exact Hd.
  - intros i r0 Hi. rewrite (proj1 (execute_stats d srv p s b)) in Hi.
    exact (Hd _ _ Hi).
Qed.

Lemma insert_keeps_log_consistent srv r d :
  log_consistent d ->
  log_consistent (execute d (srv, INSERT_automations r)).
Proof.
  intros Hc.
  destruct (execute_INSERT d srv r) as [-> | (row & _ & Hfresh & ->)]; [exact Hc|].
  apply log_consistent_automations; [exact Hc|..].
  - intros i Hi. apply lookup_insert_is_Some'. right. exact Hi.
  - intros i r0 Hi e He.
    destruct (decide (gen_random_uuid srv = i)) as [<-|Hne].
    + exfalso. apply last_Some_elem_of, stage_changes_of_elem in He
        as (Hin & Hid & _).
      destruct Hc as (H1 & _). specialize (H1 e Hin). rewrite Hid, Hfresh in H1.
      destruct H1 as [? ?]. discriminate.
    + rewrite lookup_insert_ne in Hi by exact Hne.
      destruct Hc as (_ & H2 & _). eapply H2; eassumption.
Qed.

Lemma update_keeps_log_consistent srv p_id set d :
  all_stored d ->
  log_consistent d ->
  log_consistent (execute d (srv, UPDATE_automations p_id set)).
Proof.
  intros Hst Hc.
  destruct (execute_UPDATE d srv p_id set) as [-> | (OLD & d' & Hold & Hup & ->)];
    [exact Hc|].
  destruct (update_automations_Ok _ _ _ _ _ _ Hold Hup)
    as (assigned & _ & Htbl & _ & Hev).
  destruct Hc as (H1 & H2 & H3 & H4).
  assert (Hkeys : forall i, is_Some (automations_table d !! i) ->
                            is_Some (automations_table d' !! i)).
  { intros i Hi. rewrite Htbl. apply lookup_insert_is_Some'. right. exact Hi. }
  destruct (bool_decide (automations.stage OLD = automations.stage assigned))
    eqn:E.
  - apply bool_decide_eq_true in E. repeat split.
    + intros e He. rewrite Hev in He. apply Hkeys, H1, He.
    + intros i r e Hi He. rewrite Hev in He. rewrite Htbl in Hi.
      destruct (decide (p_id = i)) as [<-|Hne].
      * rewrite lookup_insert_eq in Hi. injection Hi as <-. simpl.
        rewrite <- E. eapply H2; eassumption.
      * rewrite lookup_insert_ne in Hi by exact Hne. eapply H2; eassumption.
    + intros i. rewrite Hev. apply H3.
    + intros e He. rewrite Hev in He. apply H4, He.
  - apply bool_decide_eq_false in E.
    destruct Hev as (e & Hev & _ & _ & Hid & Hty & Hfrom & Hto & _).
    simpl in Hfrom.
    rewrite (varchar_fits 50 (automations.stage OLD)) in Hfrom
      by apply (Hst _ _ Hold).
    injection Hfrom as Hfrom. symmetry in Hfrom.
    repeat split.
    + intros e' He'. rewrite Hev in He'. apply elem_of_app in He' as [He'|He'].
      * apply Hkeys, H1, He'.
      * apply list_elem_of_singleton in He' as ->. rewrite Hid, Htbl.
        apply lookup_insert_is_Some'. left. reflexivity.
    + intros i r e' Hi He'. rewrite Hev, stage_changes_of_snoc in He'.
      rewrite Htbl in Hi. destruct (decide (p_id = i)) as [<-|Hne].
      * rewrite lookup_insert_eq in Hi. injection Hi as <-.
        rewrite decide_True in He' by (split; assumption).
        rewrite last_snoc in He'. injection He' as <-. exact Hto.
      * rewrite lookup_insert_ne in Hi by exact Hne.
        rewrite decide_False in He' by (intros [? _]; congruence).
        rewrite app_nil_r in He'. eapply H2; eassumption.
    + intros i. rewrite Hev, stage_changes_of_snoc. case_decide as Hi.
      * destruct Hi as [Hi _]. apply chained_snoc; [apply H3|].
        intros e' He'. rewrite Hfrom. eapply H2; [|exact He'].
        rewrite <- Hi, Hid. exact Hold.
      * rewrite app_nil_r. apply H3.
    + intros e' He' Hty'. rewrite Hev in He'.
      apply elem_of_app in He' as [He'|He']; [apply H4; assumption|].
      apply list_elem_of_singleton in He' as ->. rewrite Hfrom, Hto.
      intros Heq. injection Heq as Heq. exact (E Heq).
Qed.

Lemma delete_keeps_log_consistent srv p_id d :
  log_consistent d ->
  log_consistent (execute d (srv, DELETE_automations p_id)).
Proof.
  intros (H1 & H2 & H3 & H4). unfold execute. simpl. repeat split; simpl.
  - intros e He. apply list_elem_of_filter in He as [Hne He].
    rewrite lookup_delete_ne by congruence. apply H1, He.
  - intros i r e Hi He. apply lookup_delete_Some in Hi as [Hne Hi].
    rewrite stage_changes_of_deleted in He by congruence.
    eapply H2; eassumption.
  - intros i. destruct (decide (i = p_id)) as [->|Hne].
    + assert (E : stage_changes_of p_id
                    (filter (fun e => workflow_events.automation_id e <> p_id)
                       (workflow_events_table d)) = []).
      { apply elem_of_nil_inv. intros e He.
        apply stage_changes_of_elem in He as (He & Hid & _).
        apply list_elem_of_filter in He as [Hne _]. exact (Hne Hid). }
      rewrite E. exact I.
    + rewrite stage_changes_of_deleted by exact Hne. apply H3.
  - intros e He. apply list_elem_of_filter in He as [_ He]. apply H4, He.
Qed.

Lemma log_keeps_log_consistent srv p_id type from to worker meta err d :
  type <> "stage_changed" ->
  log_consistent d ->
  log_consistent
    (execute d (srv, SELECT_log_workflow_event p_id type from to worker meta err)).
Proof.
  intros Hty (H1 & H2 & H3 & H4).
  destruct (execute_log d srv p_id type from to worker meta err)
    as [-> | (e & -> & Hitem & _ & _ & Hid & Hty' & _)];
    [repeat split; assumption|].
  assert (Hother : workflow_events.event_type e <> "stage_changed").
  { intros Hsc. apply Hty, (varchar_stage_changed _ _ Hty'), Hsc. }
  assert (Hsame : forall i,
            stage_changes_of i (workflow_events_table d ++ [e])
            = stage_changes_of i (workflow_events_table d)).
  { intros i. rewrite stage_changes_of_snoc. case_decide as H.
    - exfalso. apply Hother, H.
    - apply app_nil_r. }
  repeat split; simpl.
  - intros e' He'. apply elem_of_app in He' as [He'|He']; [apply H1, He'|].
    apply list_elem_of_singleton in He' as ->. rewrite Hid. exact Hitem.
  - intros i r0 e' Hi He'. rewrite Hsame in He'. eapply H2; eassumption.
  - intros i. rewrite Hsame. apply H3.
  - intros e' He' Hsc. apply elem_of_app in He' as [He'|He']; [apply H4; assumption|].
    apply list_elem_of_singleton in He' as ->. exfalso. exact (Hother Hsc).
Qed.

Lemma stats_keeps_log_consistent srv p_stage seconds success d :
  log_consistent d ->
  log_consistent
    (execute d (srv, SELECT_update_workflow_stats p_stage seconds success)).
Proof.
  intros Hc. unfold execute, run_statement. cbn [fst snd].
  destruct (update_workflow_stats srv p_stage seconds success
              (workflow_stats_table d)); simpl; exact Hc.
Qed.

Lemma execute_keeps_log_consistent d x :
  leaves_stage_changes_to_trigger x.2 ->
  all_stored d ->
  log_consistent d -> log_consistent (execute d x).
Proof.
  destruct x as [srv [r|p_id set|p_id|p_id type from to worker meta err|p s b]];
    simpl; intros Hty Hst Hc.
  - apply insert_keeps_log_consistent, Hc.
  - apply update_keeps_log_consistent; assumption.
  - apply delete_keeps_log_consistent, Hc.
  - apply log_keeps_log_consistent; assumption.
  - apply stats_keeps_log_consistent, Hc.
Qed.

(** X6. After any history of statements on an empty database (items
    inserted, updated through the triggers, deleted with the cascade,
    events logged by hand under another type than [stage_changed],
    statistics recorded), the log agrees with the table: every event
    refers to an item that exists, the stage changes of an item chain and
    the last one ends in the item's current stage, and no stage change
    goes from a stage to itself. *)
Theorem log_agrees_with_table (history : list (server * statement)) :
  Forall (fun x => leaves_stage_changes_to_trigger x.2) history ->
  log_consistent (execute_all history empty_database).
Proof.
  unfold execute_all.
  assert (H0 : log_consistent empty_database).
  { split; [|split; [|split]]; simpl.
    - intros e He. inversion He.
    - intros i r e Hi. rewrite lookup_empty in Hi. discriminate.
    - intros i. exact I.
    - intros e He. inversion He. }
  assert (H1 : all_stored empty_database).
  { intros i r Hi. simpl in Hi. rewrite lookup_empty in Hi. discriminate. }
  revert H0 H1. generalize empty_database as d.
  induction history as [|x history IH]; intros d Hd Hst Hall; [exact Hd|].
  apply Forall_cons in Hall as [Hx Hall]. simpl. apply IH; [| |exact Hall].
  - apply execute_keeps_log_consistent; assumption.
  - apply execute_keeps_stored, Hst.
Qed.

Lemma log_agrees_with_table_witness :
  Forall (fun x => leaves_stage_changes_to_trigger x.2) sample_history
  /\ log_consistent (execute_all sample_history empty_database).
Proof.
  assert (H : Forall (fun x => leaves_stage_changes_to_trigger x.2) sample_history).
  { repeat constructor. simpl. discriminate. }
  split; [exact H | exact (log_agrees_with_table sample_history H)].
Defined.

(** ** The overview adds up *)

Lemma column_sum_Permutation l l' : l ≡ₚ l' -> column_sum l = column_sum l'.
Proof.
  unfold column_sum. induction 1; simpl; lia.
Qed.

Lemma column_sum_fmap_add {A : Type} (g h : A -> Z) (ks : list A) :
  column_sum ((fun k => g k + h k) <$> ks)
  = column_sum (g <$> ks) + column_sum (h <$> ks).
Proof.
  unfold column_sum. induction ks as [|k ks IH]; csimpl; [reflexivity|].
  rewrite IH. lia.
Qed.

Lemma column_sum_indicator (ks : list string) (a : string) :
  NoDup ks ->
  column_sum ((fun k => if decide (a = k) then 1 else 0) <$> ks)
  = if decide (a ∈ ks) then 1 else 0.
Proof.
  unfold column_sum. induction 1 as [|k ks Hk Hnd IH]; csimpl.
  - reflexivity.
  - rewrite IH. destruct (decide (a = k)) as [->|Hne].
    + destruct (decide (k ∈ ks)); [contradiction|].
      destruct (decide (k ∈ k :: ks)) as [|Hn]; [reflexivity|].
      exfalso. apply Hn. left.
    + destruct (decide (a ∈ ks)) as [Hin|Hnin];
        destruct (decide (a ∈ k :: ks)) as [Hin'|Hnin']; try reflexivity.
      * exfalso. apply Hnin'. right. exact Hin.
      * exfalso. apply elem_of_cons in Hin' as [?|?]; contradiction.
Qed.

(** Counting the rows of every group counts every row once. *)
Lemma groups_count_every_row (rows : list automations.row) (ks : list string) :
  NoDup ks ->
  (forall r, r ∈ rows -> automations.stage r ∈ ks) ->
  column_sum
    ((fun k => Z.of_nat (length (filter (fun r => automations.stage r = k) rows)))
     <$> ks)
  = Z.of_nat (length rows).
Proof.
  intros Hnd. induction rows as [|x rows IH]; intros Hin.
  - clear Hin Hnd. unfold column_sum.
    induction ks as [|k ks IHk]; [reflexivity|].
    csimpl in *. rewrite IHk. reflexivity.
  - transitivity
      (column_sum
         ((fun k => Z.of_nat
                      (length (filter (fun r => automations.stage r = k) rows))
                    + (if decide (automations.stage x = k) then 1 else 0))
          <$> ks)).
    + f_equal. apply list_fmap_ext. intros _ k _. rewrite filter_cons.
      destruct (decide (automations.stage x = k)); simpl; lia.
    + rewrite column_sum_fmap_add, IH, (column_sum_indicator _ _ Hnd).
      * rewrite decide_True by (apply Hin; left). simpl length. lia.
      * intros r Hr. apply Hin. right. exact Hr.
Qed.

Lemma automations_rows_elem d r :
  r ∈ automations_rows d <-> exists i, automations_table d !! i = Some r.
Proof.
  unfold automations_rows. rewrite list_elem_of_fmap. split.
  - intros ([i r'] & -> & Hin). exists i. apply elem_of_map_to_list. exact Hin.
  - intros [i Hi]. exists (i, r). split; [reflexivity|].
    apply elem_of_map_to_list. exact Hi.
Qed.

#[global] Instance by_pipeline_position_total : Total by_pipeline_position.
Proof. intros x y. unfold by_pipeline_position. lia. Qed.

#[global] Instance by_pipeline_position_trans : Transitive by_pipeline_position.
Proof. intros x y z. unfold by_pipeline_position. lia. Qed.

Lemma overview_stages d :
  workflow_overview.stage <$> workflow_overview d
  ≡ₚ remove_dups (automations.stage <$> automations_rows d).
Proof.
  unfold workflow_overview. rewrite merge_sort_Permutation.
  rewrite <- list_fmap_compose.
  rewrite (list_fmap_ext _ id); [rewrite list_fmap_id; reflexivity|].
  intros _ s _. reflexivity.
Qed.

(** X7. [workflow_overview] has exactly one row for every stage that holds
    an item and none for a stage that holds no item, in pipeline order,
    and its [total_items] add up to the number of items. *)
Theorem workflow_overview_adds_up d :
  column_sum (workflow_overview.total_items <$> workflow_overview d)
  = Z.of_nat (size (automations_table d))
  /\ NoDup (workflow_overview.stage <$> workflow_overview d)
  /\ (forall s, s ∈ workflow_overview.stage <$> workflow_overview d
                <-> exists i r, automations_table d !! i = Some r
                                /\ automations.stage r = s)
  /\ StronglySorted
       (fun x y => stage_order (workflow_overview.stage x)
                   <= stage_order (workflow_overview.stage y))
       (workflow_overview d).
Proof.
  split; [|split; [|split]].
  - unfold workflow_overview.
    rewrite (column_sum_Permutation _ _
               (fmap_Permutation _ _ _ (merge_sort_Permutation _ _))).
    rewrite <- list_fmap_compose.
    rewrite <- length_map_to_list.
    replace (length (map_to_list (automations_table d)))
      with (length (automations_rows d))
      by (unfold automations_rows; apply length_fmap).
    rewrite <- (groups_count_every_row (automations_rows d)
                  (remove_dups (automations.stage <$> automations_rows d))).
    + f_equal.
    + apply NoDup_remove_dups.
    + intros r Hr. apply elem_of_remove_dups, list_elem_of_fmap_2, Hr.
  - rewrite overview_stages. apply NoDup_remove_dups.
  - intros s. rewrite overview_stages, elem_of_remove_dups, list_elem_of_fmap.
    split.
    + intros (r & -> & Hr). apply automations_rows_elem in Hr as [i Hi].
      exists i, r. split; [exact Hi | reflexivity].
    + intros (i & r & Hi & <-). exists r. split; [reflexivity|].
      apply automations_rows_elem. exists i. exact Hi.
  - apply (StronglySorted_merge_sort by_pipeline_position).
Qed.


Lemma sql_min_max_bounds (v : Z) (rest : list Z) (y : Z) :
  y ∈ v :: rest -> foldr Z.min v rest <= y <= foldr Z.max v rest.
Proof.
  induction rest as [|w rest IH]; simpl; intros Hy.
  - apply list_elem_of_singleton in Hy as ->. lia.
  - assert (H0 : foldr Z.min v rest <= v <= foldr Z.max v rest).
    { clear. induction rest; simpl; lia. }
    apply elem_of_cons in Hy as [->|Hy]; [lia|].
    apply elem_of_cons in Hy as [->|Hy]; [lia|].
    assert (y ∈ v :: rest) as Hy' by (right; exact Hy).
    specialize (IH Hy'). lia.
Qed.

Lemma sql_min_max_attained (v : Z) (rest : list Z) :
  foldr Z.min v rest ∈ v :: rest /\ foldr Z.max v rest ∈ v :: rest.
Proof.
  induction rest as [|w rest [IH1 IH2]]; simpl.
  - split; left.
  - split.
    + destruct (Z.min_spec w (foldr Z.min v rest)) as [[_ ->]|[_ ->]];
        [right; left|].
      apply elem_of_cons in IH1 as [->|IH1]; [left | right; right; exact IH1].
    + destruct (Z.max_spec w (foldr Z.max v rest)) as [[_ ->]|[_ ->]];
        [|right; left].
      apply elem_of_cons in IH2 as [->|IH2]; [left | right; right; exact IH2].
Qed.

Lemma omap_nil_iff {A B : Type} (f : A -> option B) (l : list A) :
  omap f l = [] <-> forall x, x ∈ l -> f x = None.
Proof.
  induction l as [|a l IH]; csimpl.
  - split; [intros _ x Hx; inversion Hx | reflexivity].
  - destruct (f a) eqn:Ha; simpl.
    + split; [discriminate|]. intros H. specialize (H a (list_elem_of_here _ _)).
      congruence.
    + rewrite IH. split.
      * intros H x Hx. apply elem_of_cons in Hx as [->|Hx]; [exact Ha | apply H, Hx].
      * intros H x Hx. apply H. right. exact Hx.
Qed.

Lemma processing_seconds_None r :
  processing_seconds r = None
  <-> automations.processing_started_at r = None
      \/ automations.processing_completed_at r = None.
Proof.
  unfold processing_seconds.
  destruct (automations.processing_started_at r),
           (automations.processing_completed_at r); split;
    try discriminate; try (intros [?|?]; discriminate); auto.
Qed.

(** X8. Every row of [workflow_overview] counts at least one item; its
    [currently_processing] and [items_with_retries] lie between zero and
    [total_items].  [oldest_item] and [newest_item] are NULL exactly when
    no item of the stage has a creation time; otherwise each is the
    creation time of an item of the stage, and they bound the creation
    time of every item of the stage that has one.  The average is NULL
    exactly when no item of the stage has both a start and a completion
    time. *)
Theorem workflow_overview_rows d :
  Forall
    (fun x =>
       let in_stage i r :=
         automations_table d !! i = Some r
         /\ automations.stage r = workflow_overview.stage x in
       1 <= workflow_overview.total_items x
       /\ 0 <= workflow_overview.currently_processing x
            <= workflow_overview.total_items x
       /\ 0 <= workflow_overview.items_with_retries x
            <= workflow_overview.total_items x
       /\ (workflow_overview.oldest_item x = None
           <-> forall i r, in_stage i r -> automations.created_at r = None)
       /\ (workflow_overview.newest_item x = None
           <-> forall i r, in_stage i r -> automations.created_at r = None)
       /\ (forall oldest,
             workflow_overview.oldest_item x = Some oldest ->
             (exists i r, in_stage i r /\ automations.created_at r = Some oldest)
             /\ forall i r t,
                  in_stage i r -> automations.created_at r = Some t ->
                  oldest <= t)
       /\ (forall newest,
             workflow_overview.newest_item x = Some newest ->
             (exists i r, in_stage i r /\ automations.created_at r = Some newest)
             /\ forall i r t,
                  in_stage i r -> automations.created_at r = Some t ->
                  t <= newest)
       /\ (workflow_overview.avg_processing_time_seconds x = None
           <-> forall i r,
                 in_stage i r ->
                 automations.processing_started_at r = None
                 \/ automations.processing_completed_at r = None))
    (workflow_overview d).
Proof.
  unfold workflow_overview. rewrite merge_sort_Permutation.
  apply Forall_fmap, Forall_forall. intros s Hs. simpl.
  apply elem_of_remove_dups, list_elem_of_fmap in Hs as (r0 & -> & Hr0).
  set (group := filter (fun r => automations.stage r = automations.stage r0)
                  (automations_rows d)).
  assert (Hgroup : forall i r,
            automations_table d !! i = Some r
            /\ automations.stage r = automations.stage r0 -> r ∈ group).
  { intros i r [Hi Hst]. apply list_elem_of_filter. split; [exact Hst|].
    apply automations_rows_elem. exists i. exact Hi. }
  assert (Hgroup' : forall r, r ∈ group ->
            exists i, automations_table d !! i = Some r
                      /\ automations.stage r = automations.stage r0).
  { intros r Hr. apply list_elem_of_filter in Hr as [Hst Hr].
    apply automations_rows_elem in Hr as [i Hi]. exists i. split; assumption. }
  assert (Hr0g : r0 ∈ group).
  { apply list_elem_of_filter. split; [reflexivity | exact Hr0]. }
  assert (Hlen : (1 <= length group)%nat).
  { destruct group; [inversion Hr0g | simpl; lia]. }
  assert (Hnull : omap automations.created_at group = []
                  <-> forall i r,
                        automations_table d !! i = Some r
                        /\ automations.stage r = automations.stage r0 ->
                        automations.created_at r = None).
  { rewrite omap_nil_iff. split.
    - intros H i r Hir. apply H. eapply Hgroup. exact Hir.
    - intros H r Hr. destruct (Hgroup' r Hr) as [i Hi]. eapply H. exact Hi. }
  assert (Htimes : forall t, t ∈ omap automations.created_at group
                     <-> exists i r,
                           (automations_table d !! i = Some r
                            /\ automations.stage r = automations.stage r0)
                           /\ automations.created_at r = Some t).
  { intros t. rewrite list_elem_of_omap. split.
    - intros (r & Hr & Ht). destruct (Hgroup' r Hr) as [i Hi].
      exists i, r. split; assumption.
    - intros (i & r & Hir & Ht). exists r. split; [eapply Hgroup; exact Hir | exact Ht]. }
  split; [lia|]. unfold count_when.
  split; [pose proof (length_filter
            (fun r => bool_decide (is_Some (automations.processing_started_at r))
                      && bool_decide (automations.processing_completed_at r = None)
                      = true) group); lia|].
  split; [pose proof (length_filter
            (fun r => match automations.retry_count r with
                      | Some retries => bool_decide (0 < retries)
                      | None => false
                      end = true) group);
          lia|].
  destruct (omap automations.created_at group) as [|t0 times] eqn:Et.
  - split; [split; [intros _; apply Hnull; reflexivity | reflexivity]|].
    split; [split; [intros _; apply Hnull; reflexivity | reflexivity]|].
    split; [discriminate|]. split; [discriminate|].
    unfold sql_avg.
    destruct (omap processing_seconds group) as [|q qs] eqn:Eo.
    + split; [|reflexivity]. intros _ i r Hir.
      apply processing_seconds_None.
      apply (proj1 (omap_nil_iff _ _) Eo). eapply Hgroup; eassumption.
    + split; [discriminate|]. intros H. exfalso.
      assert (Hall : omap processing_seconds group = []).
      { apply omap_nil_iff. intros r Hr. apply processing_seconds_None.
        destruct (Hgroup' r Hr) as [i Hi]. eapply H; eassumption. }
      congruence.
  - assert (Hsome : ~ forall i r,
                        automations_table d !! i = Some r
                        /\ automations.stage r = automations.stage r0 ->
                        automations.created_at r = None).
    { intros H. apply Hnull in H. discriminate. }
    split; [split; [discriminate | intros H; contradiction]|].
    split; [split; [discriminate | intros H; contradiction]|].
    simpl. split; [|split].
    + intros oldest H. injection H as <-. split.
      * apply Htimes, sql_min_max_attained.
      * intros i r t Hir Ht. apply sql_min_max_bounds, Htimes.
        exists i, r. split; assumption.
    + intros newest H. injection H as <-. split.
      * apply Htimes, sql_min_max_attained.
      * intros i r t Hir Ht.
        apply (sql_min_max_bounds t0 times t), Htimes.
        exists i, r. split; assumption.
    + unfold sql_avg.
      destruct (omap processing_seconds group) as [|q qs] eqn:Eo.
      * split; [|reflexivity]. intros _ i r Hir.
        apply processing_seconds_None.
        apply (proj1 (omap_nil_iff _ _) Eo). eapply Hgroup; eassumption.
      * split; [discriminate|]. intros H. exfalso.
        assert (Hall : omap processing_seconds group = []).
        { apply omap_nil_iff. intros r Hr. apply processing_seconds_None.
          destruct (Hgroup' r Hr) as [i Hi]. eapply H; eassumption. }
        congruence.
Qed.

(** A stage whose only item has no creation time: [oldest_item] and
    [newest_item] are NULL. *)
Example overview_without_creation_time :
  workflow_overview undated_db
  = [ {| workflow_overview.stage := "Done";
         workflow_overview.total_items := 1;
         workflow_overview.currently_processing := 0;
         workflow_overview.items_with_retries := 0;
         workflow_overview.avg_processing_time_seconds := None;
         workflow_overview.oldest_item := None;
         workflow_overview.newest_item := None |} ].
Proof. vm_compute. reflexivity. Qed.

(** ** From the log to the activity view *)



(** ** Every call is counted *)

Lemma round_half_away_bound (y : Q) (M : Z) :
  0 <= M -> (- inject_Z M <= y)%Q -> (y <= inject_Z M)%Q ->
  Z.abs (round_half_away y) <= M.
Proof.
  intros HM Hlo Hhi. destruct y as [n d].
  unfold round_half_away, Qle in *. simpl in *.
  assert (Hq : 0 <= (2 * Z.abs n + Z.pos d) / (2 * Z.pos d) <= M).
  { split.
    - apply Z.div_pos; lia.
    - apply Z.lt_succ_r. apply Z.div_lt_upper_bound; lia. }
  rewrite Z.abs_mul.
  destruct (Z.sgn_spec n) as [[? ->]|[[? ->]|[? ->]]]; simpl; lia.
Qed.

Lemma hundredths_inject_Z (h : Z) : (hundredths h == inject_Z h * (1 # 100))%Q.
Proof. unfold hundredths, Qeq. simpl. lia. Qed.

(** A value within the column's range is stored, rounded. *)
Lemma decimal_10_2_in_range (q : Q) :
  (- hundredths (decimal_10_2_limit - 1) <= q)%Q ->
  (q <= hundredths (decimal_10_2_limit - 1))%Q ->
  exists h, decimal_10_2 q = Ok h /\ Z.abs h < decimal_10_2_limit.
Proof.
  rewrite hundredths_inject_Z. intros Hlo Hhi.
  assert (Hb : Z.abs (round_half_away (q * 100)) <= decimal_10_2_limit - 1).
  { apply round_half_away_bound; [unfold decimal_10_2_limit; lia | |];
      revert Hlo Hhi; generalize (inject_Z (decimal_10_2_limit - 1));
      intros m Hlo Hhi; lra. }
  exists (round_half_away (q * 100)). unfold decimal_10_2. cbv zeta.
  destruct (Z.abs (round_half_away (q * 100)) <? decimal_10_2_limit) eqn:E;
    [split; [reflexivity | lia] | lia].
Qed.

Lemma pow10_pos (k : nat) : (0 < pow10 k)%Q.
Proof.
  unfold pow10. rewrite <- (Zlt_Qlt 0). apply Z.pow_pos_nonneg; lia.
Qed.

Lemma pow10_add (a b : nat) : (pow10 (a + b) == pow10 a * pow10 b)%Q.
Proof.
  unfold pow10. rewrite Nat2Z.inj_add, Z.pow_add_r by lia.
  rewrite inject_Z_mult. reflexivity.
Qed.

Lemma numeric_value_of_int (z : Z) : (numeric_value (numeric_of_int z) == inject_Z z)%Q.
Proof.
  unfold numeric_value, numeric_of_int. simpl.
  unfold Qeq, Qdiv, Qmult, Qinv. simpl. lia.
Qed.

Lemma numeric_value_of_decimal_10_2 (h : Z) :
  (numeric_value (numeric_of_decimal_10_2 h) == hundredths h)%Q.
Proof.
  unfold numeric_value, numeric_of_decimal_10_2, hundredths. simpl.
  unfold Qeq, Qdiv, Qmult, Qinv. simpl. lia.
Qed.

Lemma numeric_value_mul (x y : numeric) :
  (numeric_value (numeric_mul x y) == numeric_value x * numeric_value y)%Q.
Proof.
  unfold numeric_value, numeric_mul. cbn [unscaled dscale].
  fold (pow10 (dscale x + dscale y)) (pow10 (dscale x)) (pow10 (dscale y)).
  rewrite pow10_add, inject_Z_mult.
  pose proof (pow10_pos (dscale x)). pose proof (pow10_pos (dscale y)).
  field. split; lra.
Qed.

Lemma numeric_value_add (x y : numeric) :
  (numeric_value (numeric_add x y) == numeric_value x + numeric_value y)%Q.
Proof.
  unfold numeric_value, numeric_add. cbn [unscaled dscale].
  set (s := Nat.max (dscale x) (dscale y)).
  fold (pow10 s) (pow10 (dscale x)) (pow10 (dscale y)).
  assert (Ex : (pow10 s == pow10 (dscale x) * pow10 (s - dscale x))%Q).
  { rewrite <- pow10_add. replace (dscale x + (s - dscale x))%nat with s by lia.
    reflexivity. }
  assert (Ey : (pow10 s == pow10 (dscale y) * pow10 (s - dscale y))%Q).
  { rewrite <- pow10_add. replace (dscale y + (s - dscale y))%nat with s by lia.
    reflexivity. }
  rewrite inject_Z_plus, !inject_Z_mult.
  fold (pow10 (s - dscale x)) (pow10 (s - dscale y)).
  pose proof (pow10_pos (dscale x)) as Hx. pose proof (pow10_pos (dscale y)) as Hy.
  pose proof (pow10_pos (s - dscale x)) as Hax.
  pose proof (pow10_pos (s - dscale y)) as Hay.
  pose proof (pow10_pos s) as Hs.
  revert Ex Ey Hx Hy Hax Hay Hs.
  generalize (pow10 s) (pow10 (dscale x)) (pow10 (dscale y))
    (pow10 (s - dscale x)) (pow10 (s - dscale y))
    (inject_Z (unscaled x)) (inject_Z (unscaled y)).
  intros S X Y a b ux uy Ex Ey Hx Hy Hax Hay Hs.
  transitivity (ux * a / S + uy * b / S)%Q; [field; lra|].
  rewrite Ex at 1. rewrite Ey. field. repeat split; lra.
Qed.

(** Rounding to a scale of at least two keeps a value within the range of
    the column. *)
Lemma rounded_in_range (q : Q) (rscale : nat) :
  (2 <= rscale)%nat ->
  (- hundredths (decimal_10_2_limit - 1) <= q)%Q ->
  (q <= hundredths (decimal_10_2_limit - 1))%Q ->
  let rounded := {| unscaled := round_half_away (q * pow10 rscale);
                    dscale := rscale |} in
  (- hundredths (decimal_10_2_limit - 1) <= numeric_value rounded)%Q
  /\ (numeric_value rounded <= hundredths (decimal_10_2_limit - 1))%Q.
Proof.
  intros Hr Hlo Hhi rounded.
  set (M := decimal_10_2_limit - 1) in *.
  assert (HM : 0 <= M) by (unfold M, decimal_10_2_limit; lia).
  assert (E : (pow10 rscale == 100 * pow10 (rscale - 2))%Q).
  { replace rscale with (2 + (rscale - 2))%nat at 1 by lia.
    rewrite pow10_add. reflexivity. }
  pose proof (pow10_pos rscale) as Hp. pose proof (pow10_pos (rscale - 2)) as Hp2.
  assert (Hb : Z.abs (round_half_away (q * pow10 rscale))
               <= M * 10 ^ Z.of_nat (rscale - 2)).
  { apply round_half_away_bound.
    - apply Z.mul_nonneg_nonneg; [exact HM | apply Z.pow_nonneg; lia].
    - rewrite inject_Z_mult. fold (pow10 (rscale - 2)). rewrite E.
      rewrite hundredths_inject_Z in Hlo. revert Hlo Hp2.
      generalize (inject_Z M) (pow10 (rscale - 2)). intros m p Hlo Hp2. nra.
    - rewrite inject_Z_mult. fold (pow10 (rscale - 2)). rewrite E.
      rewrite hundredths_inject_Z in Hhi. revert Hhi Hp2.
      generalize (inject_Z M) (pow10 (rscale - 2)). intros m p Hhi Hp2. nra. }
  unfold numeric_value, rounded. cbn [unscaled dscale]. fold (pow10 rscale).
  apply Z.abs_le in Hb. destruct Hb as [Hb1 Hb2].
  rewrite Zle_Qle, inject_Z_opp, inject_Z_mult in Hb1.
  rewrite Zle_Qle, inject_Z_mult in Hb2.
  fold (pow10 (rscale - 2)) in Hb1, Hb2.
  rewrite !hundredths_inject_Z.
  set (z := inject_Z (round_half_away (q * pow10 rscale))) in *.
  clearbody z. clear Hlo Hhi rounded.
  revert Hb1 Hb2 E Hp Hp2.
  generalize (inject_Z M) (pow10 rscale) (pow10 (rscale - 2)).
  intros m P p Hb1 Hb2 E Hp Hp2. split.
  - apply Qle_shift_div_l; [exact Hp|].
    assert (E1 : (- (m * (1 # 100)) * P == - (m * p))%Q) by (rewrite E; ring).
    rewrite E1. exact Hb1.
  - apply Qle_shift_div_r; [exact Hp|].
    assert (E2 : (m * (1 # 100) * P == m * p)%Q) by (rewrite E; ring).
    rewrite E2. exact Hb2.
Qed.

Lemma decimal_digits_upto_pos (fuel : nat) (m : Z) :
  1 <= decimal_digits_upto fuel m.
Proof.
  revert m. induction fuel as [|fuel IH]; intros m; simpl; [lia|].
  destruct (m <? 10); [lia|]. specialize (IH (m / 10)). lia.
Qed.

Lemma decimal_digits_upto_spec (fuel : nat) (m : Z) :
  0 < m -> m < 2 ^ (Z.of_nat fuel + 1) ->
  10 ^ (decimal_digits_upto fuel m - 1) <= m < 10 ^ decimal_digits_upto fuel m.
Proof.
  revert m. induction fuel as [|fuel IH]; intros m Hpos Hlt.
  - simpl in *. lia.
  - cbn [decimal_digits_upto]. destruct (m <? 10) eqn:E.
    + apply Z.ltb_lt in E. simpl. lia.
    + apply Z.ltb_ge in E.
      assert (Hdiv : 0 < m / 10) by (apply Z.div_str_pos; lia).
      assert (Hlt' : m / 10 < 2 ^ (Z.of_nat fuel + 1)).
      { apply Z.div_lt_upper_bound; [lia|].
        replace (Z.of_nat (S fuel) + 1) with (Z.of_nat fuel + 1 + 1) in Hlt by lia.
        rewrite Z.pow_add_r in Hlt by lia. lia. }
      specialize (IH (m / 10) Hdiv Hlt').
      set (D := decimal_digits_upto fuel (m / 10)) in *.
      assert (HD : 1 <= D) by apply decimal_digits_upto_pos.
      replace (1 + D - 1) with (D - 1 + 1) by lia.
      replace (1 + D) with (D + 1) by lia.
      rewrite !Z.pow_add_r by lia.
      pose proof (Z.div_mod m 10 ltac:(lia)) as Hm.
      pose proof (Z.mod_pos_bound m 10 ltac:(lia)) as Hr.
      change (10 ^ 1) with 10. lia.
Qed.

(** [decimal_digits] counts the decimal digits of a positive integer. *)
Lemma decimal_digits_spec (m : Z) :
  0 < m -> 10 ^ (decimal_digits m - 1) <= m < 10 ^ decimal_digits m.
Proof.
  intros Hpos. apply decimal_digits_upto_spec; [exact Hpos|].
  rewrite Z2Nat.id by apply Z.log2_nonneg.
  replace (Z.log2 m + 1) with (Z.succ (Z.log2 m)) by lia.
  apply Z.log2_spec, Hpos.
Qed.

Lemma select_div_scale_min (var1 var2 : numeric) :
  (Nat.min (dscale var1) 1000 <= select_div_scale var1 var2)%nat.
Proof.
  unfold select_div_scale.
  destruct (weight_and_first_digit var1) as [weight1 firstdigit1].
  destruct (weight_and_first_digit var2) as [weight2 firstdigit2].
  cbv zeta. lia.
Qed.

(** The weighted mean of a stored average and a duration within the range
    is within the range. *)
Lemma weighted_mean_in_range (avg n : Z) (duration : Q) :
  1 <= n ->
  Z.abs avg < decimal_10_2_limit ->
  (- hundredths (decimal_10_2_limit - 1) <= duration)%Q ->
  (duration <= hundredths (decimal_10_2_limit - 1))%Q ->
  (- hundredths (decimal_10_2_limit - 1)
   <= (hundredths avg * inject_Z (n - 1) + duration) / inject_Z n)%Q
  /\ ((hundredths avg * inject_Z (n - 1) + duration) / inject_Z n
      <= hundredths (decimal_10_2_limit - 1))%Q.
Proof.
  intros Hn Havg Hlo Hhi. revert Hlo Hhi.
  rewrite !hundredths_inject_Z.
  set (B := (inject_Z (decimal_10_2_limit - 1) * (1 # 100))%Q).
  set (A := (inject_Z avg * (1 # 100))%Q).
  intros Hlo Hhi.
  assert (HA : (- B <= A)%Q /\ (A <= B)%Q).
  { unfold A, B.
    assert (H1 : (- inject_Z (decimal_10_2_limit - 1) <= inject_Z avg)%Q).
    { rewrite <- inject_Z_opp, <- Zle_Qle. lia. }
    assert (H2 : (inject_Z avg <= inject_Z (decimal_10_2_limit - 1))%Q).
    { rewrite <- Zle_Qle. lia. }
    split; lra. }
  destruct HA as [HA1 HA2].
  assert (HN1 : (0 <= inject_Z (n - 1))%Q) by (rewrite <- (Zle_Qle 0); lia).
  assert (HN : (0 < inject_Z n)%Q) by (rewrite <- (Zlt_Qlt 0); lia).
  assert (E : (inject_Z n == inject_Z (n - 1) + 1)%Q).
  { replace n with (n - 1 + 1) at 1 by lia. rewrite inject_Z_plus.
    reflexivity. }
  split.
  - apply Qle_shift_div_l; [exact HN|]. rewrite E. nra.
  - apply Qle_shift_div_r; [exact HN|]. rewrite E. nra.
Qed.

(** The average of the [UPDATE] branch is stored without raising when the
    old average and the duration are within the range of the column. *)
Lemma new_average_in_range (avg n : Z) (duration : numeric) :
  1 <= n ->
  Z.abs avg < decimal_10_2_limit ->
  representable (Some duration) ->
  exists quotient h,
    numeric_div
      (numeric_add (numeric_mul (numeric_of_decimal_10_2 avg) (numeric_of_int (n - 1)))
         duration)
      (numeric_of_int n) = Ok quotient
    /\ decimal_10_2 (numeric_value quotient) = Ok h
    /\ Z.abs h < decimal_10_2_limit.
Proof.
  intros Hn Havg [Hlo Hhi].
  set (dividend := numeric_add _ duration).
  set (divisor := numeric_of_int n).
  unfold numeric_div. cbn [divisor numeric_of_int unscaled].
  destruct (n =? 0) eqn:E; [apply Z.eqb_eq in E; lia|].
  fold divisor.
  assert (Hq : (numeric_value dividend / numeric_value divisor
                == (hundredths avg * inject_Z (n - 1) + numeric_value duration)
                   / inject_Z n)%Q).
  { unfold dividend, divisor.
    rewrite numeric_value_add, numeric_value_mul, !numeric_value_of_int,
      numeric_value_of_decimal_10_2. reflexivity. }
  destruct (weighted_mean_in_range avg n (numeric_value duration) Hn Havg Hlo Hhi)
    as [H1 H2].
  rewrite <- Hq in H1, H2.
  assert (Hr : (2 <= select_div_scale dividend divisor)%nat).
  { pose proof (select_div_scale_min dividend divisor) as H.
    unfold dividend in H at 1. cbn [numeric_add numeric_mul numeric_of_decimal_10_2
                                    numeric_of_int dscale] in H. lia. }
  destruct (rounded_in_range _ _ Hr H1 H2) as [H3 H4].
  destruct (decimal_10_2_in_range _ H3 H4) as (h & Hh & Hb).
  eexists _, h. split; [reflexivity|]. split; [exact Hh | exact Hb].
Qed.

Lemma calls_for_snoc k done c :
  calls_for k (done ++ [c])
  = calls_for k done ++ (if decide (call_key c = k) then [c] else []).
Proof.
  unfold calls_for. rewrite filter_app. reflexivity.
Qed.

Lemma counted_other done c x :
  workflow_stats.key x <> call_key c -> counted done x -> counted (done ++ [c]) x.
Proof.
  unfold counted. cbv zeta. intros Hne H. rewrite calls_for_snoc.
  destruct (decide (call_key c = workflow_stats.key x)); [congruence|].
  rewrite app_nil_r. exact H.
Qed.

Lemma calls_for_none k calls :
  (forall c, c ∈ calls -> call_key c <> k) -> calls_for k calls = [].
Proof.
  intros H. apply elem_of_nil_inv. intros c Hc.
  apply list_elem_of_filter in Hc as [Hk Hc]. exact (H c Hc Hk).
Qed.

(** The [UPDATE] branch on a counted row completes when fewer than
    [int4_max] calls came before, and counts the call. *)
Lemma update_row_counted done c r :
  counted done r ->
  workflow_stats.key r = call_key c ->
  Z.of_nat (length done) < int4_max ->
  representable (call_seconds c) ->
  exists r',
    update_row (call_server c) (call_seconds c) (call_success c) r = Ok r'
    /\ counted (done ++ [c]) r'.
Proof.
  unfold counted. cbv zeta. intros (Hn & Hs & He & Hne & Havg) Hk Hlen Hrep.
  set (mine := calls_for (workflow_stats.key r) done) in *.
  assert (Hm : (length mine <= length done)%nat) by apply length_filter.
  assert (Hm1 : (1 <= length mine)%nat).
  { destruct mine; [congruence | simpl; lia]. }
  pose proof (length_filter (fun c => call_success c = true) mine) as Hsl.
  pose proof (length_filter (fun c => call_success c = false) mine) as Hel.
  unfold int4_max in Hlen.
  assert (Hnew : exists avg',
             new_average r (call_seconds c) = Ok avg'
             /\ match avg' with
                | Some a => Z.abs a < decimal_10_2_limit
                | None => True
                end).
  { unfold new_average. destruct (call_seconds c) as [duration|].
    - rewrite int4_in_range by (unfold int4_min, int4_max; lia). simpl.
      destruct (workflow_stats.avg_processing_time_seconds r) as [avg|];
        [|exists None; split; [reflexivity | exact I]].
      destruct (new_average_in_range avg (workflow_stats.items_processed r)
                  duration) as (quotient & h & -> & Hh & Hb);
        [lia | exact Havg | exact Hrep |].
      simpl. rewrite Hh. simpl.
      exists (Some h). split; [reflexivity | exact Hb].
    - destruct (workflow_stats.avg_processing_time_seconds r) as [avg|];
        [|exists None; split; [reflexivity | exact I]].
      rewrite (decimal_10_2_stored _ Havg). simpl.
      exists (Some avg). split; [reflexivity | exact Havg]. }
  destruct Hnew as (avg' & Hnew & Hb).
  unfold update_row. rewrite Hnew.
  rewrite (int4_in_range (workflow_stats.items_processed r + 1))
    by (unfold int4_min, int4_max; lia).
  rewrite (int4_in_range (workflow_stats.success_count r + _))
    by (unfold int4_min, int4_max; destruct (call_success c); simpl; lia).
  rewrite (int4_in_range (workflow_stats.error_count r + _))
    by (unfold int4_min, int4_max; destruct (call_success c); simpl; lia).
  simpl. eexists. split; [reflexivity|].
  unfold workflow_stats.key at 1 2 3 4. simpl.
  fold (workflow_stats.key r). rewrite calls_for_snoc.
  rewrite decide_True by (symmetry; exact Hk). fold mine.
  rewrite !filter_app, !length_app, !filter_cons. simpl.
  split; [lia|]. split; [|split; [|split]].
  - destruct (call_success c); simpl; lia.
  - destruct (call_success c); simpl; lia.
  - intros E. apply app_eq_nil in E as [_ E]. discriminate.
  - exact Hb.
Qed.

(** One more call on a counted table completes and leaves a counted
    table. *)
Lemma update_workflow_stats_counted done c tbl :
  all_counted done tbl ->
  Z.of_nat (length done) < int4_max ->
  (String.length (call_stage c) <= 50)%nat ->
  representable (call_seconds c) ->
  (forall c', c' ∈ done ->
     gen_random_uuid (call_server c') <> gen_random_uuid (call_server c)) ->
  exists tbl',
    update_workflow_stats (call_server c) (call_stage c) (call_seconds c)
      (call_success c) tbl = Ok tbl'
    /\ all_counted (done ++ [c]) tbl'.
Proof.
  intros (Hnd & Hall & Hkeys & Hids) Hlen Hfits Hrep Hown.
  rewrite Forall_forall in Hall.
  assert (Hnew : forall c', c' ∈ done ++ [c] ->
                 call_key c' ∈ map workflow_stats.key tbl \/ c' = c).
  { intros c' Hc'. apply elem_of_app in Hc' as [Hc'|Hc'].
    - left. apply Hkeys, Hc'.
    - right. apply list_elem_of_singleton in Hc'. exact Hc'. }
  assert (Hids' : forall r, r ∈ tbl ->
            exists c', c' ∈ done ++ [c]
                       /\ workflow_stats.id r = gen_random_uuid (call_server c')).
  { intros r Hr. destruct (Hids r Hr) as (c' & Hc' & E).
    exists c'. split; [apply elem_of_app; left; exact Hc' | exact E]. }
  destruct (stats_of (call_stage c) (CURRENT_DATE (call_server c)) tbl)
    as [r|] eqn:Hfind.
  - destruct (find_selected _ _ _ _ Hfind) as [Hin Hsel].
    assert (Hk : workflow_stats.key r = call_key c)
      by (apply selected_key; exact Hsel).
    destruct (update_row_counted done c r (Hall r Hin) Hk Hlen Hrep)
      as (r' & Hr' & Hc').
    set (g := fun x =>
                if workflow_stats.selected (call_stage c)
                     (CURRENT_DATE (call_server c)) x
                then r' else x).
    assert (Hup : update_workflow_stats (call_server c) (call_stage c)
                    (call_seconds c) (call_success c) tbl = Ok (map g tbl)).
    { unfold update_workflow_stats. cbv zeta.
      unfold stats_of in Hfind. rewrite Hfind.
      apply for_each_row_Ok, Forall2_fmap_r, Forall_Forall2_diag, Forall_forall.
      intros x Hx. unfold g, compose. cbv beta.
      destruct (workflow_stats.selected (call_stage c)
                  (CURRENT_DATE (call_server c)) x) eqn:Ex; [|reflexivity].
      assert (x = r) as ->; [|exact Hr'].
      apply (same_key_same_row tbl); try assumption.
      apply selected_key in Ex. unfold call_key in Hk. congruence. }
    exists (map g tbl). split; [exact Hup|].
    split; [eapply update_keeps_one_row_per_day; eassumption|]. split; [|split].
    + apply Forall_fmap, Forall_forall. intros x Hx. unfold compose, g.
      cbv beta.
      destruct (workflow_stats.selected (call_stage c)
                  (CURRENT_DATE (call_server c)) x) eqn:Ex; [exact Hc'|].
      apply counted_other; [|apply Hall, Hx].
      intros E. apply selected_key in E. congruence.
    + pose proof (update_workflow_stats_found _ _ _ _ _ _ _ Hfind Hup) as H2.
      destruct (update_pairs_keys _ _ _ _ _ _ H2) as [-> _].
      intros c' Hc'in. destruct (Hnew c' Hc'in) as [H| ->]; [exact H|].
      rewrite <- Hk. apply list_elem_of_fmap_2. exact Hin.
    + intros y Hy. apply list_elem_of_fmap in Hy as (x & -> & Hx). unfold g.
      destruct (workflow_stats.selected (call_stage c)
                  (CURRENT_DATE (call_server c)) x) eqn:Ex; [|apply Hids', Hx].
      assert (x = r) as ->.
      { apply (same_key_same_row tbl); try assumption.
        apply selected_key in Ex. unfold call_key in Hk. congruence. }
      apply update_row_Ok in Hr' as (_ & -> & _). apply Hids', Hin.
  - pose proof (find_none_not_selected _ _ _ Hfind) as Hfresh.
    assert (Hid : gen_random_uuid (call_server c) ∉ map workflow_stats.id tbl).
    { intros Hin. apply list_elem_of_fmap in Hin as (x & E & Hx).
      destruct (Hids x Hx) as (c' & Hc' & E'). apply (Hown c' Hc'). congruence. }
    assert (Havg : exists avg,
               match call_seconds c with
               | Some duration =>
                   a <-- decimal_10_2 (numeric_value duration) ;; Ok (Some a)
               | None => Ok None
               end = Ok avg
               /\ match avg with
                  | Some a => Z.abs a < decimal_10_2_limit
                  | None => True
                  end).
    { destruct (call_seconds c) as [duration|];
        [|exists None; split; [reflexivity | exact I]].
      destruct Hrep as [H1 H2].
      destruct (decimal_10_2_in_range _ H1 H2) as (h & -> & Hh). simpl.
      exists (Some h). split; [reflexivity | exact Hh]. }
    destruct Havg as (avg & Havg & Hb).
    assert (Hup : exists r,
               update_workflow_stats (call_server c) (call_stage c)
                 (call_seconds c) (call_success c) tbl = Ok (tbl ++ [r])
               /\ counted (done ++ [c]) r
               /\ workflow_stats.key r = call_key c
               /\ workflow_stats.id r = gen_random_uuid (call_server c)).
    { unfold update_workflow_stats. cbv zeta.
      unfold stats_of in Hfind. rewrite Hfind.
      unfold first_row. rewrite (varchar_fits _ _ Hfits). cbn [bind].
      rewrite Havg. cbn [bind].
      unfold workflow_stats.insert. cbn [workflow_stats.id].
      rewrite (bool_decide_eq_false_2 _ Hid).
      rewrite (bool_decide_eq_false_2
                 ((call_stage c, CURRENT_DATE (call_server c))
                  ∈ map workflow_stats.key tbl) Hfresh).
      cbn [orb].
      eexists. split; [reflexivity|]. split; [|split; reflexivity].
      unfold counted. cbv zeta. unfold workflow_stats.key. simpl.
      fold (call_key c). rewrite calls_for_snoc.
      rewrite decide_True by reflexivity.
      rewrite (calls_for_none (call_key c) done).
      - simpl. rewrite !filter_cons. split; [reflexivity|].
        split; [destruct (call_success c); reflexivity|].
        split; [destruct (call_success c); reflexivity|].
        split; [discriminate | exact Hb].
      - intros c' Hc' E. apply Hfresh. fold (call_key c). rewrite <- E.
        apply Hkeys, Hc'. }
    destruct Hup as (r & Hup & Hr & Hk & Hrid).
    exists (tbl ++ [r]). split; [exact Hup|].
    split; [eapply update_keeps_one_row_per_day; eassumption|]. split; [|split].
    + apply Forall_app. split; [|constructor; [exact Hr | constructor]].
      apply Forall_forall. intros x Hx.
      apply counted_other; [|apply Hall, Hx].
      intros E. apply Hfresh. fold (call_key c). rewrite <- E.
      apply list_elem_of_fmap_2. exact Hx.
    + intros c' Hc'in. rewrite map_app. apply elem_of_app.
      destruct (Hnew c' Hc'in) as [H| ->]; [left; exact H|].
      right. simpl. rewrite Hk. left.
    + intros y Hy. apply elem_of_app in Hy as [Hy|Hy]; [apply Hids', Hy|].
      apply list_elem_of_singleton in Hy. subst y. exists c.
      split; [|exact Hrid]. apply elem_of_app. right. left.
Qed.

Lemma calls_all_counted (calls : list stats_call) :
  Z.of_nat (length calls) <= int4_max ->
  storable calls ->
  all_counted calls (record_all calls [])
  /\ forall done c rest,
       calls = done ++ c :: rest ->
       exists tbl',
         update_workflow_stats (call_server c) (call_stage c) (call_seconds c)
           (call_success c) (record_all done []) = Ok tbl'.
Proof.
  unfold storable.
  induction calls as [|c calls IH] using rev_ind; intros Hlen [Hrep Hown].
  - split.
    + split; [apply NoDup_nil_2|]. split; [constructor|].
      split; [intros c Hc; inversion Hc | intros r Hr; inversion Hr].
    + intros done c rest E. destruct done; discriminate.
  - rewrite length_app in Hlen. simpl in Hlen.
    apply Forall_app in Hrep as [Hrep Hc].
    apply Forall_cons in Hc as [[Hfits Hc] _].
    rewrite fmap_app in Hown. apply NoDup_app in Hown as (Hown & Hother & _).
    destruct IH as [Hinv Hok]; [lia | split; assumption |].
    destruct (update_workflow_stats_counted calls c _ Hinv) as (tbl' & Hup & Hinv');
      [lia | exact Hfits | exact Hc | |].
    { intros c' Hc' E. apply (Hother (gen_random_uuid (call_server c'))).
      - apply list_elem_of_fmap. exists c'. split; [reflexivity | exact Hc'].
      - rewrite E. left. }
    split.
    + unfold record_all. rewrite fold_left_app. simpl.
      unfold record_stats at 1. fold (record_all calls []).
      rewrite Hup. exact Hinv'.
    + intros done c' rest E.
      destruct rest as [|x rest _] using rev_ind.
      * apply app_inj_tail in E as [-> ->]. exists tbl'. exact Hup.
      * rewrite app_comm_cons, app_assoc in E.
        apply app_inj_tail in E as [E _]. eapply Hok. exact E.
Qed.

(** X10. With fewer than 2^31 calls, each for a stage of at most 50
    characters, without a duration or with one of at most 99,999,999.99
    seconds in absolute value, and with an id of its own for the row it
    may insert, no call of [update_workflow_stats] raises, and afterwards
    a stage has a row for a day exactly when a call was made for it on
    that day; the row's [items_processed], [success_count] and
    [error_count] are the numbers of those calls, of the successful ones
    and of the failed ones. *)
Theorem every_call_is_counted (calls : list stats_call) :
  Z.of_nat (length calls) <= int4_max ->
  storable calls ->
  (forall done c rest,
     calls = done ++ c :: rest ->
     exists tbl',
       update_workflow_stats (call_server c) (call_stage c) (call_seconds c)
         (call_success c) (record_all done []) = Ok tbl')
  /\ forall p_stage day,
       let mine := calls_for (p_stage, day) calls in
       match stats_of p_stage day (record_all calls []) with
       | Some r =>
           mine <> []
           /\ workflow_stats.items_processed r = Z.of_nat (length mine)
           /\ workflow_stats.success_count r
              = Z.of_nat (length (filter (fun c => call_success c = true) mine))
           /\ workflow_stats.error_count r
              = Z.of_nat (length (filter (fun c => call_success c = false) mine))
       | None => mine = []
       end.
Proof.
  intros Hlen Hrep.
  destruct (calls_all_counted calls Hlen Hrep) as [(_ & Hall & Hkeys & _) Hok].
  split; [exact Hok|]. intros p_stage day mine. unfold mine. clear mine.
  destruct (stats_of p_stage day (record_all calls [])) as [r|] eqn:Hfind.
  - destruct (find_selected _ _ _ _ Hfind) as [Hin Hsel].
    apply selected_key in Hsel.
    rewrite Forall_forall in Hall.
    destruct (Hall r Hin) as (Hn & Hs & He & Hne & _).
    rewrite Hsel in Hn, Hs, He, Hne. repeat split; assumption.
  - apply calls_for_none. intros c Hc E.
    apply (find_none_not_selected _ _ _ Hfind). rewrite <- E.
    apply Hkeys, Hc.
Qed.

Lemma every_call_is_counted_witness :
  (forall done c rest,
     two_successes = done ++ c :: rest ->
     exists tbl',
       update_workflow_stats (call_server c) (call_stage c) (call_seconds c)
         (call_success c) (record_all done []) = Ok tbl')
  /\ forall p_stage day,
       let mine := calls_for (p_stage, day) two_successes in
       match stats_of p_stage day (record_all two_successes []) with
       | Some r =>
           mine <> []
           /\ workflow_stats.items_processed r = Z.of_nat (length mine)
           /\ workflow_stats.success_count r
              = Z.of_nat (length (filter (fun c => call_success c = true) mine))
           /\ workflow_stats.error_count r
              = Z.of_nat (length (filter (fun c => call_success c = false) mine))
       | None => mine = []
       end.
Proof.
  apply (every_call_is_counted two_successes).
  - vm_compute. discriminate.
  - split.
    + repeat constructor; simpl; try lia; vm_compute; discriminate.
    + simpl. apply NoDup_cons.
      split; [rewrite list_elem_of_singleton; discriminate | apply NoDup_singleton].
Defined.

(** ** The log is chronological *)

(** What one statement does to the log: nothing, one event stamped with
    the statement's [NOW()], or the cascade of a deletion. *)
Lemma execute_events d x :
  workflow_events_table (execute d x) = workflow_events_table d
  \/ (exists e,
        workflow_events_table (execute d x) = workflow_events_table d ++ [e]
        /\ workflow_events.created_at e = NOW x.1)
  \/ (exists p,
        workflow_events_table (execute d x)
        = filter (fun e => workflow_events.automation_id e ≠ p)
            (workflow_events_table d)).
Proof.
  destruct x as [srv [r|p_id set|p_id|p_id type from to worker meta err|p s b]].
  - left. destruct (execute_INSERT d srv r) as [-> | (row & _ & _ & ->)];
      reflexivity.
  - destruct (execute_UPDATE d srv p_id set) as [-> | (OLD & d' & Hold & Hup & ->)];
      [left; reflexivity|].
    destruct (update_automations_Ok _ _ _ _ _ _ Hold Hup)
      as (assigned & _ & _ & _ & Hev).
    destruct (bool_decide (automations.stage OLD = automations.stage assigned)).
    + left. exact Hev.
    + right. left.
      destruct Hev as (e & -> & _ & _ & _ & _ & _ & _ & _ & _ & _ & Hnow).
      exists e. split; [reflexivity | exact Hnow].
  - right. right. exists p_id. reflexivity.
  - destruct (execute_log d srv p_id type from to worker meta err)
      as [-> | (e & -> & _ & _ & _ & _ & _ & Hnow)]; [left; reflexivity|].
    right. left. exists e. split; [reflexivity | exact Hnow].
  - left. apply (execute_stats d srv p s b).
Qed.

Lemma history_keeps_log_sorted history d :
  clock_moves_on history ->
  StronglySorted logged_before (workflow_events_table d) ->
  (forall x e, x ∈ history -> e ∈ workflow_events_table d ->
               workflow_events.created_at e < NOW x.1) ->
  StronglySorted logged_before (workflow_events_table (execute_all history d)).
Proof.
  unfold clock_moves_on, execute_all. revert d.
  induction history as [|x history IH]; intros d Hclock Hsorted Hpast;
    [exact Hsorted|].
  apply StronglySorted_inv in Hclock as [Hclock Hx].
  rewrite Forall_forall in Hx. simpl. apply IH; [exact Hclock | |].
  - destruct (execute_events d x) as [-> | [(e & -> & He) | (p & ->)]].
    + exact Hsorted.
    + apply StronglySorted_app_2; [|exact Hsorted|repeat constructor].
      intros e1 e2 H1 H2. apply list_elem_of_singleton in H2. subst e2.
      unfold logged_before. rewrite He. apply Hpast; [left | exact H1].
    + clear Hpast. induction Hsorted as [|e l _ IHl Hall]; [constructor|].
      rewrite filter_cons. destruct (decide _); [|exact IHl].
      constructor; [exact IHl|]. apply Forall_forall. intros e' He'.
      apply list_elem_of_filter in He' as [_ He'].
      rewrite Forall_forall in Hall. apply Hall, He'.
  - intros y e Hy He.
    destruct (execute_events d x) as [E | [(e' & E & He') | (p & E)]];
      rewrite E in He.
    + apply Hpast; [right; exact Hy | exact He].
    + apply elem_of_app in He as [He|He].
      * apply Hpast; [right; exact Hy | exact He].
      * apply list_elem_of_singleton in He. subst e'. rewrite He'.
        apply Hx, Hy.
    + apply list_elem_of_filter in He as [_ He].
      apply Hpast; [right; exact Hy | exact He].
Qed.

Lemma joined_sorted d :
  StronglySorted logged_before (workflow_events_table d) ->
  StronglySorted (fun x y => activity.created_at x < activity.created_at y)
    (joined d).
Proof.
  intros Hsorted.
  assert (Hsub : forall y (l : list workflow_events.row),
             y ∈ omap (fun we =>
                         a ← automations_table d !! workflow_events.automation_id we;
                         Some {| activity.created_at := workflow_events.created_at we;
                                 activity.event_type := workflow_events.event_type we;
                                 activity.from_stage := workflow_events.from_stage we;
                                 activity.to_stage := workflow_events.to_stage we;
                                 activity.worker_id := workflow_events.worker_id we;
                                 activity.automation_title := automations.title a;
                                 activity.automation_id := workflow_events.automation_id we;
                                 activity.error_message := workflow_events.error_message we |})
                   l ->
             exists we, we ∈ l
                        /\ activity.created_at y = workflow_events.created_at we).
  { intros y l Hy. apply list_elem_of_omap in Hy as (we & Hwe & Hy).
    exists we. split; [exact Hwe|].
    destruct (automations_table d !! workflow_events.automation_id we);
      simpl in Hy; [|discriminate].
    injection Hy as <-. reflexivity. }
  unfold joined. induction Hsorted as [|we l _ IH Hall]; [constructor|].
  csimpl.
  destruct (automations_table d !! workflow_events.automation_id we); simpl;
    [|exact IH].
  constructor; [exact IH|]. apply Forall_forall. intros y Hy. simpl.
  apply Hsub in Hy as (we' & Hwe' & ->).
  rewrite Forall_forall in Hall. apply Hall, Hwe'.
Qed.

Lemma sorted_keys_distinct {A : Type} (k : A -> Z) (l : list A) x y :
  StronglySorted (fun a b => k a < k b) l ->
  x ∈ l -> y ∈ l -> k x = k y -> x = y.
Proof.
  induction 1 as [|a l _ IH Hall]; intros Hx Hy E; [inversion Hx|].
  rewrite Forall_forall in Hall.
  apply elem_of_cons in Hx as [->|Hx]; apply elem_of_cons in Hy as [->|Hy].
  - reflexivity.
  - specialize (Hall y Hy). lia.
  - specialize (Hall x Hx). lia.
  - apply IH; assumption.
Qed.

Lemma sorted_reverse {A : Type} (k : A -> Z) (l : list A) :
  StronglySorted (fun a b => k a < k b) l ->
  StronglySorted (fun a b => k b <= k a) (reverse l).
Proof.
  induction 1 as [|a l _ IH Hall]; [constructor|].
  rewrite reverse_cons.
  apply StronglySorted_app_2; [|exact IH|repeat constructor].
  intros x1 x2 H1 H2. apply list_elem_of_singleton in H2. subst x2.
  rewrite elem_of_reverse in H1. rewrite Forall_forall in Hall.
  specialize (Hall x1 H1). lia.
Qed.

(** X11. When the clock moves on from each statement to the next, the
    event log of any history on an empty database is in chronological
    order, no two events share a time stamp, and
    [recent_workflow_activity] is the joined log read backwards, cut
    after [LIMIT] rows. *)
Theorem recent_activity_reads_log_backwards
    (history : list (server * statement)) :
  clock_moves_on history ->
  StronglySorted logged_before
    (workflow_events_table (execute_all history empty_database))
  /\ recent_workflow_activity (execute_all history empty_database)
     = take recent_limit (reverse (joined (execute_all history empty_database))).
Proof.
  intros Hclock.
  assert (Hsorted : StronglySorted logged_before
            (workflow_events_table (execute_all history empty_database))).
  { apply history_keeps_log_sorted; [exact Hclock | constructor |].
    intros x e _ He. inversion He. }
  split; [exact Hsorted|].
  apply joined_sorted in Hsorted. unfold recent_workflow_activity.
  generalize dependent (joined (execute_all history empty_database)).
  intros l Hl. f_equal.
  apply (StronglySorted_unique_strong newer_first).
  - intros x1 x2 H1 H2 R1 R2. unfold newer_first in R1, R2.
    rewrite merge_sort_Permutation in H1. rewrite elem_of_reverse in H2.
    apply (sorted_keys_distinct activity.created_at l x1 x2 Hl H1 H2).
    apply Z.le_antisymm; [exact R2 | exact R1].
  - apply StronglySorted_merge_sort; apply _.
  - apply (sorted_reverse activity.created_at l Hl).
  - rewrite merge_sort_Permutation, reverse_Permutation. reflexivity.
Qed.

Lemma recent_activity_reads_log_backwards_witness :
  StronglySorted logged_before
    (workflow_events_table (execute_all sample_history empty_database))
  /\ recent_workflow_activity (execute_all sample_history empty_database)
     = take recent_limit
         (reverse (joined (execute_all sample_history empty_database))).
Proof.
  apply (recent_activity_reads_log_backwards sample_history).
  unfold clock_moves_on, sample_history.
  repeat (constructor; [|repeat constructor; simpl; lia]). constructor.
Defined.

(** ** The stamps of a stage change *)






(** ** Statements on an item that is not there *)

(** X13. A statement that addresses an item by an id that is not in
    [automations] leaves the database as it was: the [UPDATE] finds no row
    and fires no trigger, the [DELETE] removes nothing (with the foreign
    key in force no event refers to the id, so the cascade removes
    nothing either), and [log_workflow_event] raises and is rolled back:
    a foreign-key violation, when its values fit their columns and the
    id generated for the event is free. *)
Theorem statements_on_missing_item_change_nothing srv p_id d :
  automations_table d !! p_id = None ->
  Forall (fun e => is_Some (automations_table d !! workflow_events.automation_id e))
    (workflow_events_table d) ->
  (forall set, execute d (srv, UPDATE_automations p_id set) = d)
  /\ execute d (srv, DELETE_automations p_id) = d
  /\ forall type from to worker meta err,
       (exists e,
          log_workflow_event srv p_id type from to worker meta err d = Raise e)
       /\ ((String.length type <= 50)%nat ->
           fits 50 from -> fits 50 to -> fits 100 worker ->
           gen_random_uuid srv
           ∉ map workflow_events.id (workflow_events_table d) ->
           log_workflow_event srv p_id type from to worker meta err d
           = Raise foreign_key_violation)
       /\ execute d (srv, SELECT_log_workflow_event p_id type from to worker meta err)
          = d.
Proof.
  intros Hnone Hfk. split; [|split].
  - intros set. unfold execute. simpl.
    rewrite (update_automations_missing _ _ _ _ Hnone). reflexivity.
  - unfold execute. cbn [run_statement commit fst snd].
    unfold delete_automations. rewrite delete_id by exact Hnone.
    assert (E : filter (fun e => workflow_events.automation_id e ≠ p_id)
                  (workflow_events_table d) = workflow_events_table d).
    { induction Hfk as [|e l [r Hr] _ IH]; [reflexivity|].
      rewrite filter_cons, decide_True by congruence. f_equal. exact IH. }
    rewrite E. destruct d; reflexivity.
  - intros type from to worker meta err.
    assert (Hraise : exists e,
              log_workflow_event srv p_id type from to worker meta err d
              = Raise e).
    { destruct (log_workflow_event srv p_id type from to worker meta err d)
        as [logged|e] eqn:Hlog; [|exists e; reflexivity].
      apply log_workflow_event_Ok in Hlog
        as (? & ? & ? & ? & _ & _ & _ & _ & _ & [r Hr] & _).
      congruence. }
    split; [exact Hraise|]. split.
    + intros Hty Hfrom Hto Hw Hid. unfold log_workflow_event.
      rewrite (varchar_fits _ _ Hty), (varchar_null_fits _ _ Hfrom),
        (varchar_null_fits _ _ Hto), (varchar_null_fits _ _ Hw).
      cbn [bind]. cbv zeta. rewrite (bool_decide_eq_false_2 _ Hid).
      rewrite Hnone. reflexivity.
    + destruct Hraise as [e He]. unfold execute. cbn [run_statement fst snd].
      rewrite He. reflexivity.
Qed.

Lemma statements_on_missing_item_witness :
  (forall set, execute done_db (day1 300 9%N, UPDATE_automations 8%N set) = done_db)
  /\ execute done_db (day1 300 9%N, DELETE_automations 8%N) = done_db
  /\ forall type from to worker meta err,
       (exists e,
          log_workflow_event (day1 300 9%N) 8%N type from to worker meta err
            done_db = Raise e)
       /\ ((String.length type <= 50)%nat ->
           fits 50 from -> fits 50 to -> fits 100 worker ->
           gen_random_uuid (day1 300 9%N)
           ∉ map workflow_events.id (workflow_events_table done_db) ->
           log_workflow_event (day1 300 9%N) 8%N type from to worker meta err
             done_db
           = Raise foreign_key_violation)
       /\ execute done_db
            (day1 300 9%N,
             SELECT_log_workflow_event 8%N type from to worker meta err)
          = done_db.
Proof.
  apply (statements_on_missing_item_change_nothing (day1 300 9%N) 8%N done_db).
  - reflexivity.
  - constructor.
Defined.

(** * The front end *)

(** ** The title of an uploaded file *)

Lemma extension_at_spec (s : js_string) :
  CreateAutomationDialog.extension_at s = true
  <-> exists ext, s = full_stop :: ext /\ ext <> []
                  /\ forallb CreateAutomationDialog.extension_char ext = true.
Proof.
  destruct s as [|c rest]; simpl.
  - split; [discriminate | intros (ext & H & _); discriminate].
  - rewrite !andb_true_iff, negb_true_iff, bool_decide_eq_false, N.eqb_eq.
    split.
    + intros [[-> Hne] Hall]. exists rest. repeat split; assumption.
    + intros (ext & H & Hne & Hall). injection H as -> ->.
      repeat split; assumption.
Qed.

Lemma extension_char_full_stop (ext : js_string) :
  forallb CreateAutomationDialog.extension_char ext = true -> full_stop ∉ ext.
Proof.
  intros Hall Hin. rewrite forallb_forall in Hall.
  apply list_elem_of_In, Hall in Hin. discriminate.
Qed.

Lemma finalTitle_strips (title ext : js_string) :
  ext <> [] ->
  forallb CreateAutomationDialog.extension_char ext = true ->
  CreateAutomationDialog.finalTitle (title ++ full_stop :: ext) = title.
Proof.
  intros Hne Hall. induction title as [|c title IH].
  - simpl. destruct ext as [|e ext]; [congruence|].
    rewrite bool_decide_eq_false_2 by discriminate.
    simpl in Hall. simpl. rewrite Hall. reflexivity.
  - change ((c :: title) ++ full_stop :: ext)
      with (c :: (title ++ full_stop :: ext)).
    cbn [CreateAutomationDialog.finalTitle].
    destruct (CreateAutomationDialog.extension_at
                (c :: title ++ full_stop :: ext)) eqn:E.
    + exfalso. apply extension_at_spec in E as (ext' & H & _ & Hall').
      injection H as _ <-. apply extension_char_full_stop in Hall'.
      apply Hall'. apply elem_of_app. right. left.
    + rewrite IH. reflexivity.
Qed.

Lemma finalTitle_cases (name : js_string) :
  (exists ext,
     name = CreateAutomationDialog.finalTitle name ++ full_stop :: ext
     /\ ext <> []
     /\ forallb CreateAutomationDialog.extension_char ext = true)
  \/ (CreateAutomationDialog.finalTitle name = name
      /\ forall title ext,
           name = title ++ full_stop :: ext -> ext <> [] ->
           forallb CreateAutomationDialog.extension_char ext = false).
Proof.
  induction name as [|c rest IH].
  - right. split; [reflexivity|]. intros title ext H. destruct title; discriminate.
  - cbn [CreateAutomationDialog.finalTitle].
    destruct (CreateAutomationDialog.extension_at (c :: rest)) eqn:E.
    + left. apply extension_at_spec in E as (ext & H & Hne & Hall).
      exists ext. repeat split; assumption.
    + destruct IH as [(ext & H & Hne & Hall) | [Hsame Hnone]].
      * left. exists ext. split; [|split; assumption].
        simpl. f_equal. exact H.
      * right. split; [rewrite Hsame; reflexivity|].
        intros title ext H Hne. destruct title as [|c' title].
        -- simpl in H. destruct (forallb _ ext) eqn:Hall; [|reflexivity].
           rewrite <- E. symmetry. apply extension_at_spec.
           exists ext. repeat split; assumption.
        -- injection H as _ H. eapply Hnone; eassumption.
Qed.

(** X14. The title that [submit] sends for an uploaded file is the file
    name without its extension: a name that ends in a full stop followed
    by one or more code units other than a full stop and a solidus loses
    that ending, whatever comes before it (which may be nothing, leaving
    an empty title); any other name is its own title. *)
Theorem finalTitle_removes_the_extension (name title : js_string) :
  CreateAutomationDialog.finalTitle name = title
  <-> (exists ext,
         name = title ++ full_stop :: ext
         /\ ext <> []
         /\ forallb CreateAutomationDialog.extension_char ext = true)
      \/ (title = name
          /\ forall title' ext,
               name = title' ++ full_stop :: ext -> ext <> [] ->
               forallb CreateAutomationDialog.extension_char ext = false).
Proof.
  split.
  - intros <-. destruct (finalTitle_cases name) as [H|[H1 H2]].
    + left. exact H.
    + right. split; [exact H1 | exact H2].
  - intros [(ext & -> & Hne & Hall) | [-> Hnone]].
    + apply finalTitle_strips; assumption.
    + destruct (finalTitle_cases name) as [(ext & H & Hne & Hall)|[H _]];
        [|exact H].
      rewrite (Hnone _ _ H Hne) in Hall. discriminate.
Qed.

(** ** The saved pipeline configuration *)

Lemma trimStart_head (s : js_string) c :
  head (trimStart s) = Some c -> white_space c = false.
Proof.
  induction s as [|a s IH]; simpl; [discriminate|].
  destruct (white_space a) eqn:E; [exact IH|].
  simpl. intros H. injection H as <-. exact E.
Qed.

Lemma trimStart_suffix (s : js_string) : exists ws, s = ws ++ trimStart s.
Proof.
  induction s as [|a s [ws IH]]; simpl; [exists []; reflexivity|].
  destruct (white_space a).
  - exists (a :: ws). simpl. f_equal. exact IH.
  - exists []. reflexivity.
Qed.

Lemma trimEnd_prefix (s : js_string) : exists ws, s = trimEnd s ++ ws.
Proof.
  unfold trimEnd. destruct (trimStart_suffix (reverse s)) as [ws H].
  exists (reverse ws). rewrite <- reverse_app, <- H, reverse_involutive.
  reflexivity.
Qed.

Lemma trim_trimmed (s : js_string) : trimmed (trim s).
Proof.
  unfold trimmed, trim. split; intros c Hc.
  - destruct (trimEnd_prefix (trimStart s)) as [ws H].
    apply (trimStart_head s). rewrite H, head_app, Hc. reflexivity.
  - unfold trimEnd in Hc. rewrite last_reverse in Hc.
    exact (trimStart_head _ _ Hc).
Qed.

Lemma truthy_nonempty (s : js_string) : truthy s = true <-> s <> [].
Proof. unfold truthy. rewrite negb_true_iff, bool_decide_eq_false. tauto. Qed.

Lemma remove_dups_length_NoDup {A : Type} `{EqDecision A} (l : list A) :
  length (remove_dups l) = length l -> NoDup l.
Proof.
  assert (Hle : forall l' : list A, (length (remove_dups l') <= length l')%nat).
  { induction l' as [|x l' IH]; simpl; [lia|].
    destruct (decide_rel elem_of x l'); simpl; lia. }
  induction l as [|x l IH]; simpl; [constructor|].
  destruct (decide_rel elem_of x l) as [Hin|Hin]; simpl; intros Hlen.
  - specialize (Hle l). lia.
  - constructor; [exact Hin | apply IH; lia].
Qed.

Lemma range_check_passed (lo hi : Q) (x : number) :
  number_lt x (finite lo) || number_gt x (finite hi) = false ->
  passes_range_check lo hi x.
Proof.
  unfold passes_range_check, number_gt. intros H.
  apply orb_false_iff in H as [H1 H2].
  destruct x as [|[|]|q]; simpl in H1, H2; try discriminate.
  - left. reflexivity.
  - right. exists q. split; [reflexivity|].
    destruct (Qlt_le_dec q lo); [discriminate|].
    destruct (Qlt_le_dec hi q); [discriminate|]. split; assumption.
Qed.

(** X15. Whatever [handleSave] sends has passed [validateForm]: both
    prompts are non-empty and without surrounding white space, there is
    at least one LOB-process pair, every pair has a non-empty [lob] and
    [process] without surrounding white space, no pair occurs twice, and
    [temperature] and [max_tokens] are within [0, 1] and [1, 8000], or
    [NaN], which both range checks let through. *)
Theorem saved_configuration_is_valid
    (f : PipelineConfigPage.form)
    (configData : PipelineConfigPage.PipelineConfigCreate) :
  PipelineConfigPage.handleSave f = inr configData ->
  PipelineConfigPage.lob_prompt configData <> []
  /\ trimmed (PipelineConfigPage.lob_prompt configData)
  /\ PipelineConfigPage.process_prompt configData <> []
  /\ trimmed (PipelineConfigPage.process_prompt configData)
  /\ PipelineConfigPage.lob_process_pairs configData <> []
  /\ NoDup (PipelineConfigPage.lob_process_pairs configData)
  /\ Forall
       (fun pair =>
          PipelineConfigPage.lob pair <> []
          /\ trimmed (PipelineConfigPage.lob pair)
          /\ PipelineConfigPage.process pair <> []
          /\ trimmed (PipelineConfigPage.process pair))
       (PipelineConfigPage.lob_process_pairs configData)
  /\ passes_range_check 0 1
       (PipelineConfigPage.temperature (PipelineConfigPage.llm_params configData))
  /\ passes_range_check 1 (inject_Z 8000)
       (PipelineConfigPage.max_tokens (PipelineConfigPage.llm_params configData)).
Proof.
  unfold PipelineConfigPage.handleSave, PipelineConfigPage.validateForm.
  destruct (truthy (trim (PipelineConfigPage.lobPrompt f))) eqn:Hlob;
    cbn [negb]; [|discriminate].
  destruct (truthy (trim (PipelineConfigPage.processPrompt f))) eqn:Hprocess;
    cbn [negb]; [|discriminate].
  case_bool_decide as Hsome; [discriminate|]. cbv zeta.
  case_bool_decide as Hdup; [discriminate|].
  destruct (number_lt (PipelineConfigPage.temperature (PipelineConfigPage.llmParams f))
              (finite 0)
            || number_gt (PipelineConfigPage.temperature (PipelineConfigPage.llmParams f))
                 (finite 1)) eqn:Htemperature; [discriminate|].
  destruct (number_lt (PipelineConfigPage.max_tokens (PipelineConfigPage.llmParams f))
              (finite 1)
            || number_gt (PipelineConfigPage.max_tokens (PipelineConfigPage.llmParams f))
                 (finite (inject_Z 8000))) eqn:Htokens; [discriminate|].
  intros H. injection H as <-. simpl.
  apply truthy_nonempty in Hlob, Hprocess.
  split; [exact Hlob|]. split; [apply trim_trimmed|].
  split; [exact Hprocess|]. split; [apply trim_trimmed|].
  split; [|split; [|split; [|split]]].
  - destruct (PipelineConfigPage.validPairs f); [contradiction | discriminate].
  - assert (Hnd : NoDup (PipelineConfigPage.pairString
                           <$> PipelineConfigPage.validPairs f)).
    { apply remove_dups_length_NoDup. exact Hdup. }
    apply (NoDup_fmap_1
             (fun pair => PipelineConfigPage.lob pair ++ code_units "|"
                          ++ PipelineConfigPage.process pair)).
    rewrite <- list_fmap_compose. exact Hnd.
  - apply Forall_fmap, Forall_forall. intros pair Hpair. simpl.
    apply list_elem_of_filter in Hpair as [Hpair _].
    apply andb_true_iff in Hpair as [H1 H2].
    apply truthy_nonempty in H1, H2.
    repeat split; try assumption; apply trim_trimmed.
  - apply range_check_passed. exact Htemperature.
  - apply range_check_passed. exact Htokens.
Qed.

Lemma saved_configuration_witness :
  PipelineConfigPage.lob_prompt sample_config <> []
  /\ trimmed (PipelineConfigPage.lob_prompt sample_config)
  /\ PipelineConfigPage.process_prompt sample_config <> []
  /\ trimmed (PipelineConfigPage.process_prompt sample_config)
  /\ PipelineConfigPage.lob_process_pairs sample_config <> []
  /\ NoDup (PipelineConfigPage.lob_process_pairs sample_config)
  /\ Forall
       (fun pair =>
          PipelineConfigPage.lob pair <> []
          /\ trimmed (PipelineConfigPage.lob pair)
          /\ PipelineConfigPage.process pair <> []
          /\ trimmed (PipelineConfigPage.process pair))
       (PipelineConfigPage.lob_process_pairs sample_config)
  /\ passes_range_check 0 1
       (PipelineConfigPage.temperature (PipelineConfigPage.llm_params sample_config))
  /\ passes_range_check 1 (inject_Z 8000)
       (PipelineConfigPage.max_tokens (PipelineConfigPage.llm_params sample_config)).
Proof.
  apply (saved_configuration_is_valid sample_form sample_config).
  vm_compute. reflexivity.
Defined.

(** ** The rows of the pair editor *)




(** ** The highlighted navigation items *)

Lemma startsWith_lookup (s prefix : js_string) (i : nat) (c : N) :
  startsWith s prefix = true -> prefix !! i = Some c -> s !! i = Some c.
Proof.
  revert s i. induction prefix as [|a prefix IH]; intros s i; [discriminate|].
  destruct s as [|b s]; simpl; [discriminate|].
  rewrite andb_true_iff, N.eqb_eq. intros [-> H].
  destruct i as [|i]; simpl; [trivial | apply IH, H].
Qed.

Lemma startsWith_refl (s : js_string) : startsWith s s = true.
Proof.
  induction s as [|c s IH]; simpl; [reflexivity|].
  rewrite N.eqb_refl. exact IH.
Qed.

Lemma startsWith_app (s prefix rest : js_string) :
  startsWith s (prefix ++ rest) = true -> startsWith s prefix = true.
Proof.
  revert s. induction prefix as [|a prefix IH]; intros s; [reflexivity|].
  destruct s as [|b s]; simpl; [discriminate|].
  rewrite !andb_true_iff. intros [H1 H2]. split; [exact H1 | apply IH, H2].
Qed.

(** An active item fixes the second code unit of the path name. *)
Lemma active_second_code_unit (pathname : js_string) (item : Sidebar.NavItem) :
  item ∈ Sidebar.nav ->
  Sidebar.active pathname item = true ->
  pathname !! 1%nat = Sidebar.href item !! 1%nat.
Proof.
  intros Hin. unfold Sidebar.active. rewrite orb_true_iff, andb_true_iff.
  rewrite bool_decide_eq_true, negb_true_iff, bool_decide_eq_false.
  intros [-> | [Hroot Hstarts]]; [reflexivity|].
  unfold Sidebar.nav in Hin.
  repeat (apply elem_of_cons in Hin as [-> | Hin];
          [first [ exfalso; apply Hroot; reflexivity
                 | exact (startsWith_lookup _ _ 1%nat _ Hstarts eq_refl) ] |]).
  inversion Hin.
Qed.

(** X17. On every page the sidebar highlights at most two navigation
    items, and it highlights two exactly when the path name starts with
    [/pipeline-config], where both Automation Pipeline and Pipeline Config
    are active. *)
Theorem sidebar_highlights_at_most_two (pathname : js_string) :
  (length (Sidebar.highlighted pathname) <= 2)%nat
  /\ (length (Sidebar.highlighted pathname) = 2%nat
      <-> startsWith pathname (code_units "/pipeline-config") = true)
  /\ (startsWith pathname (code_units "/pipeline-config") = true ->
      Sidebar.label <$> Sidebar.highlighted pathname
      = ["Automation Pipeline"; "Pipeline Config"]).
Proof.
  assert (Hkey : forall item, item ∈ Sidebar.nav ->
                   Sidebar.active pathname item = true ->
                   pathname !! 1%nat = Sidebar.href item !! 1%nat)
    by (intros item; apply active_second_code_unit).
  assert (Hconfig : Sidebar.active pathname
                      {| Sidebar.href := code_units "/pipeline-config";
                         Sidebar.label := "Pipeline Config" |}
                    = startsWith pathname (code_units "/pipeline-config")).
  { unfold Sidebar.active. cbn [Sidebar.href].
    rewrite (bool_decide_eq_false_2 (code_units "/pipeline-config" = code_units "/"))
      by discriminate.
    cbn [negb andb]. case_bool_decide as E; [|reflexivity].
    rewrite E. rewrite startsWith_refl. reflexivity. }
  assert (Hpipeline : startsWith pathname (code_units "/pipeline-config") = true ->
                      Sidebar.active pathname
                        {| Sidebar.href := code_units "/pipeline";
                           Sidebar.label := "Automation Pipeline" |} = true).
  { intros H. unfold Sidebar.active. cbn [Sidebar.href].
    rewrite (bool_decide_eq_false_2 (code_units "/pipeline" = code_units "/"))
      by discriminate.
    rewrite (startsWith_app pathname (code_units "/pipeline") (code_units "-config") H).
    apply orb_true_r. }
  rewrite <- Hconfig in *. clear Hconfig.
  unfold Sidebar.highlighted, Sidebar.nav in *.
  repeat rewrite filter_cons. rewrite filter_nil.
  repeat match goal with
         | |- context [decide (Sidebar.active pathname ?item = true)] =>
             let E := fresh "E" in
             let K := fresh "K" in
             pose proof (Hkey item) as K;
             destruct (Sidebar.active pathname item) eqn:E;
             [ rewrite decide_True by reflexivity;
               specialize (K ltac:(repeat first [ apply list_elem_of_here
                                                | apply list_elem_of_further ])
                             eq_refl);
               let v := eval vm_compute in (Sidebar.href item !! 1%nat) in
               change (Sidebar.href item !! 1%nat) with v in K;
               try congruence
             | rewrite decide_False by discriminate; clear K ]
         end;
    clear Hkey;
    try (specialize (Hpipeline eq_refl); discriminate);
    (split; [simpl; lia|]);
    (split; [split; [simpl; intros; first [reflexivity | lia]
                    | intros; first [reflexivity | discriminate]]|]);
    intros; first [reflexivity | discriminate].
Qed.

(** ** The columns of the board *)

Section board.

Variable Date_getTime : js_string -> option Z.

#[local] Abbreviation time := (PipelinePage.time Date_getTime).
#[local] Abbreviation not_after := (PipelinePage.not_after Date_getTime).
#[local] Abbreviation sort_insert := (PipelinePage.sort_insert Date_getTime).
#[local] Abbreviation sort := (PipelinePage.sort Date_getTime).
#[local] Abbreviation newest_first := (PipelinePage.newest_first Date_getTime).

Lemma sort_insert_Permutation a l : sort_insert a l ≡ₚ a :: l.
Proof.
  induction l as [|b l IH]; simpl; [reflexivity|].
  destruct (not_after a b); [reflexivity|].
  rewrite IH. apply Permutation_swap.
Qed.

Lemma sort_Permutation l : sort l ≡ₚ l.
Proof.
  induction l as [|a l IH]; simpl; [reflexivity|].
  rewrite sort_insert_Permutation, IH. reflexivity.
Qed.

Lemma not_after_false a b :
  not_after a b = false ->
  exists ta tb, time a = Some ta /\ time b = Some tb /\ ta < tb.
Proof.
  unfold PipelinePage.not_after.
  destruct (time a) as [ta|]; [|discriminate].
  destruct (time b) as [tb|]; [|discriminate].
  intros H. apply Z.leb_gt in H. exists ta, tb. repeat split. exact H.
Qed.

(** Items with the same time keep their order. *)
Lemma sort_insert_stable t a l :
  filter (fun item => time item = t) (sort_insert a l)
  = filter (fun item => time item = t) (a :: l).
Proof.
  induction l as [|b l IH]; simpl; [reflexivity|].
  destruct (not_after a b) eqn:E; [reflexivity|].
  apply not_after_false in E as (ta & tb & Ha & Hb & Hlt).
  rewrite (filter_cons _ b), IH, !(filter_cons _ a), (filter_cons _ b).
  destruct (decide (time b = t)) as [Eb|Eb];
    destruct (decide (time a = t)) as [Ea|Ea]; try reflexivity.
  exfalso. rewrite <- Ea, Ha, Hb in Eb. injection Eb as Eb. lia.
Qed.

Lemma sort_stable t l :
  filter (fun item => time item = t) (sort l)
  = filter (fun item => time item = t) l.
Proof.
  induction l as [|a l IH]; [reflexivity|].
  change (sort (a :: l)) with (sort_insert a (sort l)).
  rewrite sort_insert_stable, !(filter_cons _ a), IH. reflexivity.
Qed.

Lemma sort_insert_sorted a l :
  is_Some (time a) ->
  Forall (fun item => is_Some (time item)) l ->
  StronglySorted newest_first l ->
  StronglySorted newest_first (sort_insert a l).
Proof.
  intros [ta Ha] Hparse Hsorted.
  induction Hsorted as [|b l Hsorted IH Hall]; simpl.
  - repeat constructor.
  - apply Forall_cons in Hparse as [[tb Hb] Hparse].
    destruct (not_after a b) eqn:E.
    + assert (Hab : newest_first a b).
      { unfold PipelinePage.not_after in E. rewrite Ha, Hb in E.
        exists ta, tb. repeat split; try assumption. apply Z.leb_le, E. }
      constructor; [constructor; assumption|].
      constructor; [exact Hab|].
      eapply Forall_impl; [exact Hall|]. intros c (tb' & tc & Hb' & Hc & Hle).
      destruct Hab as (ta' & tb'' & Ha' & Hb'' & Hle').
      exists ta', tc. repeat split; try assumption.
      assert (tb' = tb'') by congruence. lia.
    + constructor; [apply IH, Hparse|].
      rewrite sort_insert_Permutation. constructor; [|exact Hall].
      apply not_after_false in E as (ta' & tb' & Ha' & Hb' & Hlt).
      exists tb', ta'. repeat split; try assumption. lia.
Qed.

Lemma sort_sorted l :
  Forall (fun item => is_Some (time item)) l ->
  StronglySorted newest_first (sort l).
Proof.
  induction 1 as [|a l Ha Hl IH]; [constructor|].
  change (sort (a :: l)) with (sort_insert a (sort l)).
  apply sort_insert_sorted; [exact Ha | | exact IH].
  rewrite sort_Permutation. exact Hl.
Qed.

Lemma fill_spec items byStage :
  match PipelinePage.fill items byStage with
  | Some filled =>
      Forall (fun item =>
                is_Some (PipelinePage.Stage_of (PipelinePage.stage item)))
        items
      /\ forall s,
           filled s
           = byStage s
             ++ filter (fun item =>
                          PipelinePage.Stage_of (PipelinePage.stage item) = Some s)
                  items
  | None =>
      exists item,
        item ∈ items
        /\ PipelinePage.Stage_of (PipelinePage.stage item) = None
  end.
Proof.
  revert byStage. induction items as [|item items IH]; intros byStage; simpl.
  - split; [constructor|]. intros s. rewrite app_nil_r. reflexivity.
  - destruct (PipelinePage.Stage_of (PipelinePage.stage item)) as [s0|] eqn:E.
    + specialize (IH (PipelinePage.push byStage s0 item)).
      destruct (PipelinePage.fill items (PipelinePage.push byStage s0 item)).
      * destruct IH as [Hknown IH]. split.
        { constructor; [rewrite E; eexists; reflexivity | exact Hknown]. }
        intros s. rewrite IH, filter_cons. unfold PipelinePage.push.
        destruct (decide (s = s0)) as [->|Hne].
        -- rewrite decide_True by exact E. rewrite <- app_assoc. reflexivity.
        -- rewrite decide_False by congruence. reflexivity.
      * destruct IH as (x & Hx & Hnone). exists x. split; [right|]; assumption.
    + exists item. split; [left | exact E].
Qed.

(** X18. The board shows every item once, in the column of its stage.
    [grouped] throws exactly when some item's stage is none of the five
    keys.  Otherwise every item's stage is one of the five keys and each
    column holds exactly the items of its stage; when every date parses,
    the column is newest first, items with the same time in the order of
    the list. *)
Theorem grouped_columns (items : list PipelinePage.Automation) :
  match PipelinePage.grouped Date_getTime items with
  | Some columns =>
      Forall (fun item =>
                is_Some (PipelinePage.Stage_of (PipelinePage.stage item)))
        items
      /\ forall s,
           columns s
           ≡ₚ filter (fun item =>
                        PipelinePage.Stage_of (PipelinePage.stage item) = Some s)
                items
           /\ (Forall (fun item => is_Some (time item)) items ->
               StronglySorted newest_first (columns s)
               /\ forall t,
                    filter (fun item => time item = t) (columns s)
                    = filter (fun item => time item = t)
                        (filter (fun item =>
                                   PipelinePage.Stage_of (PipelinePage.stage item)
                                   = Some s)
                           items))
  | None =>
      exists item,
        item ∈ items
        /\ PipelinePage.Stage_of (PipelinePage.stage item) = None
  end.
Proof.
  unfold PipelinePage.grouped.
  pose proof (fill_spec items (fun _ => [])) as H.
  destruct (PipelinePage.fill items (fun _ => [])) as [byStage|]; simpl;
    [|exact H].
  destruct H as [Hknown H]. split; [exact Hknown|].
  intros s. rewrite H. simpl. split; [apply sort_Permutation|].
  intros Hparse. split; [|intros t; apply sort_stable].
  apply sort_sorted.
  apply Forall_forall. intros item Hitem.
  apply list_elem_of_filter in Hitem as [_ Hitem].
  rewrite Forall_forall in Hparse. apply Hparse, Hitem.
Qed.

End board.
